(** * Expense tracker: the persistence adapter, the summary, the filter
      pipeline and the CSV export, embedded from the TypeScript sources.

    - [src/types/expense.ts]    the data model
    - [src/lib/storage.ts]      [storageUtils]
    - [src/unnamed/part_005]    the utilities imported as [@/lib/utils]:
                                [calculateSummary], [exportToCSV], [cn]
    - [src/unnamed/part_000]    [ExpensesPage]: its effects and handlers
    - [src/unnamed/part_001]    [SpendingChart]
    - [src/unnamed/part_003]    [ExpenseForm]
    - [src/components/]         [CategoryBreakdown], [RecentExpenses] and
                                [ExpenseFiltersComponent]

    JavaScript numbers are IEEE-754 doubles; the arithmetic the code uses
    ([+], [>], [/]) is gathered in the class [Number], whose instance
    [Float64] is the JavaScript one (Rocq's primitive binary64 floats).
    The built-ins the code calls ([Date], [String.prototype.toLowerCase],
    [Number.prototype.toString]) are gathered in [Runtime] and
    [NumberFormat]. *)

From Stdlib Require Import ZArith List String Ascii Bool Lia.
From Stdlib Require Import Floats Permutation Sorted.
Import ListNotations.

#[local] Set Warnings "-inexact-float".

Local Open Scope string_scope.
Local Open Scope list_scope.
Local Open Scope Z_scope.

(** ** Numbers *)

(** The operations of the JavaScript [number] type that the sources use. *)
Class Number : Type := {
  num : Type;
  zero : num;                       (* the literal 0 *)
  plus : num -> num -> num;         (* a + b *)
  gt : num -> num -> bool;          (* a > b *)
  quot : num -> num -> num;         (* a / b *)
  ofLength : nat -> num;            (* expenses.length *)
  jsonNumber : num -> option num    (* JSON.parse(JSON.stringify(a)); None is null *)
}.

(** IEEE-754 binary64: what [number] is at run time.  [JSON.stringify]
    writes NaN and the infinities as [null] and the negative zero as [0]. *)
Definition Float64 : Number := {|
  num := float;
  zero := 0%float;
  plus := PrimFloat.add;
  gt := fun a b => PrimFloat.ltb b a;
  quot := PrimFloat.div;
  ofLength := fun n => PrimFloat.of_uint63 (Uint63.of_Z (Z.of_nat n));
  jsonNumber := fun a =>
    if PrimFloat.is_nan a || PrimFloat.is_infinity a then None
    else Some (if PrimFloat.is_zero a then 0%float else a)
|}.

(** ** Data model ([src/types/expense.ts]) *)

Inductive ExpenseCategory : Type :=
  | Food | Transportation | Entertainment | Shopping | Bills | Other.

Definition categoryName (c : ExpenseCategory) : string :=
  match c with
  | Food => "Food"
  | Transportation => "Transportation"
  | Entertainment => "Entertainment"
  | Shopping => "Shopping"
  | Bills => "Bills"
  | Other => "Other"
  end.

Definition category_eqb (a b : ExpenseCategory) : bool :=
  match a, b with
  | Food, Food | Transportation, Transportation
  | Entertainment, Entertainment | Shopping, Shopping
  | Bills, Bills | Other, Other => true
  | _, _ => false
  end.

Definition categoryOfName (s : string) : option ExpenseCategory :=
  find (fun c => String.eqb (categoryName c) s)
       [Food; Transportation; Entertainment; Shopping; Bills; Other].

Record Expense {N : Number} : Type := {
  id : string;
  date : string;          (* ISO date string *)
  amount : num;
  category : ExpenseCategory;
  description : string;
  createdAt : string;     (* ISO date string *)
  updatedAt : string      (* ISO date string *)
}.
Arguments Expense N : clear implicits.
Arguments Build_Expense {N}.

(** [Partial<Expense>]: every property may be missing. *)
Record PartialExpense {N : Number} : Type := {
  p_id : option string;
  p_date : option string;
  p_amount : option num;
  p_category : option ExpenseCategory;
  p_description : option string;
  p_createdAt : option string;
  p_updatedAt : option string
}.
Arguments PartialExpense N : clear implicits.
Arguments Build_PartialExpense {N}.

(** [ExpenseCategory | 'All'] *)
Inductive CategoryChoice : Type :=
  | All
  | Only (c : ExpenseCategory).

Record ExpenseFilters : Type := {
  filterCategory : option CategoryChoice;   (* category? *)
  startDate : option string;
  endDate : option string;
  searchQuery : option string
}.

(** [Record<ExpenseCategory, number>]: an object whose keys keep the
    order of the literal that created it. *)
Definition CategoryTotals {N : Number} : Type := list (ExpenseCategory * num).

Record ExpenseSummary {N : Number} : Type := {
  totalExpenses : num;
  monthlyTotal : num;
  categoryTotals : CategoryTotals;
  topCategory : option ExpenseCategory;
  averageExpense : num
}.
Arguments ExpenseSummary N : clear implicits.
Arguments Build_ExpenseSummary {N}.

(** ** The built-ins of the host *)

(** A [Date] is its time value: milliseconds since the epoch, or NaN for
    an invalid date ([None] below).  [getMonth] and [getFullYear] read
    the time value in the local time zone of the host. *)
Class Runtime : Type := {
  Date_parse : string -> option Z;   (* new Date(s).getTime() *)
  getMonth : Z -> Z;                 (* 0 .. 11, local time *)
  getFullYear : Z -> Z;              (* local time *)
  toISOString : Z -> string;
  toLowerCase : string -> string
}.

(** [String(a)] for a number [a], as [Array.prototype.join] applies it. *)
Class NumberFormat (N : Number) : Type :=
  Number_toString : num -> string.

(** *** A host in the UTC time zone

    A concrete [Runtime] for evaluating the code on examples: [Date]
    restricted to the two ISO-8601 forms the application itself
    produces, the calendar date [YYYY-MM-DD] of a date input and the
    [YYYY-MM-DDTHH:mm:ss.sssZ] of [toISOString]; local time is UTC;
    [toLowerCase] on ASCII letters. *)
Module UTC.

Definition msPerDay : Z := 86400000.

(** Days since 1970-01-01 of a date of the proleptic Gregorian calendar. *)
Definition daysFromCivil (y m d : Z) : Z :=
  let y' := if m <=? 2 then y - 1 else y in
  let era := y' / 400 in
  let yoe := y' - era * 400 in
  let mp := if m >? 2 then m - 3 else m + 9 in
  let doy := (153 * mp + 2) / 5 + d - 1 in
  let doe := yoe * 365 + yoe / 4 - yoe / 100 + doy in
  era * 146097 + doe - 719468.

(** Year, month (1 .. 12) and day of a number of days since the epoch. *)
Definition civilFromDays (z : Z) : Z * Z * Z :=
  let z' := z + 719468 in
  let era := z' / 146097 in
  let doe := z' - era * 146097 in
  let yoe := (doe - doe / 1460 + doe / 36524 - doe / 146096) / 365 in
  let doy := doe - (365 * yoe + yoe / 4 - yoe / 100) in
  let mp := (5 * doy + 2) / 153 in
  let d := doy - (153 * mp + 2) / 5 + 1 in
  let m := if mp <? 10 then mp + 3 else mp - 9 in
  let y := yoe + era * 400 in
  (if m <=? 2 then y + 1 else y, m, d).

Definition isLeap (y : Z) : bool :=
  ((y mod 4 =? 0) && negb (y mod 100 =? 0)) || (y mod 400 =? 0).

Definition daysInMonth (y m : Z) : Z :=
  if m =? 2 then (if isLeap y then 29 else 28)
  else if (m =? 4) || (m =? 6) || (m =? 9) || (m =? 11) then 30
  else 31.

Definition digitOf (c : ascii) : option Z :=
  let n := Z.of_nat (nat_of_ascii c) in
  if (48 <=? n) && (n <=? 57) then Some (n - 48) else None.

(** Reads exactly [n] decimal digits. *)
Fixpoint readDigits (n : nat) (acc : Z) (s : string) : option (Z * string) :=
  match n with
  | O => Some (acc, s)
  | S n' =>
      match s with
      | String c s' =>
          match digitOf c with
          | Some d => readDigits n' (10 * acc + d) s'
          | None => None
          end
      | EmptyString => None
      end
  end.

Definition readChar (c : ascii) (s : string) : option string :=
  match s with
  | String c' s' => if Ascii.eqb c c' then Some s' else None
  | EmptyString => None
  end.

Definition readTime (s : string) : option Z :=
  match readChar "T" s with
  | None => None
  | Some s1 =>
  match readDigits 2 0 s1 with
  | None => None
  | Some (h, s2) =>
  match readChar ":" s2 with
  | None => None
  | Some s3 =>
  match readDigits 2 0 s3 with
  | None => None
  | Some (mi, s4) =>
  match readChar ":" s4 with
  | None => None
  | Some s5 =>
  match readDigits 2 0 s5 with
  | None => None
  | Some (sec, s6) =>
  match readChar "." s6 with
  | None => None
  | Some s7 =>
  match readDigits 3 0 s7 with
  | None => None
  | Some (ms, s8) =>
      if String.eqb s8 "Z" && (h <=? 23) && (mi <=? 59) && (sec <=? 59)
      then Some (h * 3600000 + mi * 60000 + sec * 1000 + ms)
      else None
  end end end end end end end end.

Definition parse (s : string) : option Z :=
  match readDigits 4 0 s with
  | None => None
  | Some (y, s1) =>
  match readChar "-" s1 with
  | None => None
  | Some s2 =>
  match readDigits 2 0 s2 with
  | None => None
  | Some (m, s3) =>
  match readChar "-" s3 with
  | None => None
  | Some s4 =>
  match readDigits 2 0 s4 with
  | None => None
  | Some (d, s5) =>
      if (1 <=? m) && (m <=? 12) && (1 <=? d) && (d <=? daysInMonth y m)
      then
        match s5 with
        | EmptyString => Some (daysFromCivil y m d * msPerDay)
        | _ =>
            match readTime s5 with
            | Some t => Some (daysFromCivil y m d * msPerDay + t)
            | None => None
            end
        end
      else None
  end end end end end.

Definition digitChar (d : Z) : ascii := ascii_of_nat (Z.to_nat (48 + d mod 10)).

(** The last [width] decimal digits of [n]. *)
Fixpoint pad (width : nat) (n : Z) : string :=
  match width with
  | O => EmptyString
  | S w => pad w (n / 10) ++ String (digitChar n) EmptyString
  end.

Definition year (t : Z) : Z := fst (fst (civilFromDays (t / msPerDay))).
Definition month (t : Z) : Z := snd (fst (civilFromDays (t / msPerDay))).
Definition day (t : Z) : Z := snd (civilFromDays (t / msPerDay)).

Definition formatYear (y : Z) : string :=
  if (0 <=? y) && (y <=? 9999) then pad 4 y
  else (if y <? 0 then "-" else "+") ++ pad 6 (Z.abs y).

Definition format (t : Z) : string :=
  let r := t mod msPerDay in
  formatYear (year t) ++ "-" ++ pad 2 (month t) ++ "-" ++ pad 2 (day t)
  ++ "T" ++ pad 2 (r / 3600000) ++ ":" ++ pad 2 (r / 60000 mod 60)
  ++ ":" ++ pad 2 (r / 1000 mod 60) ++ "." ++ pad 3 (r mod 1000) ++ "Z".

Definition lowerAscii (c : ascii) : ascii :=
  let n := nat_of_ascii c in
  if (65 <=? n)%nat && (n <=? 90)%nat then ascii_of_nat (n + 32) else c.

Fixpoint lower (s : string) : string :=
  match s with
  | EmptyString => EmptyString
  | String c s' => String (lowerAscii c) (lower s')
  end.

Definition runtime : Runtime := {|
  Date_parse := parse;
  getMonth := fun t => month t - 1;
  getFullYear := year;
  toISOString := format;
  toLowerCase := lower
|}.

End UTC.

(** ** The browser state and the effects of the code *)

(** The values [JSON.parse] can return. *)
#[local] Unset Elimination Schemes.
Inductive JSON {N : Number} : Type :=
  | JNull
  | JBool (b : bool)
  | JNumber (a : num)
  | JString (s : string)
  | JArray (vs : list JSON)
  | JObject (props : list (string * JSON)).
#[local] Set Elimination Schemes.
Arguments JSON N : clear implicits.

(** What [localStorage] keeps under a key is a text.  The code looks at
    it only through its truthiness and through [JSON.parse], so a text is
    represented by what these two make of it. *)
Inductive Blob {N : Number} : Type :=
  | EmptyText                 (* the empty string *)
  | Malformed                 (* a non-empty text that JSON.parse rejects *)
  | JsonText (v : JSON N).    (* a text that JSON.parse turns into v *)
Arguments Blob N : clear implicits.

Record World {N : Number} : Type := {
  hasWindow : bool;           (* typeof window !== 'undefined' *)
  accessDenied : bool;        (* localStorage raises on every access *)
  quotaExceeded : bool;       (* localStorage.setItem raises *)
  item : option (Blob N);     (* localStorage under STORAGE_KEY; None is null *)
  clock : Z                   (* the time value new Date() reads *)
}.
Arguments World N : clear implicits.
Arguments Build_World {N}.

Inductive Error : Type :=
  | SecurityError
  | QuotaExceededError
  | SyntaxError
  | IllTyped.   (* a value outside its declared TypeScript type: not followed further *)

Inductive Completion (A : Type) : Type :=
  | Normal (a : A)
  | Throw (e : Error).
Arguments Normal {A}.
Arguments Throw {A}.

(** A computation reads and writes the world and ends normally or by an
    exception. *)
Definition JS {N : Number} (A : Type) : Type := World N -> Completion A * World N.

Section Effects.
Context {N : Number}.

Definition ret {A} (a : A) : JS A := fun w => (Normal a, w).

Definition throw {A} (e : Error) : JS A := fun w => (Throw e, w).

Definition bind {A B} (m : JS A) (k : A -> JS B) : JS B :=
  fun w =>
    match m w with
    | (Normal a, w') => k a w'
    | (Throw e, w') => (Throw e, w')
    end.

(** [try { body } catch (error) { handler }] *)
Definition tryCatch {A} (body : JS A) (handler : Error -> JS A) : JS A :=
  fun w =>
    match body w with
    | (Normal a, w') => (Normal a, w')
    | (Throw e, w') => handler e w'
    end.

Definition windowIsUndefined : JS bool :=
  fun w => (Normal (negb (hasWindow w)), w).

Definition localStorage_getItem : JS (option (Blob N)) :=
  fun w => if accessDenied w then (Throw SecurityError, w) else (Normal (item w), w).

Definition withItem (w : World N) (i : option (Blob N)) : World N :=
  {| hasWindow := hasWindow w; accessDenied := accessDenied w;
     quotaExceeded := quotaExceeded w; item := i; clock := clock w |}.

Definition localStorage_setItem (b : Blob N) : JS unit :=
  fun w =>
    if accessDenied w then (Throw SecurityError, w)
    else if quotaExceeded w then (Throw QuotaExceededError, w)
    else (Normal tt, withItem w (Some b)).

Definition localStorage_removeItem : JS unit :=
  fun w =>
    if accessDenied w then (Throw SecurityError, w)
    else (Normal tt, withItem w None).

Definition JSON_parse (b : Blob N) : JS (JSON N) :=
  match b with
  | JsonText v => ret v
  | EmptyText | Malformed => throw SyntaxError
  end.

(** [new Date().toISOString()]; the clock does not tick during one call. *)
Definition nowISOString {R : Runtime} : JS string :=
  fun w => (Normal (toISOString (clock w)), w).

End Effects.

Notation "x <- m ;; k" := (bind m (fun x => k))
  (at level 61, m at next level, right associativity).
Notation "m ;;; k" := (bind m (fun _ => k))
  (at level 61, right associativity).

(** ** [JSON.stringify] and the declared type [Expense[]] *)

Section Json.
Context {N : Number}.

Definition numberToJSON (a : num) : JSON N :=
  match jsonNumber a with
  | Some a' => JNumber a'
  | None => JNull
  end.

Definition expenseToJSON (e : Expense N) : JSON N :=
  JObject [ ("id", JString (id e));
            ("date", JString (date e));
            ("amount", numberToJSON (amount e));
            ("category", JString (categoryName (category e)));
            ("description", JString (description e));
            ("createdAt", JString (createdAt e));
            ("updatedAt", JString (updatedAt e)) ].

(** The value that [JSON.parse] makes of [JSON.stringify(expenses)]. *)
Definition toJSON (expenses : list (Expense N)) : JSON N :=
  JArray (map expenseToJSON expenses).

Definition JSON_stringify (expenses : list (Expense N)) : Blob N :=
  JsonText (toJSON expenses).

Definition expenseKeys : list string :=
  ["id"; "date"; "amount"; "category"; "description"; "createdAt"; "updatedAt"].

Fixpoint sameKeys (ks expected : list string) : bool :=
  match ks, expected with
  | [], [] => true
  | k :: ks', k' :: expected' => String.eqb k k' && sameKeys ks' expected'
  | _, _ => false
  end.

(** A parsed value seen at the type [Expense]: an object with the seven
    properties of the interface. *)
Definition asExpense (v : JSON N) : option (Expense N) :=
  match v with
  | JObject [ (k1, JString i); (k2, JString d); (k3, JNumber a);
              (k4, JString c); (k5, JString s); (k6, JString ca);
              (k7, JString ua) ] =>
      if sameKeys [k1; k2; k3; k4; k5; k6; k7] expenseKeys then
        match categoryOfName c with
        | Some c' => Some (Build_Expense i d a c' s ca ua)
        | None => None
        end
      else None
  | _ => None
  end.

Fixpoint asExpenseList (vs : list (JSON N)) : option (list (Expense N)) :=
  match vs with
  | [] => Some []
  | v :: vs' =>
      match asExpense v, asExpenseList vs' with
      | Some e, Some es => Some (e :: es)
      | _, _ => None
      end
  end.

Definition asExpenses (v : JSON N) : option (list (Expense N)) :=
  match v with
  | JArray vs => asExpenseList vs
  | _ => None
  end.

(** Using a loaded value at its declared type [Expense[]]. *)
Definition typed (v : JSON N) : JS (list (Expense N)) :=
  match asExpenses v with
  | Some expenses => ret expenses
  | None => throw IllTyped
  end.

End Json.

(** ** [src/lib/storage.ts] *)

Section Storage.
Context {N : Number} {R : Runtime}.

(** [getExpenses]: the declared result type is [Expense[]]; what is
    returned is whatever [JSON.parse] produced. *)
Definition getExpenses : JS (JSON N) :=
  undefined <- windowIsUndefined ;;
  if undefined then ret (JArray [])
  else
    tryCatch
      (data <- localStorage_getItem ;;
       match data with
       | None | Some EmptyText => ret (JArray [])   (* data ? ... : [] *)
       | Some b => JSON_parse b
       end)
      (fun error => ret (JArray [])).

(** [const expenses = storageUtils.getExpenses()], used as an
    [Expense[]]. *)
Definition getExpensesTyped : JS (list (Expense N)) :=
  loaded <- getExpenses ;;
  typed loaded.

Definition saveExpenses (expenses : list (Expense N)) : JS unit :=
  undefined <- windowIsUndefined ;;
  if undefined then ret tt
  else
    tryCatch
      (localStorage_setItem (JSON_stringify expenses))
      (fun error => ret tt).

Definition addExpense (expense : Expense N) : JS (list (Expense N)) :=
  expenses <- getExpensesTyped ;;
  let newExpenses := expenses ++ [expense] in
  saveExpenses newExpenses ;;;
  ret newExpenses.

(** [{ ...expense, ...updatedExpense, updatedAt: now }] *)
Definition spread (expense : Expense N) (updatedExpense : PartialExpense N)
    (now : string) : Expense N :=
  {| id := match p_id updatedExpense with Some v => v | None => id expense end;
     date := match p_date updatedExpense with Some v => v | None => date expense end;
     amount := match p_amount updatedExpense with Some v => v | None => amount expense end;
     category := match p_category updatedExpense with Some v => v | None => category expense end;
     description :=
       match p_description updatedExpense with Some v => v | None => description expense end;
     createdAt :=
       match p_createdAt updatedExpense with Some v => v | None => createdAt expense end;
     updatedAt := now |}.

Definition updateExpense (id0 : string) (updatedExpense : PartialExpense N)
    : JS (list (Expense N)) :=
  expenses <- getExpensesTyped ;;
  now <- nowISOString ;;
  let newExpenses :=
    map (fun expense =>
           if String.eqb (id expense) id0
           then spread expense updatedExpense now
           else expense)
        expenses in
  saveExpenses newExpenses ;;;
  ret newExpenses.

Definition deleteExpense (id0 : string) : JS (list (Expense N)) :=
  expenses <- getExpensesTyped ;;
  let newExpenses :=
    filter (fun expense => negb (String.eqb (id expense) id0)) expenses in
  saveExpenses newExpenses ;;;
  ret newExpenses.

Definition clearAllExpenses : JS unit :=
  undefined <- windowIsUndefined ;;
  if undefined then ret tt else localStorage_removeItem.

End Storage.

(** ** The utilities ([src/unnamed/part_005]) *)

Definition doubleQuote : ascii := "034"%char.
Definition lineFeed : ascii := "010"%char.

(** [Array.prototype.join] on strings. *)
Definition join (separator : string) (parts : list string) : string :=
  match parts with
  | [] => ""
  | first :: rest => fold_left (fun text part => (text ++ separator ++ part)%string) rest first
  end.

(** [s.replace] with the global pattern of one double quote and two
    double quotes as replacement. *)
Fixpoint replaceQuotes (s : string) : string :=
  match s with
  | EmptyString => EmptyString
  | String c s' =>
      if Ascii.eqb c doubleQuote
      then String doubleQuote (String doubleQuote (replaceQuotes s'))
      else String c (replaceQuotes s')
  end.

(** [s.split(c)[0]] *)
Fixpoint beforeFirst (c : ascii) (s : string) : string :=
  match s with
  | EmptyString => EmptyString
  | String c' s' => if Ascii.eqb c' c then EmptyString else String c' (beforeFirst c s')
  end.

Section Utils.
Context {N : Number} {R : Runtime}.

(** The callback of [monthlyExpenses]: a date that does not parse has
    NaN for month and year, which equals nothing. *)
Definition inMonth (currentMonth currentYear : Z) (expense : Expense N) : bool :=
  match Date_parse (date expense) with
  | Some expenseDate =>
      (getMonth expenseDate =? currentMonth) && (getFullYear expenseDate =? currentYear)
  | None => false
  end.

(** [list.reduce((sum, expense) => sum + expense.amount, 0)] *)
Definition sumAmounts (expenses : list (Expense N)) : num :=
  fold_left (fun sum expense => plus sum (amount expense)) expenses zero.

Definition emptyTotals : CategoryTotals :=
  [ (Food, zero); (Transportation, zero); (Entertainment, zero);
    (Shopping, zero); (Bills, zero); (Other, zero) ].

(** [categoryTotals[expense.category] += expense.amount] *)
Definition addToCategory (totals : CategoryTotals) (expense : Expense N)
    : CategoryTotals :=
  map (fun entry =>
         if category_eqb (fst entry) (category expense)
         then (fst entry, plus (snd entry) (amount expense))
         else entry)
      totals.

(** The loop over [Object.keys(categoryTotals)]; the state is
    [(topCategory, maxAmount)]. *)
Definition pickTop (state : option ExpenseCategory * num)
    (entry : ExpenseCategory * num) : option ExpenseCategory * num :=
  if gt (snd entry) (snd state) then (Some (fst entry), snd entry) else state.

(** [calculateSummary(expenses)]; [now] is read from the clock. *)
Definition calculateSummary (w : World N) (expenses : list (Expense N))
    : ExpenseSummary N :=
  let now := clock w in
  let currentMonth := getMonth now in
  let currentYear := getFullYear now in
  let monthlyExpenses := filter (inMonth currentMonth currentYear) expenses in
  let totalExpenses := sumAmounts expenses in
  let monthlyTotal := sumAmounts monthlyExpenses in
  let categoryTotals := fold_left addToCategory expenses emptyTotals in
  let topCategory := fst (fold_left pickTop categoryTotals (None, zero)) in
  let averageExpense :=
    if (0 <? List.length expenses)%nat
    then quot totalExpenses (ofLength (List.length expenses))
    else zero in
  {| totalExpenses := totalExpenses;
     monthlyTotal := monthlyTotal;
     categoryTotals := categoryTotals;
     topCategory := topCategory;
     averageExpense := averageExpense |}.

Context {F : NumberFormat N}.

Definition headers : list string := ["Date"; "Category"; "Amount"; "Description"].

Definition csvRow (expense : Expense N) : string :=
  join ","
    [ date expense;
      categoryName (category expense);
      Number_toString (amount expense);
      (String doubleQuote (replaceQuotes (description expense))
         ++ String doubleQuote EmptyString)%string ].

Definition csvContent (expenses : list (Expense N)) : string :=
  join (String lineFeed EmptyString) (join "," headers :: map csvRow expenses).

(** What [exportToCSV] hands to the browser: the blob behind the link
    that is clicked, and the name of the download. *)
Record Download : Type := {
  content : string;
  mimeType : string;
  download : string
}.

Definition exportToCSV (w : World N) (expenses : list (Expense N)) : Download :=
  {| content := csvContent expenses;
     mimeType := "text/csv;charset=utf-8;";
     download :=
       ("expenses-" ++ beforeFirst "T" (toISOString (clock w)) ++ ".csv")%string |}.

End Utils.

(** ** The filter effect of [ExpensesPage] ([src/unnamed/part_000]) *)

(** [s.includes(q)] *)
Fixpoint includes (s q : string) : bool :=
  if String.prefix q s then true
  else
    match s with
    | EmptyString => false
    | String _ s' => includes s' q
    end.

(** A string is truthy when it is not empty. *)
Definition truthy (s : option string) : option string :=
  match s with
  | Some EmptyString | None => None
  | Some s' => Some s'
  end.

(** [Array.prototype.sort(compare)]: the sort is stable, and a NaN from
    [compare] counts as [0].  Whatever stable algorithm the engine runs,
    the result is the one of this insertion sort as soon as [compare] is
    a consistent ordering. *)
Section Sort.
Context {A : Type} (compare : A -> A -> option Z).

Definition notAfter (a b : A) : bool :=
  match compare a b with
  | Some v => v <=? 0
  | None => true
  end.

Fixpoint insert (a : A) (sorted : list A) : list A :=
  match sorted with
  | [] => [a]
  | b :: rest => if notAfter a b then a :: b :: rest else b :: insert a rest
  end.

Definition sort (l : list A) : list A := fold_right insert [] l.
End Sort.

Section Filter.
Context {N : Number} {R : Runtime}.

(** [new Date(a) >= new Date(b)]: false as soon as one is invalid. *)
Definition dateGe (a b : string) : bool :=
  match Date_parse a, Date_parse b with
  | Some ta, Some tb => tb <=? ta
  | _, _ => false
  end.

Definition dateLe (a b : string) : bool :=
  match Date_parse a, Date_parse b with
  | Some ta, Some tb => ta <=? tb
  | _, _ => false
  end.

(** [new Date(b.date).getTime() - new Date(a.date).getTime()] *)
Definition compareDates (a b : Expense N) : option Z :=
  match Date_parse (date b), Date_parse (date a) with
  | Some tb, Some ta => Some (tb - ta)
  | _, _ => None
  end.

Definition byCategory (filters : ExpenseFilters) (l : list (Expense N)) :=
  match filterCategory filters with
  | Some (Only c) => filter (fun expense => category_eqb (category expense) c) l
  | Some All | None => l
  end.

Definition bySearch (filters : ExpenseFilters) (l : list (Expense N)) :=
  match truthy (searchQuery filters) with
  | Some q =>
      let query := toLowerCase q in
      filter (fun expense => includes (toLowerCase (description expense)) query) l
  | None => l
  end.

Definition byStart (filters : ExpenseFilters) (l : list (Expense N)) :=
  match truthy (startDate filters) with
  | Some s => filter (fun expense => dateGe (date expense) s) l
  | None => l
  end.

Definition byEnd (filters : ExpenseFilters) (l : list (Expense N)) :=
  match truthy (endDate filters) with
  | Some s => filter (fun expense => dateLe (date expense) s) l
  | None => l
  end.

(** The list the effect passes to [setFilteredExpenses]. *)
Definition filteredExpenses (expenses : list (Expense N)) (filters : ExpenseFilters)
    : list (Expense N) :=
  let filtered := expenses in
  let filtered := byCategory filters filtered in
  let filtered := bySearch filters filtered in
  let filtered := byStart filters filtered in
  let filtered := byEnd filters filtered in
  sort compareDates filtered.

End Filter.

(** ** Notions used by the statements *)

Section Notions.
Context {N : Number}.

(** The store holds the list [expenses]: this is what the adapter
    reads, at the type its signature declares. *)
Definition stored (w : World N) (expenses : list (Expense N)) : Prop :=
  fst (getExpensesTyped w) = Normal expenses.

Definition uniqueIds (expenses : list (Expense N)) : Prop :=
  NoDup (map id expenses).

(** The write of [saveExpenses] goes through. *)
Definition writable (w : World N) : bool :=
  hasWindow w && negb (accessDenied w) && negb (quotaExceeded w).

(** Amounts that [JSON.stringify] and [JSON.parse] give back unchanged. *)
Definition serialisable (expenses : list (Expense N)) : Prop :=
  Forall (fun e => jsonNumber (amount e) = Some (amount e)) expenses.

(** What an update makes of one property: the value the partial record
    gives for it when it has one, the old value otherwise. *)
Definition merged {A : Type} (given : option A) (old new : A) : Prop :=
  match given with
  | Some v => new = v
  | None => new = old
  end.

(** [e'] is [e] with the properties of [p] written over it and
    [updatedAt] set to [now]. *)
Definition updatedFrom (p : PartialExpense N) (now : string) (e e' : Expense N) : Prop :=
  merged (p_id p) (id e) (id e') /\
  merged (p_date p) (date e) (date e') /\
  merged (p_amount p) (amount e) (amount e') /\
  merged (p_category p) (category e) (category e') /\
  merged (p_description p) (description e) (description e') /\
  merged (p_createdAt p) (createdAt e) (createdAt e') /\
  updatedAt e' = now.

(** The sum of [amount] over exactly the records that [keep] selects,
    taken in one pass over the list. *)
Fixpoint sumWhere (keep : Expense N -> bool) (expenses : list (Expense N)) (sum : num)
    : num :=
  match expenses with
  | [] => sum
  | e :: rest => sumWhere keep rest (if keep e then plus sum (amount e) else sum)
  end.

(** The date of [e] is a valid date whose calendar month and year are
    those of the time [now]. *)
Definition sameMonthAndYear {R : Runtime} (now : Z) (e : Expense N) : Prop :=
  exists t, Date_parse (date e) = Some t /\
            getMonth t = getMonth now /\ getFullYear t = getFullYear now.

(** The sum over the category buckets, in the order of the keys. *)
Definition sumOfTotals (totals : CategoryTotals) : num :=
  fold_left (fun sum entry => plus sum (snd entry)) totals zero.

(** [categoryTotals[c]] *)
Definition totalOf (totals : CategoryTotals) (c : ExpenseCategory) : num :=
  match find (fun entry => category_eqb (fst entry) c) totals with
  | Some entry => snd entry
  | None => zero
  end.

End Notions.

(** The place of a category in the enumeration
    Food, Transportation, Entertainment, Shopping, Bills, Other. *)
Definition position (c : ExpenseCategory) : nat :=
  match c with
  | Food => 0
  | Transportation => 1
  | Entertainment => 2
  | Shopping => 3
  | Bills => 4
  | Other => 5
  end.

(** Doubles that are no NaN, not negative and not the negative zero:
    zero, the positive finite doubles and plus infinity. *)
Definition specNonneg (x : spec_float) : Prop :=
  match x with
  | S754_zero false | S754_finite false _ _ | S754_infinity false => True
  | _ => False
  end.

Definition nonneg (x : float) : Prop := specNonneg (Prim2SF x).

(** Every amount is positive: the invariant [amount > 0] of the data
    model, which the form enforces before it submits. *)
Definition positiveAmounts (expenses : list (Expense Float64)) : Prop :=
  Forall (fun e : Expense Float64 => PrimFloat.ltb 0%float (amount e) = true) expenses.

(** What the loop over the keys has found after the entries [seen]. *)
Definition scanned (seen : list (ExpenseCategory * float))
    (state : option ExpenseCategory * float) : Prop :=
  match fst state with
  | None => snd state = 0%float /\ Forall (fun entry => snd entry = 0%float) seen
  | Some c =>
      exists before after,
        seen = before ++ (c, snd state) :: after /\
        PrimFloat.ltb 0%float (snd state) = true /\
        Forall (fun entry => PrimFloat.ltb (snd entry) (snd state) = true) before /\
        Forall (fun entry => PrimFloat.ltb (snd state) (snd entry) = false) after
  end.

Section FilterNotions.
Context {N : Number} {R : Runtime}.

(** A record passes the criteria: every predicate that is active holds. *)
Definition passes (filters : ExpenseFilters) (e : Expense N) : bool :=
  match filterCategory filters with
  | Some (Only c) => category_eqb (category e) c
  | Some All | None => true
  end
  && match truthy (searchQuery filters) with
     | Some q => includes (toLowerCase (description e)) (toLowerCase q)
     | None => true
     end
  && match truthy (startDate filters) with
     | Some s => dateGe (date e) s
     | None => true
     end
  && match truthy (endDate filters) with
     | Some s => dateLe (date e) s
     | None => true
     end.

(** Every record carries a date that parses: the [date] of the data
    model is a calendar date. *)
Definition validDates (expenses : list (Expense N)) : Prop :=
  Forall (fun e => exists t, Date_parse (date e) = Some t) expenses.

(** [a] is not older than [b]. *)
Definition newestFirst (a b : Expense N) : Prop :=
  match Date_parse (date a), Date_parse (date b) with
  | Some ta, Some tb => tb <= ta
  | _, _ => False
  end.

End FilterNotions.

(** [l'] is [l] with some elements erased, the others in their order. *)
Inductive Subsequence {A : Type} : list A -> list A -> Prop :=
  | Subsequence_nil : Subsequence [] []
  | Subsequence_keep (a : A) (l' l : list A) :
      Subsequence l' l -> Subsequence (a :: l') (a :: l)
  | Subsequence_drop (a : A) (l' l : list A) :
      Subsequence l' l -> Subsequence l' (a :: l).

(** ** Sample data

    The scenario of the specification: three expenses, kept by a
    browser whose local time is UTC. *)
Module Sample.

Definition expense (i d : string) (a : float) (c : ExpenseCategory) (s : string)
    : Expense Float64 :=
  Build_Expense (N := Float64) i d a c s d d.

Definition lunch : Expense Float64 :=
  expense "1" "2024-01-05T00:00:00.000Z" 20%float Food "Lunch".

Definition groceries : Expense Float64 :=
  expense "2" "2024-01-20T00:00:00.000Z" 30%float Food "Groceries".

Definition electricity : Expense Float64 :=
  expense "3" "2024-02-01T00:00:00.000Z" 50%float Bills "Electric bill".

Definition three : list (Expense Float64) := [lunch; groceries; electricity].

(** 2024-02-15 and 2024-03-15, midnight UTC. *)
Definition feb15 : Z := 1707955200000.
Definition mar15 : Z := 1710460800000.

(** A browser whose storage holds [expenses] and whose clock reads [now]. *)
Definition browser (expenses : list (Expense Float64)) (now : Z) : World Float64 :=
  {| hasWindow := true; accessDenied := false; quotaExceeded := false;
     item := Some (JSON_stringify expenses); clock := now |}.

(** [{ amount: 25, description: 'Brunch' }] *)
Definition brunch : PartialExpense Float64 :=
  Build_PartialExpense (N := Float64) None None (Some 25%float) None (Some "Brunch") None None.

(** [{ id: '9', createdAt: '2000-01-01T00:00:00.000Z' }] *)
Definition renumber : PartialExpense Float64 :=
  Build_PartialExpense (N := Float64) (Some "9") None None None None
    (Some "2000-01-01T00:00:00.000Z") None.

(** A new expense that reuses the id of [lunch]. *)
Definition coffee : Expense Float64 :=
  expense "1" "2024-02-10T00:00:00.000Z" 4%float Food "Coffee".

(** A browser whose storage holds the JSON text [null]. *)
Definition nullBrowser : World Float64 :=
  {| hasWindow := true; accessDenied := false; quotaExceeded := false;
     item := Some (JsonText JNull); clock := feb15 |}.

(** Three small amounts in two categories. *)
Definition dimes : list (Expense Float64) :=
  [ expense "1" "2024-02-01T00:00:00.000Z" 0.2%float Food "Gum";
    expense "2" "2024-02-02T00:00:00.000Z" 0.1%float Bills "Fee";
    expense "3" "2024-02-03T00:00:00.000Z" 0.3%float Food "Candy" ].

(** The description [Lunch at "Joe's", downtown]. *)
Definition joes : string :=
  "Lunch at " ++ String doubleQuote "Joe's" ++ String doubleQuote ", downtown".

(** The criteria of the page with the category set to Food. *)
Definition foodOnly : ExpenseFilters :=
  {| filterCategory := Some (Only Food); startDate := Some "";
     endDate := Some ""; searchQuery := Some "" |}.

End Sample.

(** ** [ExpensesPage] and its handlers ([src/unnamed/part_000]) *)

Section Page.
Context {N : Number} {R : Runtime}.

(** The state of the component: one field per [useState]. *)
Record PageState : Type := {
  page_expenses : list (Expense N);           (* expenses *)
  page_filteredExpenses : list (Expense N);   (* filteredExpenses *)
  page_filters : ExpenseFilters;              (* filters *)
  editingExpense : option (Expense N);
  isLoading : bool;
  showForm : bool
}.

(** The criteria of the initial state; the Clear Filters button of
    [ExpenseFiltersComponent] passes the same object to [onFilterChange]. *)
Definition clearedFilters : ExpenseFilters :=
  {| filterCategory := Some All; startDate := Some "";
     endDate := Some ""; searchQuery := Some "" |}.

Definition initialPage : PageState :=
  {| page_expenses := []; page_filteredExpenses := [];
     page_filters := clearedFilters; editingExpense := None;
     isLoading := true; showForm := false |}.

(** The effect on [[expenses, filters]]: it runs after every render in
    which one of the two has changed. *)
Definition filterEffect (s : PageState) : PageState :=
  {| page_expenses := page_expenses s;
     page_filteredExpenses := filteredExpenses (page_expenses s) (page_filters s);
     page_filters := page_filters s;
     editingExpense := editingExpense s;
     isLoading := isLoading s;
     showForm := showForm s |}.

(** The effect that runs once, after the first render. *)
Definition loadEffect (s : PageState) : JS PageState :=
  loadedExpenses <- getExpensesTyped ;;
  ret {| page_expenses := loadedExpenses;
         page_filteredExpenses := loadedExpenses;
         page_filters := page_filters s;
         editingExpense := editingExpense s;
         isLoading := false;
         showForm := showForm s |}.

Definition setFilters (filters : ExpenseFilters) (s : PageState) : PageState :=
  {| page_expenses := page_expenses s;
     page_filteredExpenses := page_filteredExpenses s;
     page_filters := filters;
     editingExpense := editingExpense s;
     isLoading := isLoading s;
     showForm := showForm s |}.

Definition handleAddExpense (expense : Expense N) (s : PageState) : JS PageState :=
  newExpenses <- addExpense expense ;;
  ret {| page_expenses := newExpenses;
         page_filteredExpenses := page_filteredExpenses s;
         page_filters := page_filters s;
         editingExpense := editingExpense s;
         isLoading := isLoading s;
         showForm := false |}.

(** An [Expense] passed where a [Partial<Expense>] is expected: every
    property is present. *)
Definition asPartial (expense : Expense N) : PartialExpense N :=
  {| p_id := Some (id expense);
     p_date := Some (date expense);
     p_amount := Some (amount expense);
     p_category := Some (category expense);
     p_description := Some (description expense);
     p_createdAt := Some (createdAt expense);
     p_updatedAt := Some (updatedAt expense) |}.

Definition handleUpdateExpense (expense : Expense N) (s : PageState) : JS PageState :=
  newExpenses <- updateExpense (id expense) (asPartial expense) ;;
  ret {| page_expenses := newExpenses;
         page_filteredExpenses := page_filteredExpenses s;
         page_filters := page_filters s;
         editingExpense := None;
         isLoading := isLoading s;
         showForm := false |}.

Definition handleDeleteExpense (id0 : string) (s : PageState) : JS PageState :=
  newExpenses <- deleteExpense id0 ;;
  ret {| page_expenses := newExpenses;
         page_filteredExpenses := page_filteredExpenses s;
         page_filters := page_filters s;
         editingExpense := editingExpense s;
         isLoading := isLoading s;
         showForm := showForm s |}.

Definition handleEditClick (expense : Expense N) (s : PageState) : PageState :=
  {| page_expenses := page_expenses s;
     page_filteredExpenses := page_filteredExpenses s;
     page_filters := page_filters s;
     editingExpense := Some expense;
     isLoading := isLoading s;
     showForm := true |}.

Definition handleCancelEdit (s : PageState) : PageState :=
  {| page_expenses := page_expenses s;
     page_filteredExpenses := page_filteredExpenses s;
     page_filters := page_filters s;
     editingExpense := None;
     isLoading := isLoading s;
     showForm := false |}.

(** [handleExportCSV]: the export takes the filtered list. *)
Definition handleExportCSV {F : NumberFormat N} (w : World N) (s : PageState) : Download :=
  exportToCSV w (page_filteredExpenses s).

(** The records whose date is the instant [t]. *)
Definition atInstant (t : Z) (e : Expense N) : bool :=
  match Date_parse (date e) with
  | Some t' => t' =? t
  | None => false
  end.

End Page.

Arguments PageState N : clear implicits.

(** ** [ExpenseFiltersComponent] ([src/components/ExpenseFilters.tsx]) *)

(** What the [onChange] handlers of the four inputs pass to
    [onFilterChange]: [{ ...filters, key: e.target.value }]. *)
Definition onSearchChange (filters : ExpenseFilters) (value : string) : ExpenseFilters :=
  {| filterCategory := filterCategory filters; startDate := startDate filters;
     endDate := endDate filters; searchQuery := Some value |}.

Definition onCategoryChange (filters : ExpenseFilters) (value : CategoryChoice)
    : ExpenseFilters :=
  {| filterCategory := Some value; startDate := startDate filters;
     endDate := endDate filters; searchQuery := searchQuery filters |}.

Definition onStartDateChange (filters : ExpenseFilters) (value : string) : ExpenseFilters :=
  {| filterCategory := filterCategory filters; startDate := Some value;
     endDate := endDate filters; searchQuery := searchQuery filters |}.

Definition onEndDateChange (filters : ExpenseFilters) (value : string) : ExpenseFilters :=
  {| filterCategory := filterCategory filters; startDate := startDate filters;
     endDate := Some value; searchQuery := searchQuery filters |}.

(** ** [RecentExpenses] ([src/components/RecentExpenses.tsx]) *)

Section Recent.
Context {N : Number} {R : Runtime}.

(** [expenses.sort(...).slice(0, 5)].  [sort] works in place: the first
    component is [recentExpenses], the second is the array of the caller
    after the call. *)
Definition RecentExpenses (expenses : list (Expense N))
    : list (Expense N) * list (Expense N) :=
  let sorted := sort compareDates expenses in
  (firstn 5 sorted, sorted).

End Recent.

(** ** [cn] ([src/unnamed/part_005]) *)

(** [classes.filter(Boolean).join(' ')]; [None] stands for [undefined],
    [null] and [false]. *)
Definition cn (classes : list (option string)) : string :=
  join " "
    (flat_map (fun c => match truthy c with Some s => [s] | None => [] end) classes).


(** Doubles above zero: the positive finite doubles and plus infinity. *)
Definition specPositive (x : spec_float) : Prop :=
  match x with
  | S754_finite false _ _ | S754_infinity false => True
  | _ => False
  end.


(** Doubles below zero: the negative finite doubles and minus infinity. *)
Definition specNegative (x : spec_float) : Prop :=
  match x with
  | S754_finite true _ _ | S754_infinity true => True
  | _ => False
  end.


(** ** Whole amounts

    The doubles of the whole numbers from 0 to 2^53, on which addition
    does not round. *)

(** The double of a whole number. *)
Definition whole (n : Z) : float := PrimFloat.of_uint63 (Uint63.of_Z n).

(** The whole number at or below a double that is not negative. *)
Definition wholePart (x : float) : Z :=
  match Prim2SF x with
  | S754_finite false m e => Z.shiftl (Zpos m) e
  | _ => 0
  end.

Definition wholeTotal (l : list (Expense Float64)) : Z :=
  fold_right (fun (e : Expense Float64) total => wholePart (amount e) + total) 0 l.

Definition wholeAmounts (l : list (Expense Float64)) : Prop :=
  Forall (fun e : Expense Float64 => amount e = whole (wholePart (amount e))) l /\
  wholeTotal l <= 2 ^ 53.

(** [x] is the double in canonical form of [V] times 2 to the smallest
    exponent. *)
Definition encodes (prec emax : Z) (x : spec_float) (V : Z) : Prop :=
  exists m,
    x = S754_finite false m
          (SpecFloat.fexp prec emax (Zdigits2 V + SpecFloat.emin prec emax)) /\
    SpecFloat.fexp prec emax (Zdigits2 V + SpecFloat.emin prec emax) <= emax - prec /\
    Zpos m * 2 ^ (SpecFloat.fexp prec emax (Zdigits2 V + SpecFloat.emin prec emax)
                  - SpecFloat.emin prec emax) = V.

(** ** [SpendingChart] ([src/unnamed/part_001]) *)

(** [new Date(year, month, day)] in local time, [None] when the date is
    out of range, and the short name of a month in the locale of the
    host. *)
Class ChartHost : Type := {
  Date_local : Z -> Z -> Z -> option Z;
  monthShort : Z -> string            (* toLocaleString('default', { month: 'short' }) *)
}.

(** One entry of [months]; the numbers of an invalid date are NaN
    ([None]). *)
Record MonthSlot : Type := {
  slot_month : string;
  slot_year : option Z;
  monthIndex : option Z;
  fullYear : option Z
}.

(** [Math.max]: NaN as soon as one argument is; from minus infinity
    upwards otherwise, the positive zero above the negative one. *)
Definition isZero (negative : bool) (x : float) : bool :=
  match Prim2SF x with
  | S754_zero s => Bool.eqb s negative
  | _ => false
  end.

Definition Math_max (values : list float) : float :=
  if existsb PrimFloat.is_nan values then PrimFloat.nan
  else
    fold_left
      (fun highest number =>
         if isZero false number && isZero true highest then number
         else if PrimFloat.ltb highest number then number
         else highest)
      values PrimFloat.neg_infinity.

Section Chart.
Context {R : Runtime} {C : ChartHost}.

Definition getLast6Months (w : World Float64) : list MonthSlot :=
  let now := clock w in
  map (fun i =>
         let date := Date_local (getFullYear now) (getMonth now - i) 1 in
         {| slot_month :=
              match date with
              | Some t => monthShort t
              | None => "Invalid Date"
              end;
            slot_year := option_map getFullYear date;
            monthIndex := option_map getMonth date;
            fullYear := option_map getFullYear date |})
      [5; 4; 3; 2; 1; 0].

(** The callback of the filter in [monthlyData]. *)
Definition inSlot (slot : MonthSlot) (expense : Expense Float64) : bool :=
  match monthIndex slot, fullYear slot with
  | Some m, Some y => inMonth m y expense
  | _, _ => false
  end.

Definition monthlyData (w : World Float64) (expenses : list (Expense Float64))
    : list (string * float) :=
  map (fun slot => (slot_month slot, sumAmounts (filter (inSlot slot) expenses)))
      (getLast6Months w).

Definition maxTotal (w : World Float64) (expenses : list (Expense Float64)) : float :=
  Math_max (map snd (monthlyData w expenses) ++ [1%float]).

(** The width of each bar, in per cent. *)
Definition percentages (w : World Float64) (expenses : list (Expense Float64))
    : list float :=
  map (fun d => PrimFloat.mul (PrimFloat.div (snd d) (maxTotal w expenses)) 100%float)
      (monthlyData w expenses).

End Chart.

(** ** [CategoryBreakdown] ([src/components/CategoryBreakdown.tsx]) *)

Record BreakdownRow : Type := {
  row_category : ExpenseCategory;
  row_amount : float;
  row_percentage : float
}.

(** The number a comparator returns, as [sort] reads it: NaN is [None],
    any other number counts by its sign. *)
Definition comparison_of (v : float) : option Z :=
  if PrimFloat.is_nan v then None
  else if PrimFloat.ltb v 0%float then Some (-1)
  else if PrimFloat.ltb 0%float v then Some 1
  else Some 0.

(** [Object.values(categoryTotals).reduce((sum, amount) => sum + amount, 0)] *)
Definition breakdownTotal (categoryTotals : CategoryTotals (N := Float64)) : float :=
  fold_left (fun sum amount => PrimFloat.add sum amount) (map snd categoryTotals) 0%float.

Definition sortedCategories (categoryTotals : CategoryTotals (N := Float64))
    : list BreakdownRow :=
  let total := breakdownTotal categoryTotals in
  sort (fun a b => comparison_of (PrimFloat.sub (row_amount b) (row_amount a)))
    (map (fun category =>
            {| row_category := category;
               row_amount := totalOf categoryTotals category;
               row_percentage :=
                 if PrimFloat.ltb 0%float total
                 then PrimFloat.mul
                        (PrimFloat.div (totalOf categoryTotals category) total) 100%float
                 else 0%float |})
         (map fst categoryTotals)).

(** Descending amounts, none of them negative. *)
Definition descending (r r' : BreakdownRow) : Prop :=
  nonneg (row_amount r) /\ nonneg (row_amount r') /\
  PrimFloat.leb (row_amount r') (row_amount r) = true.

(** ** [ExpenseForm] ([src/unnamed/part_003]) *)

(** [parseFloat] and [String.prototype.trim] of the host. *)
Class FormHost : Type := {
  parseFloat : string -> float;
  trim : string -> string
}.

Record ExpenseFormData : Type := {
  form_date : string;
  form_amount : string;
  form_category : ExpenseCategory;
  form_description : string
}.

(** [Partial<Record<keyof ExpenseFormData, string>>]; only three of the
    keys are ever set. *)
Record FormErrors : Type := {
  error_date : option string;
  error_amount : option string;
  error_description : option string
}.

(** The state of the component. *)
Record FormState : Type := {
  formData : ExpenseFormData;
  errors : FormErrors;
  isSubmitting : bool
}.

(** What one call of [handleSubmit] draws from outside: the result of
    [generateId()], should it be called, and the readings of the clock
    by the three [new Date()], in the order of the source. *)
Record Drawn : Type := {
  drawnId : string;
  at_createdAt : Z;
  at_updatedAt : Z;
  at_reset : Z
}.

(** How a call of [handleSubmit] ends: validation failed and nothing is
    submitted; [toISOString] raised a RangeError on an invalid date; or
    [onSubmit] was called with an expense. *)
Inductive Submission : Type :=
  | Rejected
  | RangeError
  | Submitted (expense : Expense Float64).

Section Form.
Context {R : Runtime} {H : FormHost}.

(** [!s] for a string. *)
Definition isEmpty (s : string) : bool :=
  match s with
  | EmptyString => true
  | String _ _ => false
  end.

Definition validateForm (data : ExpenseFormData) : FormErrors :=
  {| error_date :=
       if isEmpty (form_date data) then Some "Date is required" else None;
     error_amount :=
       if isEmpty (form_amount data) || isEmpty (trim (form_amount data))
       then Some "Amount is required"
       else
         let amount := parseFloat (form_amount data) in
         if PrimFloat.is_nan amount || PrimFloat.leb amount 0%float
         then Some "Amount must be a positive number"
         else None;
     error_description :=
       if isEmpty (form_description data) || isEmpty (trim (form_description data))
       then Some "Description is required"
       else if (String.length (trim (form_description data)) <? 3)%nat
            then Some "Description must be at least 3 characters"
            else None |}.

(** [Object.keys(newErrors).length === 0] *)
Definition noErrors (e : FormErrors) : bool :=
  match error_date e, error_amount e, error_description e with
  | None, None, None => true
  | _, _, _ => false
  end.

(** [a || b] on strings. *)
Definition orElse (a : option string) (b : string) : string :=
  match truthy a with
  | Some s => s
  | None => b
  end.

(** [handleSubmit]: the outcome and the state of the form after it. *)
Definition handleSubmit (initialData : option (Expense Float64)) (drawn : Drawn)
    (s : FormState) : Submission * FormState :=
  let newErrors := validateForm (formData s) in
  if negb (noErrors newErrors)
  then (Rejected,
        {| formData := formData s; errors := newErrors; isSubmitting := isSubmitting s |})
  else
    match Date_parse (form_date (formData s)) with
    | None =>
        (RangeError,
         {| formData := formData s; errors := newErrors; isSubmitting := true |})
    | Some t =>
        let expense :=
          Build_Expense (N := Float64)
            (orElse (option_map id initialData) (drawnId drawn))
            (toISOString t)
            (parseFloat (form_amount (formData s)))
            (form_category (formData s))
            (trim (form_description (formData s)))
            (orElse (option_map createdAt initialData)
               (toISOString (at_createdAt drawn)))
            (toISOString (at_updatedAt drawn)) in
        (Submitted expense,
         {| formData :=
              match initialData with
              | Some _ => formData s
              | None =>
                  {| form_date := beforeFirst "T" (toISOString (at_reset drawn));
                     form_amount := "";
                     form_category := Food;
                     form_description := "" |}
              end;
            errors := newErrors;
            isSubmitting := false |})
    end.

(** What the form asks of its input: a date, an amount that is not
    blank and reads as a number above zero, and a description of at
    least three characters once trimmed. *)
Definition accepted (data : ExpenseFormData) : Prop :=
  form_date data <> "" /\
  form_amount data <> "" /\ trim (form_amount data) <> "" /\
  PrimFloat.ltb 0%float (parseFloat (form_amount data)) = true /\
  form_description data <> "" /\
  (3 <= String.length (trim (form_description data)))%nat.

End Form.

Section PageForm.
Context {R : Runtime}.

(** [onSubmit={editingExpense ? handleUpdateExpense : handleAddExpense}] *)
Definition onSubmit (s : PageState Float64) (expense : Expense Float64)
    : JS (PageState Float64) :=
  match editingExpense s with
  | Some _ => handleUpdateExpense expense s
  | None => handleAddExpense expense s
  end.

End PageForm.

(** *** A host for the form

    A concrete [FormHost] for evaluating the form on examples:
    [parseFloat] restricted to the plain decimals of a number input
    (digits with at most one point, at most 18 of them after it, below
    2^53 when the point is dropped), where the quotient of the two
    whole numbers is the double that [parseFloat] returns; NaN stands
    for every other text.  [trim] is the one on ASCII white space. *)
Module Keyboard.

(** The digits of [s] as one integer, and how many follow the point. *)
Fixpoint decimal (s : string) (mantissa : Z) (places : option nat) : option (Z * nat) :=
  match s with
  | EmptyString =>
      Some (mantissa, match places with Some k => k | None => O end)
  | String c s' =>
      match UTC.digitOf c with
      | Some d => decimal s' (10 * mantissa + d) (option_map S places)
      | None =>
          match places with
          | None => if Ascii.eqb c "." then decimal s' mantissa (Some O) else None
          | Some _ => None
          end
      end
  end.

Definition parseDecimal (s : string) : float :=
  if String.eqb s "" || String.eqb s "." then PrimFloat.nan
  else
    match decimal s 0 None with
    | Some (m, k) =>
        if (m <? 2 ^ 53) && (k <=? 18)%nat
        then PrimFloat.div (PrimFloat.of_uint63 (Uint63.of_Z m))
               (PrimFloat.of_uint63 (Uint63.of_Z (10 ^ Z.of_nat k)))
        else PrimFloat.nan
    | None => PrimFloat.nan
    end.

Definition isSpace (c : ascii) : bool :=
  let n := nat_of_ascii c in
  (n =? 32)%nat || ((9 <=? n)%nat && (n <=? 13)%nat).

Fixpoint trimStart (s : string) : string :=
  match s with
  | EmptyString => EmptyString
  | String c s' => if isSpace c then trimStart s' else s
  end.

Fixpoint trimEnd (s : string) : string :=
  match s with
  | EmptyString => EmptyString
  | String c s' =>
      match trimEnd s' with
      | EmptyString => if isSpace c then EmptyString else String c EmptyString
      | rest => String c rest
      end
  end.

Definition host : FormHost := {|
  parseFloat := parseDecimal;
  trim := fun s => trimEnd (trimStart s)
|}.

End Keyboard.

(** *** The chart in the UTC time zone

    [new Date(year, month, day)] as the language defines it, with local
    time UTC, and the short month names of the English locale. *)
Module Almanac.

Definition fromFields (y m d : Z) : option Z :=
  let y := if (0 <=? y) && (y <=? 99) then 1900 + y else y in
  let t := (UTC.daysFromCivil (y + m / 12) (m mod 12 + 1) 1 + (d - 1)) * UTC.msPerDay in
  if Z.abs t <=? 8640000000000000 then Some t else None.

Definition shortName (t : Z) : string :=
  nth (Z.to_nat (UTC.month t - 1))
    ["Jan"; "Feb"; "Mar"; "Apr"; "May"; "Jun";
     "Jul"; "Aug"; "Sep"; "Oct"; "Nov"; "Dec"] "".

Definition host : ChartHost := {|
  Date_local := fromFields;
  monthShort := shortName
|}.

End Almanac.

(** ** More sample data *)

Module Scenes.

(** A browser whose storage holds [expenses] and takes no more. *)
Definition fullBrowser (expenses : list (Expense Float64)) (now : Z) : World Float64 :=
  {| hasWindow := true; accessDenied := false; quotaExceeded := true;
     item := Some (JSON_stringify expenses); clock := now |}.

(** A browser that refuses every access to its storage. *)
Definition lockedBrowser (expenses : list (Expense Float64)) : World Float64 :=
  {| hasWindow := true; accessDenied := true; quotaExceeded := false;
     item := Some (JSON_stringify expenses); clock := Sample.feb15 |}.

(** A new expense with an id of its own. *)
Definition taxi : Expense Float64 :=
  Sample.expense "4" "2024-02-12T00:00:00.000Z" 18.5%float Transportation "Taxi".

(** A second record of the day of [Sample.lunch], stored after it. *)
Definition snack : Expense Float64 :=
  Sample.expense "5" "2024-01-05T00:00:00.000Z" 3.25%float Food "Snack".

Definition four : list (Expense Float64) :=
  [Sample.lunch; Sample.groceries; snack; Sample.electricity].

Definition cinema : Expense Float64 :=
  Sample.expense "6" "2024-02-03T00:00:00.000Z" 24%float Entertainment "Cinema".

Definition shoes : Expense Float64 :=
  Sample.expense "7" "2024-01-15T00:00:00.000Z" 80%float Shopping "Shoes".

(** Seven records, in no order of date. *)
Definition seven : list (Expense Float64) :=
  [Sample.lunch; cinema; Sample.groceries; taxi; snack; Sample.electricity; shoes].

(** 2024-01-05, midnight UTC. *)
Definition jan5 : Z := 1704412800000.

(** The page once [expenses] are loaded, with the criteria [filters]. *)
Definition page (expenses : list (Expense Float64)) (filters : ExpenseFilters)
    : PageState Float64 :=
  {| page_expenses := expenses;
     page_filteredExpenses := filteredExpenses (R := UTC.runtime) expenses filters;
     page_filters := filters; editingExpense := None;
     isLoading := false; showForm := false |}.

(** [Sample.lunch] as the form returns it after an edit. *)
Definition dinner : Expense Float64 :=
  Build_Expense (N := Float64) "1" "2024-01-06T00:00:00.000Z" 42%float Food "Dinner"
    "2024-01-05T00:00:00.000Z" "2024-02-14T23:59:59.000Z".

(** The form as filled in for [taxi], and what the call draws. *)
Definition taxiForm : FormState :=
  {| formData := {| form_date := "2024-02-12"; form_amount := "18.50";
                    form_category := Transportation; form_description := " Taxi " |};
     errors := {| error_date := None; error_amount := None; error_description := None |};
     isSubmitting := false |}.

Definition taxiDrawn : Drawn :=
  {| drawnId := "4"; at_createdAt := Sample.feb15; at_updatedAt := Sample.feb15;
     at_reset := Sample.feb15 |}.

End Scenes.
(** * Properties *)

(** ** The host of the examples *)

Example UTC_parse_date : UTC.parse "2024-02-01" = Some 1706745600000.
Proof. reflexivity. Qed.

Example UTC_parse_instant :
  UTC.parse "2024-02-15T12:30:45.678Z" = Some 1708000245678.
Proof. reflexivity. Qed.

Example UTC_format_instant :
  UTC.format 1708000245678 = "2024-02-15T12:30:45.678Z".
Proof. reflexivity. Qed.

Example UTC_month_year :
  (UTC.month 1706745600000 - 1, UTC.year 1706745600000) = (1, 2024).
Proof. reflexivity. Qed.

Example UTC_lower : UTC.lower "Lunch At JOE's" = "lunch at joe's".
Proof. reflexivity. Qed.

(** ** The persistence adapter *)

Section StorageFacts.
Context {N : Number}.

Lemma getExpenses_run (w : World N) :
  exists v, getExpenses w = (Normal v, w).
Proof.
  unfold getExpenses, bind, windowIsUndefined, tryCatch, localStorage_getItem, ret.
  destruct (hasWindow w); simpl; [ | eauto ].
  destruct (accessDenied w); simpl; [ eauto | ].
  destruct (item w) as [ [ | | v ] | ]; simpl; eauto.
Qed.

Lemma getExpensesTyped_world (w : World N) :
  snd (getExpensesTyped w) = w.
Proof.
  unfold getExpensesTyped, bind.
  destruct (getExpenses_run w) as [v ->].
  unfold typed. destruct (asExpenses v); reflexivity.
Qed.

Lemma stored_run (w : World N) (l : list (Expense N)) :
  stored w l -> getExpensesTyped w = (Normal l, w).
Proof.
  unfold stored. intros H.
  rewrite (surjective_pairing (getExpensesTyped w)), H, getExpensesTyped_world.
  reflexivity.
Qed.

Lemma saveExpenses_normal (l : list (Expense N)) (w : World N) :
  fst (saveExpenses l w) = Normal tt.
Proof.
  unfold saveExpenses, bind, windowIsUndefined, tryCatch, localStorage_setItem, ret.
  destruct (hasWindow w); simpl; [ | reflexivity ].
  destruct (accessDenied w); simpl; [ reflexivity | ].
  destruct (quotaExceeded w); reflexivity.
Qed.

Lemma saveExpenses_item (l : list (Expense N)) (w : World N) :
  writable w = true ->
  snd (saveExpenses l w) = withItem w (Some (JSON_stringify l)).
Proof.
  unfold writable, saveExpenses, bind, windowIsUndefined, tryCatch,
    localStorage_setItem, ret.
  destruct (hasWindow w); simpl; [ | discriminate ].
  destruct (accessDenied w); simpl; [ discriminate | ].
  destruct (quotaExceeded w); simpl; [ discriminate | reflexivity ].
Qed.

Lemma categoryOfName_categoryName (c : ExpenseCategory) :
  categoryOfName (categoryName c) = Some c.
Proof. destruct c; reflexivity. Qed.

Lemma asExpense_expenseToJSON (e : Expense N) :
  jsonNumber (amount e) = Some (amount e) ->
  asExpense (expenseToJSON e) = Some e.
Proof.
  intros H. unfold expenseToJSON, numberToJSON. rewrite H.
  cbn [asExpense expenseKeys sameKeys String.eqb Ascii.eqb Bool.eqb andb].
  rewrite categoryOfName_categoryName. destruct e; reflexivity.
Qed.

Lemma asExpenses_toJSON (l : list (Expense N)) :
  serialisable l -> asExpenses (toJSON l) = Some l.
Proof.
  unfold serialisable, toJSON, asExpenses.
  induction 1 as [ | e l He _ IH ]; cbn [map asExpenseList]; [ reflexivity | ].
  rewrite (asExpense_expenseToJSON e He), IH. reflexivity.
Qed.

(** After a write that goes through, the store holds what was saved. *)
Lemma stored_after_save (l : list (Expense N)) (w : World N) :
  writable w = true -> serialisable l ->
  stored (snd (saveExpenses l w)) l.
Proof.
  intros Hw Hl. rewrite (saveExpenses_item l w Hw).
  unfold writable in Hw.
  destruct (hasWindow w) eqn:E1, (accessDenied w) eqn:E2; try discriminate.
  unfold stored, getExpensesTyped, getExpenses, bind, windowIsUndefined, tryCatch,
    localStorage_getItem, ret, withItem; simpl.
  rewrite E1, E2; simpl.
  unfold typed. rewrite (asExpenses_toJSON l Hl). reflexivity.
Qed.

Lemma filter_Subsequence {A : Type} (p : A -> bool) (l : list A) :
  Subsequence (filter p l) l.
Proof.
  induction l as [ | a l IH ]; simpl.
  - constructor.
  - destruct (p a); constructor; exact IH.
Qed.

Lemma filter_all {A : Type} (p : A -> bool) (l : list A) :
  (forall a, In a l -> p a = true) -> filter p l = l.
Proof.
  induction l as [ | a l IH ]; simpl; intros H; [ reflexivity | ].
  rewrite (H a (or_introl eq_refl)). f_equal. apply IH.
  intros b Hb. apply H. right. exact Hb.
Qed.

End StorageFacts.

Section StorageClaims.
Context {N : Number} {R : Runtime}.

Lemma saveExpenses_after (l : list (Expense N)) (w : World N) (k : JS (list (Expense N))) :
  (saveExpenses l ;;; k) w = k (snd (saveExpenses l w)).
Proof.
  unfold bind at 1.
  rewrite (surjective_pairing (saveExpenses l w)), saveExpenses_normal.
  reflexivity.
Qed.

Lemma deleteExpense_run (w : World N) (l : list (Expense N)) (id0 : string) :
  stored w l ->
  let l' := filter (fun e => negb (String.eqb (id e) id0)) l in
  deleteExpense id0 w = (Normal l', snd (saveExpenses l' w)).
Proof.
  intros H l'. unfold deleteExpense, bind at 1.
  rewrite (stored_run w l H). rewrite saveExpenses_after. reflexivity.
Qed.

Lemma addExpense_run (w : World N) (l : list (Expense N)) (e : Expense N) :
  stored w l ->
  addExpense e w = (Normal (l ++ [e]), snd (saveExpenses (l ++ [e]) w)).
Proof.
  intros H. unfold addExpense, bind at 1.
  rewrite (stored_run w l H). rewrite saveExpenses_after. reflexivity.
Qed.

Lemma updateExpense_run (w : World N) (l : list (Expense N)) (id0 : string)
    (p : PartialExpense N) :
  stored w l ->
  let l' := map (fun e => if String.eqb (id e) id0
                          then spread e p (toISOString (clock w)) else e) l in
  updateExpense id0 p w = (Normal l', snd (saveExpenses l' w)).
Proof.
  intros H l'. unfold updateExpense, bind at 1.
  rewrite (stored_run w l H). unfold bind at 1, nowISOString.
  rewrite saveExpenses_after. reflexivity.
Qed.

Lemma serialisable_filter (p : Expense N -> bool) (l : list (Expense N)) :
  serialisable l -> serialisable (filter p l).
Proof.
  unfold serialisable. rewrite !Forall_forall. intros H e He.
  apply filter_In in He. apply H, He.
Qed.

(** C9. [deleteExpense id0] returns the stored list without the records
    whose id is [id0], the others in their order, and hands that list to
    [saveExpenses]; when no record has the id the list comes back as it
    was; when the write goes through, the store holds the new list. *)
Theorem deleteExpense_removes (w : World N) (l : list (Expense N)) (id0 : string) :
  stored w l ->
  exists l',
    deleteExpense id0 w = (Normal l', snd (saveExpenses l' w)) /\
    l' = filter (fun e => negb (String.eqb (id e) id0)) l /\
    (forall e, In e l' <-> In e l /\ id e <> id0) /\
    Subsequence l' l /\
    ((forall e, In e l -> id e <> id0) -> l' = l) /\
    (writable w = true -> serialisable l -> stored (snd (deleteExpense id0 w)) l').
Proof.
  intros H.
  exists (filter (fun e => negb (String.eqb (id e) id0)) l).
  pose proof (deleteExpense_run w l id0 H) as Hrun. cbv zeta in Hrun.
  split; [ exact Hrun | ]. split; [ reflexivity | ].
  split; [ | split; [ | split ] ].
  - intros e. rewrite filter_In, negb_true_iff.
    split; intros [Hin Hid]; split; try exact Hin.
    + intros E. apply String.eqb_eq in E. congruence.
    + apply String.eqb_neq. exact Hid.
  - apply filter_Subsequence.
  - intros Hno. apply filter_all. intros e He.
    apply negb_true_iff, String.eqb_neq, Hno, He.
  - intros Hw Hs. rewrite Hrun. cbn [snd].
    apply stored_after_save; [ exact Hw | apply serialisable_filter, Hs ].
Qed.

End StorageClaims.

Lemma deleteExpense_removes_witness :
  stored (Sample.browser Sample.three Sample.feb15) Sample.three /\
  fst (deleteExpense "2" (Sample.browser Sample.three Sample.feb15))
  = Normal [Sample.lunch; Sample.electricity].
Proof.
  assert (H : stored (Sample.browser Sample.three Sample.feb15) Sample.three)
    by (vm_compute; reflexivity).
  split; [ exact H | ].
  destruct (deleteExpense_removes (Sample.browser Sample.three Sample.feb15)
              Sample.three "2" H) as [l' [Hrun [Hl' _]]].
  rewrite Hrun, Hl'. reflexivity.
Defined.

Section UpdateClaims.
Context {N : Number} {R : Runtime}.

Lemma spread_updatedFrom (e : Expense N) (p : PartialExpense N) (now : string) :
  updatedFrom p now e (spread e p now).
Proof.
  unfold updatedFrom, merged, spread; cbn.
  destruct (p_id p), (p_date p), (p_amount p), (p_category p),
    (p_description p), (p_createdAt p); repeat split.
Qed.

Lemma map_unchanged {A : Type} (f : A -> A) (l : list A) :
  (forall a, In a l -> f a = a) -> map f l = l.
Proof.
  induction l as [ | a l IH ]; cbn; intros H; [ reflexivity | ].
  rewrite (H a (or_introl eq_refl)). f_equal. apply IH.
  intros b Hb. apply H. right. exact Hb.
Qed.

(** C2. [updateExpense id0 p] rewrites the records whose id is [id0] and
    no other: on such a record every property that [p] carries takes the
    value of [p], [updatedAt] takes the current time, and every other
    property stays; so [id] and [createdAt] stay whenever [p] does not
    carry them.  Records with another id are returned as they were, and
    when no record has the id the list comes back unchanged. *)
Theorem updateExpense_frame (w : World N) (l : list (Expense N)) (id0 : string)
    (p : PartialExpense N) :
  stored w l ->
  exists l',
    updateExpense id0 p w = (Normal l', snd (saveExpenses l' w)) /\
    Forall2 (fun e e' =>
               if String.eqb (id e) id0
               then updatedFrom p (toISOString (clock w)) e e'
               else e' = e) l l' /\
    (p_id p = None -> map id l' = map id l) /\
    (p_createdAt p = None -> map createdAt l' = map createdAt l) /\
    ((forall e, In e l -> id e <> id0) -> l' = l).
Proof.
  intros H.
  pose proof (updateExpense_run w l id0 p H) as Hrun. cbv zeta in Hrun.
  eexists. split; [ exact Hrun | ].
  split; [ | split; [ | split ] ].
  - clear. induction l as [ | e l IH ]; cbn; constructor; [ | exact IH ].
    destruct (String.eqb (id e) id0); [ apply spread_updatedFrom | reflexivity ].
  - intros Hp. rewrite map_map. apply map_ext. intros e.
    destruct (String.eqb (id e) id0); [ | reflexivity ].
    cbn. rewrite Hp. reflexivity.
  - intros Hp. rewrite map_map. apply map_ext. intros e.
    destruct (String.eqb (id e) id0); [ | reflexivity ].
    cbn. rewrite Hp. reflexivity.
  - intros Hno. apply map_unchanged. intros e He.
    destruct (String.eqb_spec (id e) id0) as [E | _]; [ | reflexivity ].
    destruct (Hno e He E).
Qed.

End UpdateClaims.

Lemma updateExpense_frame_witness :
  stored (Sample.browser Sample.three Sample.feb15) Sample.three /\
  exists l',
    fst (updateExpense (R := UTC.runtime) "1" Sample.brunch
           (Sample.browser Sample.three Sample.feb15)) = Normal l' /\
    map id l' = ["1"; "2"; "3"] /\
    map createdAt l' = map createdAt Sample.three.
Proof.
  assert (H : stored (Sample.browser Sample.three Sample.feb15) Sample.three)
    by (vm_compute; reflexivity).
  split; [ exact H | ].
  destruct (updateExpense_frame (R := UTC.runtime)
              (Sample.browser Sample.three Sample.feb15) Sample.three "1"
              Sample.brunch H) as [l' [Hrun [_ [Hid [Hcreated _]]]]].
  exists l'. rewrite Hrun. split; [ reflexivity | ].
  split; [ exact (Hid eq_refl) | exact (Hcreated eq_refl) ].
Defined.

(** C2, as stated, fails: a partial record may carry [id] and
    [createdAt], and the update then writes them over the stored ones. *)
Lemma updateExpense_overwrites_id :
  stored (Sample.browser Sample.three Sample.feb15) Sample.three /\
  exists e',
    fst (updateExpense (R := UTC.runtime) "1" Sample.renumber
           (Sample.browser Sample.three Sample.feb15))
    = Normal [e'; Sample.groceries; Sample.electricity] /\
    id e' = "9" /\ id Sample.lunch = "1" /\
    createdAt e' = "2000-01-01T00:00:00.000Z" /\
    createdAt Sample.lunch = "2024-01-05T00:00:00.000Z".
Proof.
  split; [ vm_compute; reflexivity | ].
  eexists. split; [ vm_compute; reflexivity | ].
  repeat split.
Qed.

Section UniqueIds.
Context {N : Number} {R : Runtime}.

Lemma uniqueIds_filter (keep : Expense N -> bool) (expenses : list (Expense N)) :
  uniqueIds expenses -> uniqueIds (filter keep expenses).
Proof.
  unfold uniqueIds.
  induction expenses as [ | e rest IH ]; cbn; intros H; [ constructor | ].
  apply NoDup_cons_iff in H. destruct H as [Hfresh Hrest].
  destruct (keep e); cbn; [ | apply IH, Hrest ].
  constructor; [ | apply IH, Hrest ].
  intros Hin. apply Hfresh. apply in_map_iff in Hin.
  destruct Hin as [e' [Eid He']]. apply filter_In in He'.
  apply in_map_iff. exists e'. split; [ exact Eid | apply He' ].
Qed.

Lemma NoDup_snoc {A : Type} (l : list A) (a : A) :
  NoDup (l ++ [a]) <-> ~ In a l /\ NoDup l.
Proof.
  rewrite <- NoDup_cons_iff. split; intros H.
  - apply (Permutation_NoDup (l := l ++ [a])); [ | exact H ].
    apply Permutation_sym, Permutation_cons_append.
  - apply (Permutation_NoDup (l := a :: l)); [ | exact H ].
    apply Permutation_cons_append.
Qed.

(** The ids after an update: the given id where the record matched. *)
Lemma updated_ids (l : list (Expense N)) (id0 now : string) (p : PartialExpense N) :
  map id (map (fun e => if String.eqb (id e) id0 then spread e p now else e) l)
  = map (fun i => if String.eqb i id0
                  then match p_id p with Some v => v | None => i end
                  else i) (map id l).
Proof.
  rewrite !map_map. apply map_ext. intros e.
  destruct (String.eqb (id e) id0); reflexivity.
Qed.

(** C4. Starting from a store whose ids are pairwise distinct:
    [deleteExpense] always returns distinct ids; [addExpense] does
    exactly when the id of the new expense is not yet in the store;
    [updateExpense] does when the partial record carries no id, the id
    it is applied to, or an id that no stored record has. *)
Theorem uniqueIds_preserved (w : World N) (l : list (Expense N)) :
  stored w l -> uniqueIds l ->
  (forall id0, exists l',
      fst (deleteExpense id0 w) = Normal l' /\ uniqueIds l') /\
  (forall e, exists l',
      fst (addExpense e w) = Normal l' /\
      (uniqueIds l' <-> ~ In (id e) (map id l))) /\
  (forall id0 p, exists l',
      fst (updateExpense id0 p w) = Normal l' /\
      (match p_id p with
       | None => True
       | Some v => v = id0 \/ ~ In v (map id l)
       end -> uniqueIds l')).
Proof.
  intros H Hu. unfold uniqueIds in *. split; [ | split ].
  - intros id0. eexists. rewrite (deleteExpense_run w l id0 H). cbn [fst].
    split; [ reflexivity | ]. apply uniqueIds_filter, Hu.
  - intros e. eexists. rewrite (addExpense_run w l e H). cbn [fst].
    split; [ reflexivity | ].
    rewrite map_app. cbn [map]. rewrite NoDup_snoc. tauto.
  - intros id0 p. eexists. rewrite (updateExpense_run w l id0 p H). cbn [fst].
    split; [ reflexivity | ]. intros Hp.
    rewrite updated_ids. apply NoDup_map_NoDup_ForallPairs; [ | exact Hu ].
    intros i j Hi Hj.
    destruct (String.eqb_spec i id0) as [Ei | Ni],
             (String.eqb_spec j id0) as [Ej | Nj]; try congruence.
    + destruct (p_id p) as [v | ]; [ | congruence ].
      intros E. subst j. destruct Hp as [Hp | Hp]; [ congruence | ].
      destruct (Hp Hj).
    + destruct (p_id p) as [v | ]; [ | congruence ].
      intros E. subst i. destruct Hp as [Hp | Hp]; [ congruence | ].
      destruct (Hp Hi).
Qed.

End UniqueIds.

Lemma uniqueIds_preserved_witness :
  stored (Sample.browser Sample.three Sample.feb15) Sample.three /\
  uniqueIds Sample.three /\
  exists l',
    fst (deleteExpense "2" (Sample.browser Sample.three Sample.feb15)) = Normal l' /\
    uniqueIds l'.
Proof.
  assert (H : stored (Sample.browser Sample.three Sample.feb15) Sample.three)
    by (vm_compute; reflexivity).
  assert (U : uniqueIds Sample.three).
  { unfold uniqueIds. cbn. repeat constructor; cbn; intuition discriminate. }
  split; [ exact H | ]. split; [ exact U | ].
  exact (proj1 (uniqueIds_preserved (R := UTC.runtime)
                  (Sample.browser Sample.three Sample.feb15) Sample.three H U) "2").
Defined.

(** C4, as stated, fails: [addExpense] appends whatever id the new
    expense has, and [updateExpense] writes whatever id the partial
    record carries. *)
Lemma addExpense_duplicates_id :
  stored (Sample.browser Sample.three Sample.feb15) Sample.three /\
  uniqueIds Sample.three /\
  (exists l',
      fst (addExpense Sample.coffee (Sample.browser Sample.three Sample.feb15))
      = Normal l' /\
      map id l' = ["1"; "2"; "3"; "1"] /\ ~ uniqueIds l') /\
  (exists l',
      fst (updateExpense (R := UTC.runtime) "2"
             (Build_PartialExpense (N := Float64) (Some "3") None None None None None None)
             (Sample.browser Sample.three Sample.feb15))
      = Normal l' /\
      map id l' = ["1"; "3"; "3"] /\ ~ uniqueIds l').
Proof.
  split; [ vm_compute; reflexivity | ].
  split; [ unfold uniqueIds; cbn; repeat constructor; cbn; intuition discriminate | ].
  split.
  - eexists. split; [ vm_compute; reflexivity | ].
    split; [ reflexivity | ].
    unfold uniqueIds. cbn. intros D. apply NoDup_cons_iff in D.
    apply (proj1 D). cbn. auto.
  - eexists. split; [ vm_compute; reflexivity | ].
    split; [ reflexivity | ].
    unfold uniqueIds. cbn. intros D.
    apply NoDup_cons_iff in D. destruct D as [_ D].
    apply NoDup_cons_iff in D. apply (proj1 D). cbn. auto.
Qed.

Section LoadClaims.
Context {N : Number}.

(** C10. [getExpenses] never raises and leaves the world as it was.  It
    returns the empty list when there is no window, when the storage
    cannot be read, when nothing or the empty text is stored, and when
    the stored text does not parse; when the text parses, it returns the
    parsed value as it is, which is the saved list for a text that
    [saveExpenses] wrote. *)
Theorem getExpenses_never_throws (w : World N) :
  exists v,
    getExpenses w = (Normal v, w) /\
    (hasWindow w = false -> v = JArray []) /\
    (accessDenied w = true -> v = JArray []) /\
    (item w = None \/ item w = Some EmptyText \/ item w = Some Malformed ->
     v = JArray []) /\
    (forall v', hasWindow w = true -> accessDenied w = false ->
                item w = Some (JsonText v') -> v = v') /\
    (forall l, hasWindow w = true -> accessDenied w = false ->
               item w = Some (JSON_stringify l) -> v = toJSON l).
Proof.
  unfold getExpenses, bind, windowIsUndefined, tryCatch, localStorage_getItem, ret,
    JSON_stringify.
  destruct (hasWindow w); cbn.
  2: { eexists. split; [ reflexivity | ]. repeat split; intros; congruence. }
  destruct (accessDenied w); cbn.
  1: { eexists. split; [ reflexivity | ]. repeat split; intros; congruence. }
  destruct (item w) as [ [ | | v ] | ]; cbn;
    (eexists; split; [ reflexivity | ];
     repeat split; intros; try reflexivity; try congruence;
     try (repeat match goal with H : _ \/ _ |- _ => destruct H end; congruence)).
Qed.

End LoadClaims.

(** C10, as stated, fails: a stored text that parses to something other
    than an array is returned as it is, and is no list. *)
Lemma getExpenses_returns_null :
  getExpenses Sample.nullBrowser = (Normal JNull, Sample.nullBrowser) /\
  ~ (exists vs, fst (getExpenses Sample.nullBrowser) = Normal (JArray vs)) /\
  asExpenses (N := Float64) JNull = None.
Proof.
  split; [ reflexivity | ]. split; [ | reflexivity ].
  intros [vs E]. cbn in E. discriminate E.
Qed.

(** ** The CSV export *)

Lemma append_assoc (s t u : string) : ((s ++ t) ++ u)%string = (s ++ t ++ u)%string.
Proof. induction s as [ | c s IH ]; cbn; [ reflexivity | rewrite IH; reflexivity ]. Qed.

Lemma join_snoc (sep first last : string) (middle : list string) :
  join sep (first :: middle ++ [last])
  = (join sep (first :: middle) ++ sep ++ last)%string.
Proof. unfold join. rewrite fold_left_app. reflexivity. Qed.

Lemma replaceQuotes_app (s t : string) :
  replaceQuotes (s ++ t) = (replaceQuotes s ++ replaceQuotes t)%string.
Proof.
  induction s as [ | c s IH ]; cbn; [ reflexivity | ].
  destruct (Ascii.eqb c doubleQuote); cbn; rewrite IH; reflexivity.
Qed.

Section CsvClaims.
Context {N : Number} {F : NumberFormat N}.

(** C5. The CSV text is the header row [Date,Category,Amount,Description]
    followed by one row per expense in the order of the list, each row
    after a single line feed and nothing after the last row; a row is
    the date, the category, the amount as the number prints, and the
    description between double quotes with every double quote in it
    doubled.  For the description [Sample.joes], Lunch at, Joe's between
    double quotes, a comma and downtown, the field is the same text
    with each of its two double quotes written twice, between double
    quotes. *)
Theorem csvContent_shape :
  csvContent [] = "Date,Category,Amount,Description" /\
  (forall l e,
      csvContent (l ++ [e])
      = (csvContent l ++ String lineFeed EmptyString ++ csvRow e)%string) /\
  (forall e,
      csvRow e
      = (date e ++ "," ++ categoryName (category e) ++ ","
         ++ Number_toString (amount e) ++ ","
         ++ String doubleQuote (replaceQuotes (description e))
         ++ String doubleQuote EmptyString)%string) /\
  (forall s t, replaceQuotes (s ++ t) = (replaceQuotes s ++ replaceQuotes t)%string) /\
  (forall c,
      replaceQuotes (String c EmptyString)
      = if Ascii.eqb c doubleQuote
        then String doubleQuote (String doubleQuote EmptyString)
        else String c EmptyString) /\
  (String doubleQuote (replaceQuotes Sample.joes) ++ String doubleQuote EmptyString)%string
  = ((String doubleQuote "Lunch at " ++ String doubleQuote (String doubleQuote "Joe's"))
     ++ String doubleQuote (String doubleQuote ", downtown")
     ++ String doubleQuote EmptyString)%string.
Proof.
  split; [ reflexivity | ].
  split.
  { intros l e. unfold csvContent. rewrite map_app. cbn [map].
    apply join_snoc. }
  split.
  { intros e. unfold csvRow, join. cbn [fold_left].
    rewrite !append_assoc. reflexivity. }
  split; [ exact replaceQuotes_app | ].
  split; [ intros c; cbn; destruct (Ascii.eqb c doubleQuote); reflexivity | ].
  reflexivity.
Qed.

End CsvClaims.

(** ** The summary *)

Section SummaryClaims.
Context {N : Number} {R : Runtime}.

Lemma sumWhere_filter (keep : Expense N -> bool) (l : list (Expense N)) (sum : num) :
  fold_left (fun sum e => plus sum (amount e)) (filter keep l) sum
  = sumWhere keep l sum.
Proof.
  revert sum. induction l as [ | e l IH ]; intros sum; cbn; [ reflexivity | ].
  destruct (keep e); cbn; apply IH.
Qed.

Lemma inMonth_sameMonthAndYear (now : Z) (e : Expense N) :
  inMonth (getMonth now) (getFullYear now) e = true <-> sameMonthAndYear now e.
Proof.
  unfold inMonth, sameMonthAndYear.
  destruct (Date_parse (date e)) as [t | ].
  - rewrite andb_true_iff, !Z.eqb_eq. split.
    + intros [Hm Hy]. exists t. auto.
    + intros [t' [E [Hm Hy]]]. injection E as <-. auto.
  - split; [ discriminate | ]. intros [t [E _]]. discriminate E.
Qed.

(** C1. [calculateSummary] takes the list alone and reads the reference
    time from the clock.  Its monthly total is the sum of [amount] over
    exactly the records whose date has the calendar month and year of
    that clock reading, and the whole summary depends on the world only
    through the month and the year the clock shows. *)
Theorem monthlyTotal_of_clock_month (w : World N) (l : list (Expense N)) :
  monthlyTotal (calculateSummary w l)
  = sumWhere (inMonth (getMonth (clock w)) (getFullYear (clock w))) l zero /\
  (forall e, inMonth (getMonth (clock w)) (getFullYear (clock w)) e = true
             <-> sameMonthAndYear (clock w) e) /\
  (forall w', getMonth (clock w') = getMonth (clock w) ->
              getFullYear (clock w') = getFullYear (clock w) ->
              calculateSummary w' l = calculateSummary w l).
Proof.
  split; [ | split ].
  - unfold calculateSummary. cbn [monthlyTotal]. apply sumWhere_filter.
  - intros e. apply inMonth_sameMonthAndYear.
  - intros w' Hm Hy. unfold calculateSummary. rewrite Hm, Hy. reflexivity.
Qed.

End SummaryClaims.

(** C1, as stated, fails: the reference time is no parameter.  The same
    list gives another monthly total when the clock shows another month. *)
Lemma calculateSummary_depends_on_clock :
  monthlyTotal (calculateSummary (R := UTC.runtime)
                  (Sample.browser Sample.three Sample.feb15) Sample.three) = 50%float /\
  monthlyTotal (calculateSummary (R := UTC.runtime)
                  (Sample.browser Sample.three Sample.mar15) Sample.three) = 0%float /\
  calculateSummary (R := UTC.runtime)
    (Sample.browser Sample.three Sample.feb15) Sample.three
  <> calculateSummary (R := UTC.runtime)
       (Sample.browser Sample.three Sample.mar15) Sample.three.
Proof.
  split; [ vm_compute; reflexivity | ].
  split; [ vm_compute; reflexivity | ].
  intros E.
  apply (f_equal (fun s : ExpenseSummary Float64 =>
                    PrimFloat.eqb (monthlyTotal s : float) 50%float)) in E.
  vm_compute in E. discriminate E.
Qed.

Section BucketKeys.
Context {N : Number}.

Lemma addToCategory_keys (t : CategoryTotals) (e : Expense N) :
  map fst (addToCategory t e) = map fst t.
Proof.
  unfold addToCategory. rewrite map_map. apply map_ext. intros [c v]. cbn.
  destruct (category_eqb c (category e)); reflexivity.
Qed.

Lemma categoryTotals_keys (l : list (Expense N)) (t : CategoryTotals) :
  map fst (fold_left addToCategory l t) = map fst t.
Proof.
  revert t. induction l as [ | e l IH ]; intros t; cbn; [ reflexivity | ].
  rewrite IH. apply addToCategory_keys.
Qed.

End BucketKeys.

Section Buckets.
Context {N : Number} {R : Runtime}.

Lemma totalOf_addToCategory (t : CategoryTotals) (e : Expense N) (c : ExpenseCategory) :
  map fst t = [Food; Transportation; Entertainment; Shopping; Bills; Other] ->
  totalOf (addToCategory t e) c
  = if category_eqb (category e) c then plus (totalOf t c) (amount e) else totalOf t c.
Proof.
  intros H.
  do 7 (destruct t as [ | [? ?] t ]; try discriminate H).
  cbn in H. injection H as -> -> -> -> -> ->.
  unfold addToCategory, totalOf. cbn [map fst snd].
  destruct (category e), c; reflexivity.
Qed.

Lemma totalOf_fold (l : list (Expense N)) (t : CategoryTotals) (c : ExpenseCategory) :
  map fst t = [Food; Transportation; Entertainment; Shopping; Bills; Other] ->
  totalOf (fold_left addToCategory l t) c
  = fold_left (fun sum e => plus sum (amount e))
      (filter (fun e => category_eqb (category e) c) l) (totalOf t c).
Proof.
  revert t. induction l as [ | e l IH ]; intros t Hk; cbn [fold_left filter];
    [ reflexivity | ].
  rewrite IH by (rewrite addToCategory_keys; exact Hk).
  rewrite (totalOf_addToCategory t e c Hk).
  destruct (category_eqb (category e) c); reflexivity.
Qed.

End Buckets.

(** C6, as stated, fails on doubles: with 0.2 and 0.3 under Food and 0.1
    under Bills the grand total is (0.2 + 0.1) + 0.3, the buckets add up
    to (0.2 + 0.3) + 0.1, and the two differ in the last bit. *)
Lemma categoryTotals_sum_rounds :
  totalExpenses (calculateSummary (R := UTC.runtime)
                   (Sample.browser Sample.dimes Sample.feb15) Sample.dimes)
  = 0.6000000000000001%float /\
  sumOfTotals (categoryTotals (calculateSummary (R := UTC.runtime)
                                 (Sample.browser Sample.dimes Sample.feb15) Sample.dimes))
  = 0.6%float /\
  sumOfTotals (categoryTotals (calculateSummary (R := UTC.runtime)
                                 (Sample.browser Sample.dimes Sample.feb15) Sample.dimes))
  <> totalExpenses (calculateSummary (R := UTC.runtime)
                      (Sample.browser Sample.dimes Sample.feb15) Sample.dimes).
Proof.
  split; [ vm_compute; reflexivity | ].
  split; [ vm_compute; reflexivity | ].
  intros E.
  apply (f_equal (fun a : float => PrimFloat.eqb a 0.6%float)) in E.
  vm_compute in E. discriminate E.
Qed.

(** ** Doubles that are not negative *)

Lemma shr_1_nonneg (mrs : shr_record) : 0 <= shr_m mrs -> 0 <= shr_m (shr_1 mrs).
Proof.
  destruct mrs as [m r s]. cbn.
  destruct m as [ | [p | p | ] | [p | p | ] ]; cbn; lia.
Qed.

Lemma iter_pos_shr_1_nonneg (p : positive) (mrs : shr_record) :
  0 <= shr_m mrs -> 0 <= shr_m (iter_pos shr_1 p mrs).
Proof.
  revert mrs. induction p as [p IH | p IH | ]; intros mrs H; cbn.
  - apply IH, IH, shr_1_nonneg, H.
  - apply IH, IH, H.
  - apply shr_1_nonneg, H.
Qed.

Lemma shr_fexp_nonneg (prec emax m e : Z) (l : location) :
  0 <= m -> 0 <= shr_m (fst (shr_fexp prec emax m e l)).
Proof.
  intros H. unfold shr_fexp, shr.
  assert (H0 : 0 <= shr_m (shr_record_of_loc m l))
    by (destruct l as [ | [ | | ] ]; exact H).
  destruct (fexp prec emax (Zdigits2 m + e) - e) as [ | p | p ]; cbn [fst];
    [ exact H0 | apply iter_pos_shr_1_nonneg, H0 | exact H0 ].
Qed.

Lemma round_nearest_even_nonneg (m : Z) (l : location) :
  0 <= m -> 0 <= round_nearest_even m l.
Proof.
  intros H. unfold round_nearest_even.
  destruct l as [ | [ | | ] ]; try destruct (Z.even m); lia.
Qed.

Lemma binary_round_aux_nonneg (prec emax m e : Z) (l : location) :
  0 <= m -> specNonneg (binary_round_aux prec emax false m e l).
Proof.
  intros H. unfold binary_round_aux.
  pose proof (shr_fexp_nonneg prec emax m e l H) as H1.
  destruct (shr_fexp prec emax m e l) as [mrs' e']. cbn [fst] in H1.
  pose proof (shr_fexp_nonneg prec emax _ e' loc_Exact
                (round_nearest_even_nonneg _ (loc_of_shr_record mrs') H1)) as H2.
  destruct (shr_fexp prec emax (round_nearest_even (shr_m mrs') (loc_of_shr_record mrs'))
              e' loc_Exact) as [mrs'' e'']. cbn [fst] in H2.
  destruct (shr_m mrs'') as [ | p | p ]; [ exact I | | lia ].
  destruct (e'' <=? emax - prec); exact I.
Qed.

Lemma SFadd_nonneg (prec emax : Z) (x y : spec_float) :
  specNonneg x -> specNonneg y -> specNonneg (SFadd prec emax x y).
Proof.
  destruct x as [ [ | ] | [ | ] | | [ | ] mx ex ]; cbn; try contradiction;
  destruct y as [ [ | ] | [ | ] | | [ | ] my ey ]; cbn; try contradiction; try exact (fun _ _ => I).
  intros _ _. unfold binary_normalize. cbn [cond_Zopp].
  unfold binary_round.
  destruct (shl_align _ _ _) as [mz ez].
  apply binary_round_aux_nonneg. lia.
Qed.

Ltac sf_cases :=
  repeat match goal with
    | |- context [Z.compare ?a ?b] => destruct (Z.compare_spec a b); subst
    | H : context [Z.compare ?a ?b] |- _ => destruct (Z.compare_spec a b); subst
    | |- context [Pos.compare_cont Eq ?a ?b] =>
        change (Pos.compare_cont Eq a b) with (Pos.compare a b);
        destruct (Pos.compare_spec a b); subst
    | H : context [Pos.compare_cont Eq ?a ?b] |- _ =>
        change (Pos.compare_cont Eq a b) with (Pos.compare a b) in H;
        destruct (Pos.compare_spec a b); subst
    end;
  try reflexivity; try discriminate; try contradiction; try lia.

Lemma SFltb_trans (a b c : spec_float) :
  specNonneg a -> specNonneg b -> specNonneg c ->
  SFltb a b = true -> SFltb b c = true -> SFltb a c = true.
Proof.
  unfold SFltb, SFcompare.
  destruct a as [ [ | ] | [ | ] | | [ | ] ma ea ]; cbn; try contradiction;
  destruct b as [ [ | ] | [ | ] | | [ | ] mb eb ]; cbn; try contradiction;
  destruct c as [ [ | ] | [ | ] | | [ | ] mc ec ]; cbn; try contradiction;
  intros _ _ _; try discriminate; try reflexivity; sf_cases.
Qed.

Lemma SFltb_irrefl (a : spec_float) : SFltb a a = false.
Proof.
  unfold SFltb, SFcompare.
  destruct a as [ [ | ] | [ | ] | | [ | ] ma ea ]; try reflexivity;
    rewrite Z.compare_refl; change (Pos.compare_cont Eq ma ma) with (Pos.compare ma ma);
    rewrite Pos.compare_refl; reflexivity.
Qed.

(** Two values neither of which is below the other are the same. *)
Lemma SFltb_total (a b : spec_float) :
  specNonneg a -> specNonneg b ->
  SFltb a b = false -> SFltb b a = false -> a = b.
Proof.
  unfold SFltb, SFcompare.
  destruct a as [ [ | ] | [ | ] | | [ | ] ma ea ]; cbn; try contradiction;
  destruct b as [ [ | ] | [ | ] | | [ | ] mb eb ]; cbn; try contradiction;
  intros _ _; try discriminate; try reflexivity; sf_cases.
Qed.

Lemma SFleb_ltb (a b : spec_float) :
  specNonneg a -> specNonneg b -> SFleb a b = negb (SFltb b a).
Proof.
  unfold SFleb, SFltb, SFcompare.
  destruct a as [ [ | ] | [ | ] | | [ | ] ma ea ]; cbn; try contradiction;
  destruct b as [ [ | ] | [ | ] | | [ | ] mb eb ]; cbn; try contradiction;
  intros _ _; try reflexivity; sf_cases.
Qed.

Lemma SFltb_zero_nonneg (a : spec_float) :
  SFltb (S754_zero false) a = true -> specNonneg a.
Proof.
  unfold SFltb, SFcompare.
  destruct a as [ [ | ] | [ | ] | | [ | ] ma ea ]; cbn; try discriminate; exact (fun _ => I).
Qed.

Lemma SFltb_zero_false (a : spec_float) :
  specNonneg a -> SFltb (S754_zero false) a = false -> a = S754_zero false.
Proof.
  unfold SFltb, SFcompare.
  destruct a as [ [ | ] | [ | ] | | [ | ] ma ea ]; cbn; try contradiction;
    intros _; try discriminate; reflexivity.
Qed.


Lemma Prim2SF_zero : Prim2SF 0%float = S754_zero false.
Proof. reflexivity. Qed.

Lemma nonneg_zero : nonneg 0%float.
Proof. unfold nonneg. rewrite Prim2SF_zero. exact I. Qed.

Lemma nonneg_add (x y : float) : nonneg x -> nonneg y -> nonneg (PrimFloat.add x y).
Proof. unfold nonneg. rewrite add_spec. apply SFadd_nonneg. Qed.

Lemma positive_nonneg (x : float) : PrimFloat.ltb 0%float x = true -> nonneg x.
Proof.
  rewrite ltb_spec, Prim2SF_zero. apply SFltb_zero_nonneg.
Qed.

Lemma ltb_trans (x y z : float) :
  nonneg x -> nonneg y -> nonneg z ->
  PrimFloat.ltb x y = true -> PrimFloat.ltb y z = true -> PrimFloat.ltb x z = true.
Proof. rewrite !ltb_spec. apply SFltb_trans. Qed.

Lemma ltb_irrefl (x : float) : PrimFloat.ltb x x = false.
Proof. rewrite ltb_spec. apply SFltb_irrefl. Qed.

Lemma ltb_total (x y : float) :
  nonneg x -> nonneg y ->
  PrimFloat.ltb x y = false -> PrimFloat.ltb y x = false -> x = y.
Proof.
  rewrite !ltb_spec. intros Hx Hy H1 H2.
  apply Prim2SF_inj. apply SFltb_total; assumption.
Qed.

Lemma leb_ltb (x y : float) :
  nonneg x -> nonneg y -> PrimFloat.leb x y = negb (PrimFloat.ltb y x).
Proof. rewrite leb_spec, ltb_spec. apply SFleb_ltb. Qed.

Lemma not_positive_zero (x : float) :
  nonneg x -> PrimFloat.ltb 0%float x = false -> x = 0%float.
Proof.
  rewrite ltb_spec, Prim2SF_zero. intros Hx H.
  apply Prim2SF_inj. rewrite Prim2SF_zero. apply SFltb_zero_false; assumption.
Qed.

Lemma SFltb_below (a b c : spec_float) :
  specNonneg a -> specNonneg b -> specNonneg c ->
  SFltb a b = false -> SFltb a c = true -> SFltb b c = true.
Proof.
  unfold SFltb, SFcompare.
  destruct a as [ [ | ] | [ | ] | | [ | ] ma ea ]; cbn; try contradiction;
  destruct b as [ [ | ] | [ | ] | | [ | ] mb eb ]; cbn; try contradiction;
  destruct c as [ [ | ] | [ | ] | | [ | ] mc ec ]; cbn; try contradiction;
  intros _ _ _; try discriminate; try reflexivity; sf_cases.
Qed.

(** From [x >= y] and [x < z] follows [y < z]. *)
Lemma ltb_below (x y z : float) :
  nonneg x -> nonneg y -> nonneg z ->
  PrimFloat.ltb x y = false -> PrimFloat.ltb x z = true -> PrimFloat.ltb y z = true.
Proof. rewrite !ltb_spec. apply SFltb_below. Qed.

Lemma ltb_asym (x y : float) :
  nonneg x -> nonneg y -> PrimFloat.ltb x y = true -> PrimFloat.ltb y x = false.
Proof.
  intros Hx Hy H. destruct (PrimFloat.ltb y x) eqn:E; [ | reflexivity ].
  rewrite <- (ltb_irrefl x). symmetry. apply (ltb_trans x y x); assumption.
Qed.

(** ** The top category *)

Lemma pickTop_step (seen : list (ExpenseCategory * float))
    (state : option ExpenseCategory * float) (c : ExpenseCategory) (v : float) :
  Forall (fun entry => nonneg (snd entry)) seen ->
  nonneg (snd state) -> nonneg v ->
  scanned seen state ->
  scanned (seen ++ [(c, v)]) (pickTop (N := Float64) state (c, v)) /\
  nonneg (snd (pickTop (N := Float64) state (c, v))).
Proof.
  intros Hseen Hmax Hv Hs. destruct state as [top m].
  unfold pickTop. cbn [gt Float64 snd fst] in *.
  destruct (PrimFloat.ltb m v) eqn:E; cbn [snd]; [ | split; [ | exact Hmax ] ].
  - split; [ | exact Hv ]. unfold scanned in *. cbn [fst snd] in *.
    exists seen, []. split; [ reflexivity | ].
    destruct top as [c0 | ].
    + destruct Hs as [before [after [Eseen [Hpos [Hb Ha]]]]].
      assert (H0 : PrimFloat.ltb 0%float v = true)
        by (apply (ltb_trans _ m); auto using nonneg_zero).
      split; [ exact H0 | ]. split; [ | constructor ].
      subst seen. apply Forall_app in Hseen. destruct Hseen as [Nb Na].
      apply Forall_app. split.
      * rewrite Forall_forall in *. intros entry Hin.
        apply (ltb_trans _ m); auto.
      * constructor; [ exact E | ].
        apply Forall_cons_iff in Na. destruct Na as [_ Na].
        rewrite Forall_forall in *. intros entry Hin.
        apply (ltb_below m); auto.
    + destruct Hs as [Em Hz]. subst m.
      split; [ exact E | ]. split; [ | constructor ].
      rewrite Forall_forall in *. intros entry Hin. rewrite (Hz entry Hin). exact E.
  - unfold scanned in *. cbn [fst snd] in *.
    destruct top as [c0 | ].
    + destruct Hs as [before [after [Eseen [Hpos [Hb Ha]]]]].
      exists before, (after ++ [(c, v)]). subst seen.
      split; [ rewrite <- app_assoc; reflexivity | ].
      split; [ exact Hpos | ]. split; [ exact Hb | ].
      apply Forall_app. split; [ exact Ha | ]. constructor; [ exact E | constructor ].
    + destruct Hs as [Em Hz]. subst m. split; [ reflexivity | ].
      apply Forall_app. split; [ exact Hz | ].
      constructor; [ | constructor ]. apply not_positive_zero; assumption.
Qed.

Lemma pickTop_scan (rest seen : list (ExpenseCategory * float))
    (state : option ExpenseCategory * float) :
  Forall (fun entry => nonneg (snd entry)) (seen ++ rest) ->
  nonneg (snd state) ->
  scanned seen state ->
  scanned (seen ++ rest) (fold_left (pickTop (N := Float64)) rest state).
Proof.
  revert seen state. induction rest as [ | [c v] rest IH ]; intros seen state Hn Hm Hs.
  - rewrite app_nil_r. exact Hs.
  - cbn [fold_left].
    replace (seen ++ (c, v) :: rest) with ((seen ++ [(c, v)]) ++ rest) in *
      by (rewrite <- app_assoc; reflexivity).
    assert (Hseen : Forall (fun entry => nonneg (snd entry)) (seen ++ [(c, v)]))
      by (apply Forall_app in Hn; apply Hn).
    assert (Hv : nonneg v).
    { apply Forall_app in Hseen. destruct Hseen as [_ Hc].
      apply Forall_cons_iff in Hc. apply Hc. }
    assert (Hseen' : Forall (fun entry => nonneg (snd entry)) seen)
      by (apply Forall_app in Hseen; apply Hseen).
    destruct (pickTop_step seen state c v Hseen' Hm Hv Hs) as [Hs' Hm'].
    apply IH; assumption.
Qed.

Lemma addToCategory_nonneg (t : CategoryTotals (N := Float64)) (e : Expense Float64) :
  nonneg (amount e) ->
  Forall (fun entry => nonneg (snd entry)) t ->
  Forall (fun entry => nonneg (snd entry)) (addToCategory t e).
Proof.
  intros He Ht. unfold addToCategory. rewrite Forall_forall in *.
  intros entry Hin. apply in_map_iff in Hin. destruct Hin as [[c v] [E Hin]].
  specialize (Ht _ Hin). cbn [fst snd] in *.
  destruct (category_eqb c (category e)); subst entry; cbn [snd];
    [ apply nonneg_add; assumption | exact Ht ].
Qed.

Lemma categoryTotals_nonneg (l : list (Expense Float64)) (t : CategoryTotals (N := Float64)) :
  positiveAmounts l ->
  Forall (fun entry => nonneg (snd entry)) t ->
  Forall (fun entry => nonneg (snd entry)) (fold_left addToCategory l t).
Proof.
  revert t. induction l as [ | e l IH ]; intros t Hl Ht; cbn [fold_left]; [ exact Ht | ].
  unfold positiveAmounts in Hl. apply Forall_cons_iff in Hl. destruct Hl as [He Hl].
  apply IH; [ exact Hl | ].
  apply addToCategory_nonneg; [ apply positive_nonneg, He | exact Ht ].
Qed.

(** The totals are an object with the six keys in the order of the literal. *)
Lemma totals_shape {N : Number} (t : CategoryTotals) :
  map fst t = [Food; Transportation; Entertainment; Shopping; Bills; Other] ->
  t = [ (Food, totalOf t Food); (Transportation, totalOf t Transportation);
        (Entertainment, totalOf t Entertainment); (Shopping, totalOf t Shopping);
        (Bills, totalOf t Bills); (Other, totalOf t Other) ].
Proof.
  intros H.
  do 7 (destruct t as [ | [? ?] t ]; try discriminate H).
  cbn in H. injection H as -> -> -> -> -> ->. reflexivity.
Qed.

Lemma leb_of_ltb (x y : float) :
  nonneg x -> nonneg y -> PrimFloat.ltb x y = true -> PrimFloat.leb x y = true.
Proof.
  intros Hx Hy H. rewrite (leb_ltb x y Hx Hy), (ltb_asym x y Hx Hy H). reflexivity.
Qed.

Lemma leb_of_not_ltb (x y : float) :
  nonneg x -> nonneg y -> PrimFloat.ltb y x = false -> PrimFloat.leb x y = true.
Proof. intros Hx Hy H. rewrite (leb_ltb x y Hx Hy), H. reflexivity. Qed.

Lemma leb_refl (x : float) : nonneg x -> PrimFloat.leb x x = true.
Proof. intros Hx. apply leb_of_not_ltb; auto using ltb_irrefl. Qed.

Ltac split_entries E before :=
  destruct before as [ | [? ?] before ]; cbn in E;
  [ first [ discriminate E | injection E as ? ? ?; subst ]
  | first [ discriminate E | injection E as ? ? E; subst; split_entries E before ] ].

Ltac forall_entries :=
  repeat match goal with
    | H : Forall _ (_ :: _) |- _ => apply Forall_cons_iff in H; destruct H as [? H]
    | H : Forall _ [] |- _ => clear H
    end;
  cbn [snd fst] in *.

(** The loop on an object with the six totals [t0] .. [t5]. *)
Lemma scan_six (t0 t1 t2 t3 t4 t5 : float) (top : option ExpenseCategory) (m : float) :
  nonneg t0 -> nonneg t1 -> nonneg t2 -> nonneg t3 -> nonneg t4 -> nonneg t5 ->
  scanned [ (Food, t0); (Transportation, t1); (Entertainment, t2);
            (Shopping, t3); (Bills, t4); (Other, t5) ] (top, m) ->
  let total c :=
    match c with
    | Food => t0 | Transportation => t1 | Entertainment => t2
    | Shopping => t3 | Bills => t4 | Other => t5
    end in
  ((forall c, total c = 0%float) -> top = None) /\
  ((exists c, total c <> 0%float) -> exists c, top = Some c) /\
  (forall c, top = Some c ->
     (forall c', PrimFloat.leb (total c') (total c) = true) /\
     (forall c', (position c' < position c)%nat ->
                 PrimFloat.ltb (total c') (total c) = true)) /\
  (forall c, (forall c', c' <> c -> PrimFloat.ltb (total c') (total c) = true) ->
             top = Some c).
Proof.
  intros N0 N1 N2 N3 N4 N5 Hs total. unfold scanned in Hs. cbn [fst snd] in Hs.
  destruct top as [c | ].
  - destruct Hs as [before [after [E [Hpos [Hb Ha]]]]].
    split_entries E before; forall_entries.
    all: split;
      [ intros Hz;
        pose proof (Hz Food) as Z0; pose proof (Hz Transportation) as Z1;
        pose proof (Hz Entertainment) as Z2; pose proof (Hz Shopping) as Z3;
        pose proof (Hz Bills) as Z4; pose proof (Hz Other) as Z5;
        cbn in Z0, Z1, Z2, Z3, Z4, Z5;
        match goal with
        | H : PrimFloat.ltb 0%float ?t = true, Z : ?t = 0%float |- _ =>
            rewrite Z, ltb_irrefl in H; discriminate H
        end | ].
    all: split; [ intros _; eexists; reflexivity | ].
    all: split;
      [ intros c E'; injection E' as <-; split; intros c'; destruct c'; cbn;
        intros; try lia;
        first [ apply leb_refl; assumption
              | apply leb_of_ltb; assumption
              | apply leb_of_not_ltb; assumption
              | assumption ]
      | ].
    all: intros c Hc; destruct c; try reflexivity; exfalso.
    all: pose proof (Hc Food) as L0; pose proof (Hc Transportation) as L1;
      pose proof (Hc Entertainment) as L2; pose proof (Hc Shopping) as L3;
      pose proof (Hc Bills) as L4; pose proof (Hc Other) as L5;
      cbn in L0, L1, L2, L3, L4, L5.
    all: match goal with
         | H : PrimFloat.ltb ?a ?b = false, L : _ -> PrimFloat.ltb ?a ?b = true |- _ =>
             rewrite L in H by discriminate; discriminate H
         | H : PrimFloat.ltb ?a ?b = true, L : _ -> PrimFloat.ltb ?b ?a = true |- _ =>
             rewrite (ltb_asym b a) in H by (try apply L; try assumption; discriminate);
             discriminate H
         end.
  - destruct Hs as [_ Hz]. forall_entries.
    split; [ reflexivity | ].
    split; [ intros [c Hc]; destruct c; cbn in Hc; congruence | ].
    split; [ discriminate | ].
    intros c Hc. exfalso.
    assert (Hother : exists c', c' <> c)
      by (destruct c; [ exists Transportation | exists Food .. ]; discriminate).
    destruct Hother as [c' Hne]. specialize (Hc c' Hne).
    assert (Ec : total c = 0%float) by (destruct c; cbn; assumption).
    assert (Ec' : total c' = 0%float) by (destruct c'; cbn; assumption).
    rewrite Ec, Ec', ltb_irrefl in Hc. discriminate Hc.
Qed.

Section TopCategoryClaim.
Context {R : Runtime}.

(** C3. For expenses with positive amounts, [topCategory] is absent
    exactly when all six totals are 0, as on the empty list; otherwise
    it is a category whose total no other total exceeds and that comes
    first in the order Food, Transportation, Entertainment, Shopping,
    Bills, Other among those with that total: every earlier category has
    a strictly smaller total.  A category whose total is strictly the
    greatest is the top category. *)
Theorem topCategory_earliest_greatest (w : World Float64) (l : list (Expense Float64)) :
  positiveAmounts l ->
  let s := calculateSummary w l in
  let total := totalOf (categoryTotals s) in
  topCategory (calculateSummary w []) = None /\
  ((forall c, total c = 0%float) -> topCategory s = None) /\
  ((exists c, total c <> 0%float) -> exists c, topCategory s = Some c) /\
  (forall c, topCategory s = Some c ->
     (forall c', PrimFloat.leb (total c') (total c) = true) /\
     (forall c', (position c' < position c)%nat ->
                 PrimFloat.ltb (total c') (total c) = true)) /\
  (forall c, (forall c', c' <> c -> PrimFloat.ltb (total c') (total c) = true) ->
             topCategory s = Some c).
Proof.
  intros Hl s total.
  split; [ vm_compute; reflexivity | ].
  set (t := categoryTotals s) in *.
  assert (Hk : map fst t = [Food; Transportation; Entertainment; Shopping; Bills; Other])
    by apply categoryTotals_keys.
  assert (Hn : Forall (fun entry => nonneg (snd entry)) t).
  { apply categoryTotals_nonneg; [ exact Hl | ].
    repeat constructor; apply nonneg_zero. }
  assert (Hs : scanned ([] ++ t) (fold_left (pickTop (N := Float64)) t (None, 0%float))).
  { apply pickTop_scan; [ exact Hn | apply nonneg_zero | ].
    split; [ reflexivity | constructor ]. }
  change (topCategory s)
    with (fst (fold_left (pickTop (N := Float64)) t (None, 0%float))).
  destruct (fold_left (pickTop (N := Float64)) t (None, 0%float)) as [top m].
  cbn [app fst] in *.
  assert (Heq : forall c,
             match c with
             | Food => totalOf t Food | Transportation => totalOf t Transportation
             | Entertainment => totalOf t Entertainment | Shopping => totalOf t Shopping
             | Bills => totalOf t Bills | Other => totalOf t Other
             end = total c)
    by (intros c; destruct c; reflexivity).
  pose proof (totals_shape t Hk) as Hshape.
  rewrite Hshape in Hn, Hs.
  repeat match type of Hn with
         | Forall _ (_ :: _) =>
             let H := fresh "Hn" in
             apply Forall_cons_iff in Hn; destruct Hn as [H Hn]; cbn [snd] in H
         end.
  destruct (scan_six _ _ _ _ _ _ top m Hn0 Hn1 Hn2 Hn3 Hn4 Hn5 Hs) as [A [B [C D]]].
  split; [ intros Hz; apply A; intros c; rewrite Heq; apply Hz | ].
  split; [ intros [c Hc]; apply B; exists c; rewrite Heq; exact Hc | ].
  split.
  - intros c Hc. destruct (C c Hc) as [C1 C2].
    split; intros c'; [ specialize (C1 c') | specialize (C2 c') ];
      rewrite !Heq in *; assumption.
  - intros c Hc. apply D. intros c' Hne. rewrite !Heq. apply Hc, Hne.
Qed.

End TopCategoryClaim.

Lemma topCategory_earliest_greatest_witness :
  positiveAmounts Sample.three /\
  topCategory (calculateSummary (R := UTC.runtime)
                 (Sample.browser Sample.three Sample.feb15) Sample.three) = Some Food /\
  totalOf (categoryTotals (calculateSummary (R := UTC.runtime)
             (Sample.browser Sample.three Sample.feb15) Sample.three)) Food = 50%float /\
  totalOf (categoryTotals (calculateSummary (R := UTC.runtime)
             (Sample.browser Sample.three Sample.feb15) Sample.three)) Bills = 50%float /\
  forall c',
    PrimFloat.leb
      (totalOf (categoryTotals (calculateSummary (R := UTC.runtime)
                  (Sample.browser Sample.three Sample.feb15) Sample.three)) c')
      (totalOf (categoryTotals (calculateSummary (R := UTC.runtime)
                  (Sample.browser Sample.three Sample.feb15) Sample.three)) Food)
    = true.
Proof.
  assert (H : positiveAmounts Sample.three)
    by (repeat constructor; vm_compute; reflexivity).
  split; [ exact H | ].
  split; [ vm_compute; reflexivity | ].
  split; [ vm_compute; reflexivity | ].
  split; [ vm_compute; reflexivity | ].
  destruct (topCategory_earliest_greatest (R := UTC.runtime)
              (Sample.browser Sample.three Sample.feb15) Sample.three H)
    as [_ [_ [_ [Hgreatest _]]]].
  apply (Hgreatest Food). vm_compute. reflexivity.
Defined.

(** ** The filter effect *)

Section SortFacts.
Context {A : Type} (compare : A -> A -> option Z).
Hypothesis notAfter_total :
  forall a b, notAfter compare a b = false -> notAfter compare b a = true.

Lemma insert_Permutation (a : A) (l : list A) :
  Permutation (insert compare a l) (a :: l).
Proof.
  induction l as [ | b l IH ]; cbn; [ apply Permutation_refl | ].
  destruct (notAfter compare a b); [ apply Permutation_refl | ].
  apply (perm_trans (l' := b :: a :: l)); [ apply perm_skip, IH | apply perm_swap ].
Qed.

Lemma sort_Permutation (l : list A) : Permutation (sort compare l) l.
Proof.
  induction l as [ | a l IH ]; [ apply perm_nil | ].
  change (sort compare (a :: l)) with (insert compare a (sort compare l)).
  apply (perm_trans (l' := a :: sort compare l));
    [ apply insert_Permutation | apply perm_skip, IH ].
Qed.

Lemma insert_Sorted (a : A) (l : list A) :
  Sorted (fun x y => notAfter compare x y = true) l ->
  Sorted (fun x y => notAfter compare x y = true) (insert compare a l).
Proof.
  induction 1 as [ | b l Hl IH Hb ]; cbn; [ repeat constructor | ].
  destruct (notAfter compare a b) eqn:E.
  - constructor; [ constructor; assumption | constructor; exact E ].
  - constructor; [ exact IH | ].
    destruct Hb as [ | c l' Hc ]; cbn.
    + constructor. apply notAfter_total, E.
    + destruct (notAfter compare a c); constructor;
        [ apply notAfter_total, E | exact Hc ].
Qed.

Lemma sort_Sorted (l : list A) :
  Sorted (fun x y => notAfter compare x y = true) (sort compare l).
Proof.
  induction l as [ | a l IH ]; [ constructor | ].
  change (sort compare (a :: l)) with (insert compare a (sort compare l)).
  apply insert_Sorted, IH.
Qed.

(** Sorting a sorted list changes nothing. *)
Lemma sort_of_Sorted (l : list A) :
  Sorted (fun x y => notAfter compare x y = true) l -> sort compare l = l.
Proof.
  induction 1 as [ | a l Hl IH Ha ]; [ reflexivity | ].
  change (sort compare (a :: l)) with (insert compare a (sort compare l)).
  rewrite IH. destruct Ha as [ | b l' Hb ]; cbn; [ reflexivity | ].
  rewrite Hb. reflexivity.
Qed.

End SortFacts.

Lemma filter_filter {A : Type} (p q : A -> bool) (l : list A) :
  filter p (filter q l) = filter (fun a => q a && p a) l.
Proof.
  induction l as [ | a l IH ]; cbn; [ reflexivity | ].
  destruct (q a); cbn; [ destruct (p a) | ]; rewrite IH; reflexivity.
Qed.

Lemma filter_true {A : Type} (l : list A) : filter (fun _ => true) l = l.
Proof. apply filter_all. reflexivity. Qed.

Lemma category_eqb_eq (a b : ExpenseCategory) : category_eqb a b = true <-> a = b.
Proof. destruct a, b; cbn; split; congruence. Qed.

Lemma truthy_Some (o : option string) (q : string) :
  truthy o = Some q <-> o = Some q /\ q <> "".
Proof.
  destruct o as [ [ | c s ] | ]; cbn; split.
  - discriminate.
  - intros [E Hne]. injection E as <-. destruct (Hne eq_refl).
  - intros E. injection E as <-. split; [ reflexivity | discriminate ].
  - intros [E _]. exact E.
  - discriminate.
  - intros [E _]. discriminate E.
Qed.

Lemma truthy_None (o : option string) :
  truthy o = None <-> forall q, o = Some q -> q = "".
Proof.
  destruct o as [ [ | c s ] | ]; cbn; split; try discriminate; try reflexivity.
  - intros _ q E. injection E as <-. reflexivity.
  - intros H. specialize (H _ eq_refl). discriminate H.
Qed.

Section FilterClaims.
Context {N : Number} {R : Runtime}.

Lemma byCategory_filter (l : list (Expense N)) (f : ExpenseFilters) :
  byCategory f l
  = filter (fun e => match filterCategory f with
                     | Some (Only c) => category_eqb (category e) c
                     | Some All | None => true
                     end) l.
Proof.
  unfold byCategory. destruct (filterCategory f) as [ [ | c ] | ];
    [ symmetry; apply filter_true | reflexivity | symmetry; apply filter_true ].
Qed.

Lemma bySearch_filter (l : list (Expense N)) (f : ExpenseFilters) :
  bySearch f l
  = filter (fun e => match truthy (searchQuery f) with
                     | Some q => includes (toLowerCase (description e)) (toLowerCase q)
                     | None => true
                     end) l.
Proof.
  unfold bySearch. destruct (truthy (searchQuery f));
    [ reflexivity | symmetry; apply filter_true ].
Qed.

Lemma byStart_filter (l : list (Expense N)) (f : ExpenseFilters) :
  byStart f l
  = filter (fun e => match truthy (startDate f) with
                     | Some s => dateGe (date e) s
                     | None => true
                     end) l.
Proof.
  unfold byStart. destruct (truthy (startDate f));
    [ reflexivity | symmetry; apply filter_true ].
Qed.

Lemma byEnd_filter (l : list (Expense N)) (f : ExpenseFilters) :
  byEnd f l
  = filter (fun e => match truthy (endDate f) with
                     | Some s => dateLe (date e) s
                     | None => true
                     end) l.
Proof.
  unfold byEnd. destruct (truthy (endDate f));
    [ reflexivity | symmetry; apply filter_true ].
Qed.

(** The four filters in a row keep the records that pass the criteria. *)
Lemma filters_passes (l : list (Expense N)) (f : ExpenseFilters) :
  byEnd f (byStart f (bySearch f (byCategory f l))) = filter (passes f) l.
Proof.
  rewrite byEnd_filter, byStart_filter, bySearch_filter, byCategory_filter.
  rewrite !filter_filter. apply filter_ext. intros e.
  unfold passes. rewrite !andb_assoc. reflexivity.
Qed.

Lemma dateGe_spec (a b : string) :
  dateGe a b = true <->
  exists ta tb, Date_parse a = Some ta /\ Date_parse b = Some tb /\ tb <= ta.
Proof.
  unfold dateGe. destruct (Date_parse a) as [ta | ], (Date_parse b) as [tb | ].
  - rewrite Z.leb_le. split.
    + intros H. exists ta, tb. auto.
    + intros [ta' [tb' [Ea [Eb H]]]]. congruence.
  - split; [ discriminate | intros [ta' [tb' [_ [Eb _]]]]; discriminate Eb ].
  - split; [ discriminate | intros [ta' [tb' [Ea _]]]; discriminate Ea ].
  - split; [ discriminate | intros [ta' [tb' [Ea _]]]; discriminate Ea ].
Qed.

Lemma dateLe_spec (a b : string) :
  dateLe a b = true <->
  exists ta tb, Date_parse a = Some ta /\ Date_parse b = Some tb /\ ta <= tb.
Proof.
  unfold dateLe. destruct (Date_parse a) as [ta | ], (Date_parse b) as [tb | ].
  - rewrite Z.leb_le. split.
    + intros H. exists ta, tb. auto.
    + intros [ta' [tb' [Ea [Eb H]]]]. congruence.
  - split; [ discriminate | intros [ta' [tb' [_ [Eb _]]]]; discriminate Eb ].
  - split; [ discriminate | intros [ta' [tb' [Ea _]]]; discriminate Ea ].
  - split; [ discriminate | intros [ta' [tb' [Ea _]]]; discriminate Ea ].
Qed.

Lemma compareDates_total (a b : Expense N) :
  notAfter compareDates a b = false -> notAfter compareDates b a = true.
Proof.
  unfold notAfter, compareDates.
  destruct (Date_parse (date a)) as [ta | ], (Date_parse (date b)) as [tb | ];
    try discriminate.
  rewrite Z.leb_gt, Z.leb_le. lia.
Qed.

Lemma notAfter_newestFirst (a b : Expense N) :
  (exists t, Date_parse (date a) = Some t) ->
  (exists t, Date_parse (date b) = Some t) ->
  notAfter compareDates a b = true -> newestFirst a b.
Proof.
  unfold notAfter, compareDates, newestFirst. intros [ta ->] [tb ->].
  rewrite Z.leb_le. lia.
Qed.

Lemma newestFirst_transitive : Relations_1.Transitive (newestFirst (N := N)).
Proof.
  intros a b c. unfold newestFirst.
  destruct (Date_parse (date a)), (Date_parse (date b)), (Date_parse (date c));
    try contradiction; lia.
Qed.

Lemma Sorted_newestFirst (l : list (Expense N)) :
  validDates l ->
  Sorted (fun x y => notAfter compareDates x y = true) l ->
  StronglySorted newestFirst l.
Proof.
  intros Hv Hs. apply Sorted_StronglySorted; [ exact newestFirst_transitive | ].
  induction Hs as [ | a l Hl IH Ha ]; [ constructor | ].
  unfold validDates in Hv. apply Forall_cons_iff in Hv. destruct Hv as [Va Vl].
  constructor; [ apply IH, Vl | ].
  destruct Ha as [ | b l' Hb ]; constructor.
  apply Forall_cons_iff in Vl. apply notAfter_newestFirst; [ exact Va | apply Vl | exact Hb ].
Qed.

Lemma passes_spec (f : ExpenseFilters) (e : Expense N) :
  passes f e = true <->
  (forall c, filterCategory f = Some (Only c) -> category e = c) /\
  (forall q, searchQuery f = Some q -> q <> "" ->
             includes (toLowerCase (description e)) (toLowerCase q) = true) /\
  (forall s, startDate f = Some s -> s <> "" ->
             exists t ts, Date_parse (date e) = Some t /\ Date_parse s = Some ts /\ ts <= t) /\
  (forall s, endDate f = Some s -> s <> "" ->
             exists t ts, Date_parse (date e) = Some t /\ Date_parse s = Some ts /\ t <= ts).
Proof.
  unfold passes. rewrite !andb_true_iff.
  assert (Hc : match filterCategory f with
               | Some (Only c) => category_eqb (category e) c
               | Some All | None => true
               end = true
               <-> forall c, filterCategory f = Some (Only c) -> category e = c).
  { destruct (filterCategory f) as [ [ | c ] | ]; split; try reflexivity; try discriminate.
    - intros H c' E. injection E as <-. apply category_eqb_eq, H.
    - intros H. apply category_eqb_eq, H. reflexivity. }
  assert (Hq : match truthy (searchQuery f) with
               | Some q => includes (toLowerCase (description e)) (toLowerCase q)
               | None => true
               end = true
               <-> forall q, searchQuery f = Some q -> q <> "" ->
                     includes (toLowerCase (description e)) (toLowerCase q) = true).
  { destruct (truthy (searchQuery f)) as [q | ] eqn:E.
    - apply truthy_Some in E. destruct E as [E Hne]. split.
      + intros H q' E'. rewrite E in E'. injection E' as <-. intros _. exact H.
      + intros H. apply (H q E Hne).
    - split; [ | reflexivity ]. intros _ q Eq Hne.
      destruct (Hne (proj1 (truthy_None _) E q Eq)). }
  assert (Hs : match truthy (startDate f) with
               | Some s => dateGe (date e) s
               | None => true
               end = true
               <-> forall s, startDate f = Some s -> s <> "" ->
                     exists t ts, Date_parse (date e) = Some t /\
                                  Date_parse s = Some ts /\ ts <= t).
  { destruct (truthy (startDate f)) as [s | ] eqn:E.
    - apply truthy_Some in E. destruct E as [E Hne]. rewrite dateGe_spec. split.
      + intros H s' E'. rewrite E in E'. injection E' as <-. intros _. exact H.
      + intros H. apply (H s E Hne).
    - split; [ | reflexivity ]. intros _ s Es Hne.
      destruct (Hne (proj1 (truthy_None _) E s Es)). }
  assert (He : match truthy (endDate f) with
               | Some s => dateLe (date e) s
               | None => true
               end = true
               <-> forall s, endDate f = Some s -> s <> "" ->
                     exists t ts, Date_parse (date e) = Some t /\
                                  Date_parse s = Some ts /\ t <= ts).
  { destruct (truthy (endDate f)) as [s | ] eqn:E.
    - apply truthy_Some in E. destruct E as [E Hne]. rewrite dateLe_spec. split.
      + intros H s' E'. rewrite E in E'. injection E' as <-. intros _. exact H.
      + intros H. apply (H s E Hne).
    - split; [ | reflexivity ]. intros _ s Es Hne.
      destruct (Hne (proj1 (truthy_None _) E s Es)). }
  rewrite Hc, Hq, Hs, He. tauto.
Qed.

Lemma filteredExpenses_sort (l : list (Expense N)) (f : ExpenseFilters) :
  filteredExpenses l f = sort compareDates (filter (passes f) l).
Proof. unfold filteredExpenses. rewrite filters_passes. reflexivity. Qed.

Lemma validDates_filter (p : Expense N -> bool) (l : list (Expense N)) :
  validDates l -> validDates (filter p l).
Proof.
  unfold validDates. rewrite !Forall_forall. intros H e He.
  apply filter_In in He. apply H, He.
Qed.

Lemma validDates_Permutation (l l' : list (Expense N)) :
  Permutation l l' -> validDates l -> validDates l'.
Proof. unfold validDates. intros Hp. apply Permutation_Forall, Hp. Qed.

(** C7. The filtered list holds exactly the records of the input that
    pass every active predicate: the category, when one other than All
    is selected; the search text within the description, both in lower
    case, when the text is not empty; the date not before the start date
    and not after the end date, as instants, when these are not empty.
    When the dates of the records are valid the result is in descending
    order of date, whatever the order of the input. *)
Theorem filteredExpenses_exact_and_sorted (l : list (Expense N)) (f : ExpenseFilters) :
  Permutation (filteredExpenses l f) (filter (passes f) l) /\
  (forall e, In e (filteredExpenses l f) <-> In e l /\ passes f e = true) /\
  (forall e,
      passes f e = true <->
      (forall c, filterCategory f = Some (Only c) -> category e = c) /\
      (forall q, searchQuery f = Some q -> q <> "" ->
                 includes (toLowerCase (description e)) (toLowerCase q) = true) /\
      (forall s, startDate f = Some s -> s <> "" ->
                 exists t ts, Date_parse (date e) = Some t /\
                              Date_parse s = Some ts /\ ts <= t) /\
      (forall s, endDate f = Some s -> s <> "" ->
                 exists t ts, Date_parse (date e) = Some t /\
                              Date_parse s = Some ts /\ t <= ts)) /\
  (validDates l -> StronglySorted newestFirst (filteredExpenses l f)).
Proof.
  rewrite filteredExpenses_sort.
  assert (Hp : Permutation (sort compareDates (filter (passes f) l)) (filter (passes f) l))
    by apply sort_Permutation.
  split; [ exact Hp | ].
  split.
  { intros e. rewrite <- filter_In. split; apply Permutation_in;
      [ exact Hp | apply Permutation_sym, Hp ]. }
  split; [ intros e; apply passes_spec | ].
  intros Hv. apply Sorted_newestFirst.
  - apply (validDates_Permutation (filter (passes f) l));
      [ apply Permutation_sym, Hp | apply validDates_filter, Hv ].
  - apply sort_Sorted. exact compareDates_total.
Qed.

(** C8. Filtering the filtered list again with the same criteria gives
    that list back, record for record and in the same order.  The
    statement is for records with valid dates, where the comparison
    passed to the sort is a consistent ordering and the result of the
    sort is fixed by the language. *)
Theorem filteredExpenses_idempotent (l : list (Expense N)) (f : ExpenseFilters) :
  validDates l ->
  filteredExpenses (filteredExpenses l f) f = filteredExpenses l f.
Proof.
  intros _. rewrite !filteredExpenses_sort.
  set (r := sort compareDates (filter (passes f) l)).
  assert (Hr : filter (passes f) r = r).
  { apply filter_all. intros e He.
    apply (Permutation_in e (sort_Permutation compareDates (filter (passes f) l))) in He.
    apply filter_In in He. apply He. }
  rewrite Hr. apply sort_of_Sorted. apply sort_Sorted. exact compareDates_total.
Qed.

End FilterClaims.

Lemma filteredExpenses_exact_and_sorted_witness :
  validDates (R := UTC.runtime) Sample.three /\
  filteredExpenses (R := UTC.runtime) Sample.three Sample.foodOnly
  = [Sample.groceries; Sample.lunch] /\
  StronglySorted (newestFirst (R := UTC.runtime))
    (filteredExpenses (R := UTC.runtime) Sample.three Sample.foodOnly).
Proof.
  assert (H : validDates (R := UTC.runtime) Sample.three)
    by (repeat constructor; eexists; vm_compute; reflexivity).
  split; [ exact H | ]. split; [ vm_compute; reflexivity | ].
  exact (proj2 (proj2 (proj2 (filteredExpenses_exact_and_sorted (R := UTC.runtime)
                                Sample.three Sample.foodOnly))) H).
Defined.

Lemma filteredExpenses_idempotent_witness :
  validDates (R := UTC.runtime) Sample.three /\
  filteredExpenses (R := UTC.runtime)
    (filteredExpenses (R := UTC.runtime) Sample.three Sample.foodOnly) Sample.foodOnly
  = filteredExpenses (R := UTC.runtime) Sample.three Sample.foodOnly.
Proof.
  assert (H : validDates (R := UTC.runtime) Sample.three)
    by (repeat constructor; eexists; vm_compute; reflexivity).
  split; [ exact H | ].
  exact (filteredExpenses_idempotent (R := UTC.runtime) Sample.three Sample.foodOnly H).
Defined.

(** ** Further properties of the adapter and the summary *)

Section AdapterExtras.
Context {N : Number}.

(** X1. Adding an expense and loading again: the list that is returned and
    stored is the old one with the new expense at its end, one record
    longer. *)
Theorem addExpense_then_load (w : World N) (l : list (Expense N)) (e : Expense N) :
  stored w l -> writable w = true -> serialisable (l ++ [e]) ->
  addExpense e w = (Normal (l ++ [e]), snd (saveExpenses (l ++ [e]) w)) /\
  stored (snd (addExpense e w)) (l ++ [e]) /\
  List.length (l ++ [e]) = S (List.length l) /\
  In e (l ++ [e]).
Proof.
  intros H Hw Hs. pose proof (addExpense_run w l e H) as Hrun.
  split; [ exact Hrun | ]. split; [ | split ].
  - rewrite Hrun. cbn [snd]. apply stored_after_save; assumption.
  - rewrite length_app. cbn. lia.
  - apply in_or_app. right. left. reflexivity.
Qed.

(** X2. [saveExpenses] never raises: a write that fails leaves the store as
    it was and is not reported; a write that goes through stores the
    serialised list. *)
Theorem saveExpenses_swallows_errors (l : list (Expense N)) (w : World N) :
  fst (saveExpenses l w) = Normal tt /\
  (writable w = false -> snd (saveExpenses l w) = w) /\
  (writable w = true -> snd (saveExpenses l w) = withItem w (Some (JSON_stringify l))).
Proof.
  split; [ apply saveExpenses_normal | ]. split; [ | apply saveExpenses_item ].
  unfold writable, saveExpenses, bind, windowIsUndefined, tryCatch,
    localStorage_setItem, ret.
  destruct (hasWindow w); simpl; [ | reflexivity ].
  destruct (accessDenied w); simpl; [ reflexivity | ].
  destruct (quotaExceeded w); simpl; [ reflexivity | discriminate ].
Qed.

(** X3. After [clearAllExpenses] in a browser whose storage can be reached,
    [getExpenses] returns the empty list. *)
Theorem clearAllExpenses_then_load (w : World N) :
  hasWindow w = true -> accessDenied w = false ->
  fst (clearAllExpenses w) = Normal tt /\
  fst (getExpenses (snd (clearAllExpenses w))) = Normal (JArray []).
Proof.
  destruct w as [window denied quota stored_item time]. cbn.
  intros -> ->. split; reflexivity.
Qed.

End AdapterExtras.

Lemma addExpense_then_load_witness :
  stored (Sample.browser Sample.three Sample.feb15) Sample.three /\
  writable (Sample.browser Sample.three Sample.feb15) = true /\
  serialisable (Sample.three ++ [Sample.coffee]) /\
  stored (snd (addExpense Sample.coffee (Sample.browser Sample.three Sample.feb15)))
    (Sample.three ++ [Sample.coffee]).
Proof.
  assert (H : stored (Sample.browser Sample.three Sample.feb15) Sample.three)
    by (vm_compute; reflexivity).
  assert (Hs : serialisable (Sample.three ++ [Sample.coffee]))
    by (repeat constructor).
  split; [ exact H | ]. split; [ reflexivity | ]. split; [ exact Hs | ].
  exact (proj1 (proj2 (addExpense_then_load
                         (Sample.browser Sample.three Sample.feb15) Sample.three
                         Sample.coffee H eq_refl Hs))).
Defined.

Lemma clearAllExpenses_then_load_witness :
  hasWindow (Sample.browser Sample.three Sample.feb15) = true /\
  accessDenied (Sample.browser Sample.three Sample.feb15) = false /\
  fst (getExpenses (snd (clearAllExpenses (Sample.browser Sample.three Sample.feb15))))
  = Normal (JArray []).
Proof.
  split; [ reflexivity | ]. split; [ reflexivity | ].
  exact (proj2 (clearAllExpenses_then_load
                  (Sample.browser Sample.three Sample.feb15) eq_refl eq_refl)).
Defined.

Section SummaryExtras.
Context {R : Runtime}.

(** The summary of the empty list has total, monthly total and average
    0, six totals of 0 and no top category; the average of a list that
    is not empty is the total divided by the number of records. *)
Theorem calculateSummary_empty_and_average (w : World Float64) :
  calculateSummary w []
  = Build_ExpenseSummary (N := Float64) 0%float 0%float emptyTotals None 0%float /\
  (forall e l,
      averageExpense (calculateSummary w (e :: l))
      = PrimFloat.div (sumAmounts (e :: l))
          (PrimFloat.of_uint63 (Uint63.of_Z (Z.of_nat (S (List.length l)))))).
Proof.
  split; [ vm_compute; reflexivity | ].
  intros e l. reflexivity.
Qed.

End SummaryExtras.

(** The scenario of the specification: 20 and 30 under Food in January,
    50 under Bills in February, summarised in February 2024. *)
Theorem calculateSummary_scenario :
  calculateSummary (R := UTC.runtime)
    (Sample.browser Sample.three Sample.feb15) Sample.three
  = Build_ExpenseSummary (N := Float64) 100%float 50%float
      [ (Food, 50%float); (Transportation, 0%float); (Entertainment, 0%float);
        (Shopping, 0%float); (Bills, 50%float); (Other, 0%float) ]
      (Some Food) 33.333333333333336%float /\
  download (exportToCSV (R := UTC.runtime) (F := fun _ => EmptyString)
              (Sample.browser Sample.three Sample.feb15) Sample.three)
  = "expenses-2024-02-15.csv".
Proof. split; vm_compute; reflexivity. Qed.

(** * Further properties *)

(** ** The adapter: round trips and failed writes *)

Section AdapterRoundTrips.
Context {N : Number}.

Lemma asExpense_expenseToJSON_inv (e : Expense N) :
  asExpense (expenseToJSON e) = Some e -> jsonNumber (amount e) = Some (amount e).
Proof.
  unfold expenseToJSON, numberToJSON.
  destruct (jsonNumber (amount e)) as [a | ];
    cbn [asExpense expenseKeys sameKeys String.eqb Ascii.eqb Bool.eqb andb];
    [ | discriminate ].
  rewrite categoryOfName_categoryName. intros E. injection E as E.
  apply (f_equal amount) in E. cbn in E. rewrite E. reflexivity.
Qed.

Lemma asExpenses_toJSON_iff (l : list (Expense N)) :
  asExpenses (toJSON l) = Some l <-> serialisable l.
Proof.
  split; [ | apply asExpenses_toJSON ].
  unfold serialisable, toJSON, asExpenses.
  induction l as [ | e l IH ]; cbn [map asExpenseList]; intros H; [ constructor | ].
  destruct (asExpense (expenseToJSON e)) as [e' | ] eqn:Ee; [ | discriminate H ].
  destruct (asExpenseList (map expenseToJSON l)) as [l' | ] eqn:El; [ | discriminate H ].
  injection H as -> ->. constructor.
  - apply asExpense_expenseToJSON_inv, Ee.
  - apply IH. reflexivity.
Qed.

(** X4. Saving and loading again: after a write that goes through, the
    store gives back the saved list exactly when every amount survives
    the passage through JSON. *)
Theorem saveExpenses_then_load (w : World N) (l : list (Expense N)) :
  writable w = true ->
  (stored (snd (saveExpenses l w)) l <-> serialisable l).
Proof.
  intros Hw. rewrite <- asExpenses_toJSON_iff.
  rewrite (saveExpenses_item l w Hw).
  unfold writable in Hw.
  destruct (hasWindow w) eqn:E1, (accessDenied w) eqn:E2; try discriminate.
  unfold stored, getExpensesTyped, getExpenses, bind, windowIsUndefined, tryCatch,
    localStorage_getItem, ret, withItem; cbn.
  rewrite E1; cbn. rewrite E2; cbn.
  unfold typed, ret, throw.
  change (asExpenseList (map expenseToJSON l)) with (asExpenses (toJSON l)).
  destruct (asExpenses (toJSON l)) as [l' | ]; cbn;
    split; intros E; try discriminate E; injection E as ->; reflexivity.
Qed.

End AdapterRoundTrips.

Lemma saveExpenses_then_load_witness :
  writable (Sample.browser [] Sample.feb15) = true /\
  (stored (snd (saveExpenses Sample.three (Sample.browser [] Sample.feb15))) Sample.three
   <-> serialisable Sample.three).
Proof.
  split; [ reflexivity | ].
  apply (saveExpenses_then_load (N := Float64)). reflexivity.
Defined.

Section FailedWrites.
Context {N : Number} {R : Runtime}.

Lemma saveExpenses_unwritable (l : list (Expense N)) (w : World N) :
  writable w = false -> snd (saveExpenses l w) = w.
Proof.
  unfold writable, saveExpenses, bind, windowIsUndefined, tryCatch,
    localStorage_setItem, ret.
  destruct (hasWindow w); simpl; [ | reflexivity ].
  destruct (accessDenied w); simpl; [ reflexivity | ].
  destruct (quotaExceeded w); simpl; [ reflexivity | discriminate ].
Qed.

(** X5. A write that fails goes unnoticed: when the store refuses the
    write (no window, access denied or quota exceeded), [addExpense],
    [updateExpense] and [deleteExpense] still return the changed list as
    if it had been saved, and the store keeps the old one. *)
Theorem failed_write_is_silent (w : World N) (l : list (Expense N))
    (e : Expense N) (id0 : string) (p : PartialExpense N) :
  writable w = false -> stored w l ->
  addExpense e w = (Normal (l ++ [e]), w) /\
  updateExpense id0 p w =
    (Normal (map (fun x => if String.eqb (id x) id0
                           then spread x p (toISOString (clock w)) else x) l), w) /\
  deleteExpense id0 w =
    (Normal (filter (fun x => negb (String.eqb (id x) id0)) l), w).
Proof.
  intros Hw Hl. repeat split.
  - rewrite (addExpense_run w l e Hl), (saveExpenses_unwritable _ w Hw). reflexivity.
  - rewrite (updateExpense_run w l id0 p Hl), (saveExpenses_unwritable _ w Hw).
    reflexivity.
  - rewrite (deleteExpense_run w l id0 Hl), (saveExpenses_unwritable _ w Hw).
    reflexivity.
Qed.

Lemma writable_withItem (w : World N) (b : option (Blob N)) :
  writable (withItem w b) = writable w.
Proof. reflexivity. Qed.

Lemma filter_fresh (l : list (Expense N)) (id0 : string) :
  ~ In id0 (map id l) ->
  filter (fun x => negb (String.eqb (id x) id0)) l = l.
Proof.
  induction l as [ | x l IH ]; cbn [map filter In]; intros H; [ reflexivity | ].
  destruct (String.eqb_spec (id x) id0) as [E | E]; cbn [negb].
  - exfalso. apply H. left. exact E.
  - rewrite IH; [ reflexivity | ]. intros H'. apply H. right. exact H'.
Qed.

(** X6. Deleting is idempotent: deleting an id a second time returns the
    list of the first time, and deleting an id that no stored record
    carries returns the stored list as it is. *)
Theorem deleteExpense_twice (w : World N) (l : list (Expense N)) (id0 : string) :
  stored w l -> writable w = true -> serialisable l ->
  fst (deleteExpense id0 (snd (deleteExpense id0 w))) = fst (deleteExpense id0 w) /\
  (~ In id0 (map id l) -> fst (deleteExpense id0 w) = Normal l).
Proof.
  intros Hl Hw Hs. rewrite (deleteExpense_run w l id0 Hl). cbn [fst snd].
  set (keep := fun x : Expense N => negb (String.eqb (id x) id0)).
  split.
  - assert (Hl1 : stored (snd (saveExpenses (filter keep l) w)) (filter keep l))
      by (apply stored_after_save; [ exact Hw | apply serialisable_filter, Hs ]).
    rewrite (deleteExpense_run _ _ id0 Hl1). cbn [fst]. fold keep.
    rewrite filter_filter. f_equal. apply filter_ext. intros x. apply andb_diag.
  - intros Hid. unfold keep. rewrite (filter_fresh l id0 Hid). reflexivity.
Qed.

(** X7. Deleting undoes adding: after a record with a new id has been
    added and deleted again, the store holds the list it held before. *)
Theorem deleteExpense_undoes_addExpense (w : World N) (l : list (Expense N))
    (e : Expense N) :
  stored w l -> writable w = true -> serialisable (l ++ [e]) ->
  ~ In (id e) (map id l) ->
  fst (deleteExpense (id e) (snd (addExpense e w))) = Normal l /\
  stored (snd (deleteExpense (id e) (snd (addExpense e w)))) l.
Proof.
  intros Hl Hw Hs Hid.
  rewrite (addExpense_run w l e Hl). cbn [snd].
  pose proof (stored_after_save (l ++ [e]) w Hw Hs) as Hl1.
  assert (Hw1 : writable (snd (saveExpenses (l ++ [e]) w)) = true).
  { rewrite (saveExpenses_item _ w Hw). exact Hw. }
  rewrite (deleteExpense_run _ _ (id e) Hl1). cbn [fst snd].
  assert (E : filter (fun x => negb (String.eqb (id x) (id e))) (l ++ [e]) = l).
  { rewrite filter_app, (filter_fresh l (id e) Hid). cbn [filter].
    rewrite String.eqb_refl. cbn [negb]. apply app_nil_r. }
  rewrite E. split; [ reflexivity | ].
  apply stored_after_save; [ exact Hw1 | ].
  apply Forall_app in Hs. apply Hs.
Qed.

End FailedWrites.

Lemma failed_write_is_silent_witness :
  writable (Scenes.fullBrowser Sample.three Sample.feb15) = false /\
  stored (Scenes.fullBrowser Sample.three Sample.feb15) Sample.three /\
  addExpense Scenes.taxi (Scenes.fullBrowser Sample.three Sample.feb15)
  = (Normal (Sample.three ++ [Scenes.taxi]),
     Scenes.fullBrowser Sample.three Sample.feb15).
Proof.
  assert (H : stored (Scenes.fullBrowser Sample.three Sample.feb15) Sample.three)
    by (vm_compute; reflexivity).
  split; [ reflexivity | ]. split; [ exact H | ].
  exact (proj1 (failed_write_is_silent (R := UTC.runtime)
                  (Scenes.fullBrowser Sample.three Sample.feb15) Sample.three
                  Scenes.taxi "1" Sample.brunch eq_refl H)).
Defined.

Lemma deleteExpense_twice_witness :
  stored (Sample.browser Sample.three Sample.feb15) Sample.three /\
  fst (deleteExpense "2"
         (snd (deleteExpense "2" (Sample.browser Sample.three Sample.feb15))))
  = fst (deleteExpense "2" (Sample.browser Sample.three Sample.feb15)).
Proof.
  assert (H : stored (Sample.browser Sample.three Sample.feb15) Sample.three)
    by (vm_compute; reflexivity).
  assert (S : serialisable Sample.three) by (repeat constructor).
  split; [ exact H | ].
  exact (proj1 (deleteExpense_twice
                  (Sample.browser Sample.three Sample.feb15) Sample.three
                  "2" H eq_refl S)).
Defined.

Lemma deleteExpense_undoes_addExpense_witness :
  stored (Sample.browser Sample.three Sample.feb15) Sample.three /\
  ~ In (id Scenes.taxi) (map id Sample.three) /\
  fst (deleteExpense "4"
         (snd (addExpense Scenes.taxi (Sample.browser Sample.three Sample.feb15))))
  = Normal Sample.three.
Proof.
  assert (H : stored (Sample.browser Sample.three Sample.feb15) Sample.three)
    by (vm_compute; reflexivity).
  assert (F : ~ In (id Scenes.taxi) (map id Sample.three))
    by (cbn; intuition discriminate).
  assert (S : serialisable (Sample.three ++ [Scenes.taxi]))
    by (repeat constructor).
  split; [ exact H | ]. split; [ exact F | ].
  exact (proj1 (deleteExpense_undoes_addExpense
                  (Sample.browser Sample.three Sample.feb15) Sample.three
                  Scenes.taxi H eq_refl S F)).
Defined.

(** ** The page: what is shown after each handler *)

Section SortAndFilter.
Context {N : Number} {R : Runtime}.

Lemma newestFirst_notAfter (a b : Expense N) :
  newestFirst a b -> notAfter compareDates a b = true.
Proof.
  unfold newestFirst, notAfter, compareDates.
  destruct (Date_parse (date a)) as [ta | ], (Date_parse (date b)) as [tb | ];
    try contradiction.
  intros H. apply Z.leb_le. lia.
Qed.

(** A record that is not older than any record of the list goes to the
    front. *)
Lemma insert_front (a : Expense N) (l : list (Expense N)) :
  Forall (newestFirst a) l -> insert compareDates a l = a :: l.
Proof.
  destruct 1 as [ | b l Hb _ ]; cbn [insert]; [ reflexivity | ].
  rewrite (newestFirst_notAfter a b Hb). reflexivity.
Qed.

Lemma filter_insert_out (p : Expense N -> bool) (a : Expense N) (l : list (Expense N)) :
  p a = false -> filter p (insert compareDates a l) = filter p l.
Proof.
  intros Hp. induction l as [ | b l IH ]; cbn [insert filter].
  - rewrite Hp. reflexivity.
  - destruct (notAfter compareDates a b); cbn [filter].
    + rewrite Hp. reflexivity.
    + rewrite IH. reflexivity.
Qed.

Lemma filter_insert_in (p : Expense N -> bool) (a : Expense N) (l : list (Expense N)) :
  (exists t, Date_parse (date a) = Some t) -> validDates l ->
  StronglySorted newestFirst l ->
  p a = true -> filter p (insert compareDates a l) = insert compareDates a (filter p l).
Proof.
  intros Va Vl Hs Hp. induction Hs as [ | b l Hl IH Hb ]; cbn [insert filter].
  - rewrite Hp. reflexivity.
  - apply Forall_cons_iff in Vl. destruct Vl as [Vb Vl].
    destruct (notAfter compareDates a b) eqn:E.
    + cbn [filter]. rewrite Hp.
      symmetry. apply insert_front.
      pose proof (notAfter_newestFirst a b Va Vb E) as Hab.
      destruct (p b).
      * constructor; [ exact Hab | ].
        apply Forall_forall. intros c Hc. apply filter_In in Hc.
        apply (newestFirst_transitive a b c Hab).
        apply (proj1 (Forall_forall _ _) Hb c), Hc.
      * apply Forall_forall. intros c Hc. apply filter_In in Hc.
        apply (newestFirst_transitive a b c Hab).
        apply (proj1 (Forall_forall _ _) Hb c), Hc.
    + cbn [filter]. destruct (p b); cbn [insert].
      * rewrite E, (IH Vl). reflexivity.
      * apply IH, Vl.
Qed.

(** Erasing records and sorting by date commute. *)
Lemma filter_sort (p : Expense N -> bool) (l : list (Expense N)) :
  validDates l ->
  filter p (sort compareDates l) = sort compareDates (filter p l).
Proof.
  induction l as [ | a l IH ]; intros Hv; [ reflexivity | ].
  apply Forall_cons_iff in Hv. destruct Hv as [Va Vl].
  change (sort compareDates (a :: l)) with (insert compareDates a (sort compareDates l)).
  cbn [filter]. destruct (p a) eqn:Hp.
  - change (sort compareDates (a :: filter p l))
      with (insert compareDates a (sort compareDates (filter p l))).
    rewrite <- (IH Vl). apply filter_insert_in; [ exact Va | | | exact Hp ].
    + apply (validDates_Permutation l);
        [ apply Permutation_sym, sort_Permutation | exact Vl ].
    + apply Sorted_newestFirst;
        [ apply (validDates_Permutation l);
            [ apply Permutation_sym, sort_Permutation | exact Vl ]
        | apply sort_Sorted; exact compareDates_total ].
  - rewrite <- (IH Vl). apply filter_insert_out, Hp.
Qed.

Lemma filter_comm (p q : Expense N -> bool) (l : list (Expense N)) :
  filter p (filter q l) = filter q (filter p l).
Proof.
  rewrite !filter_filter. apply filter_ext. intros a. apply andb_comm.
Qed.

Lemma filteredExpenses_filter (p : Expense N -> bool) (l : list (Expense N))
    (f : ExpenseFilters) :
  validDates l ->
  filteredExpenses (filter p l) f = filter p (filteredExpenses l f).
Proof.
  intros Hv. rewrite !filteredExpenses_sort.
  rewrite (filter_sort p); [ | apply validDates_filter, Hv ].
  rewrite (filter_comm p). reflexivity.
Qed.

End SortAndFilter.

Section PageFacts.
Context {N : Number} {R : Runtime}.

Lemma passes_clearedFilters (e : Expense N) : passes clearedFilters e = true.
Proof. reflexivity. Qed.

Lemma filteredExpenses_cleared (l : list (Expense N)) :
  filteredExpenses l clearedFilters = sort compareDates l.
Proof.
  rewrite filteredExpenses_sort. f_equal. apply filter_all.
  intros e _. apply passes_clearedFilters.
Qed.

(** X8. Loading the page: with the criteria of the initial state (the
    ones Clear Filters sets again) the load effect followed by the
    filter effect shows every stored record once, newest first when the
    dates are valid, and ends the loading state. *)
Theorem loadEffect_shows_everything (w : World N) (l : list (Expense N))
    (s : PageState N) :
  stored w l -> page_filters s = clearedFilters ->
  exists s',
    loadEffect s w = (Normal s', w) /\
    isLoading s' = false /\
    page_expenses s' = l /\
    Permutation (page_filteredExpenses (filterEffect s')) l /\
    (validDates l ->
     StronglySorted newestFirst (page_filteredExpenses (filterEffect s'))).
Proof.
  intros Hl Hf. unfold loadEffect, bind. rewrite (stored_run w l Hl).
  eexists. split; [ reflexivity | ]. cbn. rewrite Hf, filteredExpenses_cleared.
  repeat split; [ apply sort_Permutation | ].
  intros Hv. apply Sorted_newestFirst.
  - apply (validDates_Permutation l); [ apply Permutation_sym, sort_Permutation | exact Hv ].
  - apply sort_Sorted. exact compareDates_total.
Qed.

(** X9. Deleting from the page: when the page is in step with the store
    and the dates are valid, what is shown after [handleDeleteExpense]
    and the filter effect is what was shown before without the records
    of that id, the others in the order they had. *)
Theorem handleDeleteExpense_shown (w : World N) (s : PageState N) (id0 : string) :
  stored w (page_expenses s) -> validDates (page_expenses s) ->
  exists s' w',
    handleDeleteExpense id0 s w = (Normal s', w') /\
    page_filteredExpenses (filterEffect s')
    = filter (fun x => negb (String.eqb (id x) id0))
        (page_filteredExpenses (filterEffect s)) /\
    Forall (fun x => id x <> id0) (page_filteredExpenses (filterEffect s')).
Proof.
  intros Hl Hv. unfold handleDeleteExpense, bind.
  rewrite (deleteExpense_run w _ id0 Hl). cbv zeta.
  eexists. eexists. split; [ reflexivity | ]. cbn.
  rewrite (filteredExpenses_filter _ _ _ Hv). split; [ reflexivity | ].
  apply Forall_forall. intros x Hx. apply filter_In in Hx. destruct Hx as [_ Hx].
  intros E. rewrite E, String.eqb_refl in Hx. discriminate Hx.
Qed.

Lemma Sorted_same_instant (t : Z) (l : list (Expense N)) :
  Sorted (fun x y => notAfter compareDates x y = true) (filter (atInstant t) l).
Proof.
  induction l as [ | a l IH ]; cbn [filter]; [ constructor | ].
  destruct (atInstant t a) eqn:Ea; [ | exact IH ].
  constructor; [ exact IH | ].
  destruct (filter (atInstant t) l) as [ | b l' ] eqn:El; constructor.
  assert (Eb : atInstant t b = true).
  { assert (Hb : In b (filter (atInstant t) l)) by (rewrite El; left; reflexivity).
    apply filter_In in Hb. apply Hb. }
  unfold atInstant in Ea, Eb. unfold notAfter, compareDates.
  destruct (Date_parse (date a)) as [ta | ]; [ | discriminate Ea ].
  destruct (Date_parse (date b)) as [tb | ]; [ | discriminate Eb ].
  apply Z.eqb_eq in Ea, Eb. apply Z.leb_le. lia.
Qed.

(** X10. The sort of the page is stable: among the records that are
    shown, those of one and the same instant stand in the order in which
    the stored list has them. *)
Theorem filteredExpenses_stable (l : list (Expense N)) (f : ExpenseFilters) (t : Z) :
  validDates l ->
  filter (atInstant t) (filteredExpenses l f)
  = filter (atInstant t) (filter (passes f) l).
Proof.
  intros Hv. rewrite filteredExpenses_sort.
  rewrite filter_sort; [ | apply validDates_filter, Hv ].
  apply sort_of_Sorted, Sorted_same_instant.
Qed.

(** X11. Editing from the page: [handleUpdateExpense] puts the record of
    the form in the place of every stored record with its id, with
    [updatedAt] set to the time of the update and not to the one the form
    gave; the other records and all ids stay, so distinct ids stay
    distinct, and the form is closed. *)
Theorem handleUpdateExpense_replaces (w : World N) (l : list (Expense N))
    (e : Expense N) (s : PageState N) :
  stored w l ->
  exists s' w',
    handleUpdateExpense e s w = (Normal s', w') /\
    page_expenses s'
    = map (fun x => if String.eqb (id x) (id e)
                    then Build_Expense (N := N) (id e) (date e) (amount e) (category e)
                           (description e) (createdAt e) (toISOString (clock w))
                    else x) l /\
    map id (page_expenses s') = map id l /\
    (uniqueIds l -> uniqueIds (page_expenses s')) /\
    editingExpense s' = None /\ showForm s' = false.
Proof.
  intros Hl. unfold handleUpdateExpense, bind.
  rewrite (updateExpense_run w l (id e) (asPartial e) Hl). cbv zeta.
  eexists. eexists. split; [ reflexivity | ]. cbn [page_expenses editingExpense showForm].
  assert (Hid : map id (map (fun x => if String.eqb (id x) (id e)
                                      then spread x (asPartial e) (toISOString (clock w))
                                      else x) l) = map id l).
  { rewrite map_map. rewrite <- (map_id (map id l)) at 1. rewrite map_map.
    apply map_ext. intros x. destruct (String.eqb_spec (id x) (id e)) as [E | E];
      [ symmetry; exact E | reflexivity ]. }
  split; [ reflexivity | ]. split; [ exact Hid | ].
  split; [ | split; reflexivity ].
  unfold uniqueIds. rewrite Hid. exact (fun H => H).
Qed.

(** X12. Adding from the page: after [handleAddExpense] and the filter
    effect the shown records are those shown before and, when it passes
    the criteria, the new one; the form is closed. *)
Theorem handleAddExpense_shown (w : World N) (s : PageState N) (e : Expense N) :
  stored w (page_expenses s) ->
  exists s' w',
    handleAddExpense e s w = (Normal s', w') /\
    page_expenses s' = page_expenses s ++ [e] /\
    showForm s' = false /\
    forall x,
      In x (page_filteredExpenses (filterEffect s')) <->
      In x (page_filteredExpenses (filterEffect s)) \/
      (x = e /\ passes (page_filters s) e = true).
Proof.
  intros Hl. unfold handleAddExpense, bind.
  rewrite (addExpense_run w _ e Hl).
  eexists. eexists. split; [ reflexivity | ]. cbn.
  split; [ reflexivity | ]. split; [ reflexivity | ].
  intros x. rewrite !filteredExpenses_sort.
  assert (Hin : forall l0, In x (sort compareDates l0) <-> In x l0).
  { intros l0. split; apply Permutation_in;
      [ apply sort_Permutation | apply Permutation_sym, sort_Permutation ]. }
  rewrite !Hin, filter_app, in_app_iff. cbn [filter].
  destruct (passes (page_filters s) e); cbn [In]; intuition congruence.
Qed.

End PageFacts.

Lemma validDates_three : validDates (R := UTC.runtime) Sample.three.
Proof. repeat constructor; eexists; vm_compute; reflexivity. Qed.

Lemma validDates_four : validDates (R := UTC.runtime) Scenes.four.
Proof. repeat constructor; eexists; vm_compute; reflexivity. Qed.

Lemma stored_three : stored (Sample.browser Sample.three Sample.feb15) Sample.three.
Proof. vm_compute; reflexivity. Qed.

Lemma loadEffect_shows_everything_witness :
  stored (Sample.browser Sample.three Sample.feb15) Sample.three /\
  page_filters (initialPage (N := Float64)) = clearedFilters /\
  exists s',
    loadEffect initialPage (Sample.browser Sample.three Sample.feb15)
    = (Normal s', Sample.browser Sample.three Sample.feb15) /\
    Permutation (page_filteredExpenses (filterEffect (R := UTC.runtime) s')) Sample.three.
Proof.
  split; [ exact stored_three | ]. split; [ reflexivity | ].
  destruct (loadEffect_shows_everything (R := UTC.runtime)
              (Sample.browser Sample.three Sample.feb15) Sample.three initialPage
              stored_three eq_refl) as [s' [Hrun [_ [_ [Hp _]]]]].
  exists s'. split; [ exact Hrun | exact Hp ].
Defined.

Lemma handleDeleteExpense_shown_witness :
  stored (Sample.browser Sample.three Sample.feb15)
    (page_expenses (Scenes.page Sample.three Sample.foodOnly)) /\
  validDates (R := UTC.runtime) (page_expenses (Scenes.page Sample.three Sample.foodOnly)) /\
  exists s' w',
    handleDeleteExpense "2" (Scenes.page Sample.three Sample.foodOnly)
      (Sample.browser Sample.three Sample.feb15) = (Normal s', w') /\
    page_filteredExpenses (filterEffect (R := UTC.runtime) s') = [Sample.lunch].
Proof.
  split; [ exact stored_three | ]. split; [ exact validDates_three | ].
  destruct (handleDeleteExpense_shown (R := UTC.runtime)
              (Sample.browser Sample.three Sample.feb15)
              (Scenes.page Sample.three Sample.foodOnly) "2"
              stored_three validDates_three) as [s' [w' [Hrun [Hshown _]]]].
  exists s', w'. split; [ exact Hrun | ]. rewrite Hshown. vm_compute. reflexivity.
Defined.

Lemma filteredExpenses_stable_witness :
  validDates (R := UTC.runtime) Scenes.four /\
  filter (atInstant (R := UTC.runtime) Scenes.jan5)
    (filteredExpenses (R := UTC.runtime) Scenes.four Sample.foodOnly)
  = [Sample.lunch; Scenes.snack].
Proof.
  split; [ exact validDates_four | ].
  rewrite (filteredExpenses_stable (R := UTC.runtime) Scenes.four Sample.foodOnly
             Scenes.jan5 validDates_four).
  vm_compute. reflexivity.
Defined.

Lemma handleUpdateExpense_replaces_witness :
  stored (Sample.browser Sample.three Sample.feb15) Sample.three /\
  exists s' w',
    handleUpdateExpense (R := UTC.runtime) Scenes.dinner
      (Scenes.page Sample.three clearedFilters)
      (Sample.browser Sample.three Sample.feb15) = (Normal s', w') /\
    map id (page_expenses s') = ["1"; "2"; "3"] /\
    map updatedAt (page_expenses s')
    = ["2024-02-15T00:00:00.000Z"; "2024-01-20T00:00:00.000Z"; "2024-02-01T00:00:00.000Z"].
Proof.
  split; [ exact stored_three | ].
  destruct (handleUpdateExpense_replaces (R := UTC.runtime)
              (Sample.browser Sample.three Sample.feb15) Sample.three Scenes.dinner
              (Scenes.page Sample.three clearedFilters) stored_three)
    as [s' [w' [Hrun [Hnew [Hid _]]]]].
  exists s', w'. split; [ exact Hrun | ]. split; [ exact Hid | ].
  rewrite Hnew. vm_compute. reflexivity.
Defined.

Lemma handleAddExpense_shown_witness :
  stored (Sample.browser Sample.three Sample.feb15)
    (page_expenses (Scenes.page Sample.three Sample.foodOnly)) /\
  exists s' w',
    handleAddExpense Scenes.taxi (Scenes.page Sample.three Sample.foodOnly)
      (Sample.browser Sample.three Sample.feb15) = (Normal s', w') /\
    ~ In Scenes.taxi (page_filteredExpenses (filterEffect (R := UTC.runtime) s')).
Proof.
  split; [ exact stored_three | ].
  destruct (handleAddExpense_shown (R := UTC.runtime)
              (Sample.browser Sample.three Sample.feb15)
              (Scenes.page Sample.three Sample.foodOnly) Scenes.taxi stored_three)
    as [s' [w' [Hrun [_ [_ Hshown]]]]].
  exists s', w'. split; [ exact Hrun | ].
  intros Hin. apply Hshown in Hin. destruct Hin as [Hin | [_ Hp]].
  - vm_compute in Hin. intuition discriminate.
  - vm_compute in Hp. discriminate Hp.
Defined.

(** ** Narrowing the criteria *)

Section Narrowing.
Context {N : Number} {R : Runtime}.

(** X13. Narrowing the criteria only erases rows: when every record that
    passes [g] passes [f], what is shown under [g] is what is shown
    under [f] without the records that fail [g], the others in the order
    they had.  Choosing a category in the select, or a start or an end
    date, is such a narrowing of the criteria with that input cleared. *)
Theorem narrowing_erases_rows (l : list (Expense N)) (f : ExpenseFilters) :
  validDates l ->
  (forall g, (forall e, passes g e = true -> passes f e = true) ->
             filteredExpenses l g = filter (passes g) (filteredExpenses l f)) /\
  (forall c,
      filteredExpenses l (onCategoryChange f (Only c))
      = filter (fun e => category_eqb (category e) c)
          (filteredExpenses l (onCategoryChange f All))) /\
  (forall d,
      filteredExpenses l (onStartDateChange f d)
      = filter (passes (onStartDateChange f d))
          (filteredExpenses l (onStartDateChange f ""))) /\
  (forall d,
      filteredExpenses l (onEndDateChange f d)
      = filter (passes (onEndDateChange f d))
          (filteredExpenses l (onEndDateChange f ""))).
Proof.
  intros Hv.
  assert (Hnarrow : forall f0 g,
             (forall e, passes g e = true -> passes f0 e = true) ->
             filteredExpenses l g = filter (passes g) (filteredExpenses l f0)).
  { intros f0 g Hg. rewrite !filteredExpenses_sort.
    rewrite filter_sort by (apply validDates_filter, Hv).
    rewrite filter_filter. f_equal. apply filter_ext. intros e.
    destruct (passes g e) eqn:E; [ rewrite (Hg e E) | rewrite andb_false_r ];
      reflexivity. }
  split; [ apply Hnarrow | ]. split; [ | split ].
  - intros c. rewrite (Hnarrow (onCategoryChange f All) (onCategoryChange f (Only c))).
    + apply filter_ext_in. intros e He.
      rewrite filteredExpenses_sort in He.
      apply (Permutation_in e (sort_Permutation compareDates _)) in He.
      apply filter_In in He. destruct He as [_ He]. revert He.
      unfold passes, onCategoryChange. cbn.
      destruct (category_eqb (category e) c); cbn; [ exact (fun H => H) | reflexivity ].
    + intros e. unfold passes, onCategoryChange. cbn.
      destruct (category_eqb (category e) c); [ exact (fun H => H) | discriminate ].
  - intros d. apply Hnarrow. intros e. unfold passes.
    cbn [filterCategory searchQuery startDate endDate onStartDateChange].
    change (truthy (Some "")) with (@None string).
    intros H. apply andb_prop in H. destruct H as [H He].
    apply andb_prop in H. destruct H as [H _]. rewrite H, He. reflexivity.
  - intros d. apply Hnarrow. intros e. unfold passes.
    cbn [filterCategory searchQuery startDate endDate onEndDateChange].
    change (truthy (Some "")) with (@None string).
    intros H. apply andb_prop in H. destruct H as [H _]. rewrite H. reflexivity.
Qed.

End Narrowing.

Lemma narrowing_erases_rows_witness :
  validDates (R := UTC.runtime) Scenes.four /\
  filteredExpenses (R := UTC.runtime) Scenes.four
    (onCategoryChange clearedFilters (Only Food))
  = [Sample.groceries; Sample.lunch; Scenes.snack].
Proof.
  split; [ exact validDates_four | ].
  rewrite (proj1 (proj2 (narrowing_erases_rows (R := UTC.runtime) Scenes.four
                           clearedFilters validDates_four)) Food).
  vm_compute. reflexivity.
Defined.

(** ** [RecentExpenses], [cn] and the quoting of the export *)

Section RecentFacts.
Context {N : Number} {R : Runtime}.

Lemma StronglySorted_split (rel : Expense N -> Expense N -> Prop)
    (front back : list (Expense N)) :
  StronglySorted rel (front ++ back) ->
  StronglySorted rel front /\
  (forall a b, In a front -> In b back -> rel a b).
Proof.
  induction front as [ | x front IH ]; cbn [app]; intros H.
  - split; [ constructor | intros a b [] ].
  - apply StronglySorted_inv in H. destruct H as [Hs Hx].
    destruct (IH Hs) as [Hfront Hcross]. split.
    + constructor; [ exact Hfront | ].
      apply Forall_app in Hx. apply Hx.
    + intros a b [<- | Ha] Hb.
      * apply (proj1 (Forall_forall _ _) Hx). apply in_or_app. right. exact Hb.
      * apply Hcross; assumption.
Qed.

(** X14. [RecentExpenses] shows the five newest records, or all when
    there are fewer: for valid dates they stand newest first and none
    of the records left out is newer than one that is shown.  The array
    of the caller is left sorted, newest first from its first record to
    its last, with the same records; what is shown is its first five. *)
Theorem RecentExpenses_newest_five (l : list (Expense N)) :
  validDates l ->
  List.length (fst (RecentExpenses l)) = Nat.min 5 (List.length l) /\
  Permutation (snd (RecentExpenses l)) l /\
  StronglySorted newestFirst (snd (RecentExpenses l)) /\
  fst (RecentExpenses l) = firstn 5 (snd (RecentExpenses l)) /\
  snd (RecentExpenses l)
  = (fst (RecentExpenses l) ++ skipn 5 (snd (RecentExpenses l)))%list /\
  StronglySorted newestFirst (fst (RecentExpenses l)) /\
  (forall a b,
      In a (fst (RecentExpenses l)) -> In b (skipn 5 (snd (RecentExpenses l))) ->
      newestFirst a b).
Proof.
  intros Hv. unfold RecentExpenses. cbn [fst snd].
  pose proof (sort_Permutation compareDates l) as Hp.
  assert (Hs : StronglySorted newestFirst (sort compareDates l)).
  { apply Sorted_newestFirst;
      [ apply (validDates_Permutation l); [ apply Permutation_sym, Hp | exact Hv ]
      | apply sort_Sorted; exact compareDates_total ]. }
  split; [ rewrite length_firstn, (Permutation_length Hp); reflexivity | ].
  split; [ exact Hp | ].
  split; [ exact Hs | ].
  split; [ reflexivity | ].
  split; [ symmetry; apply firstn_skipn | ].
  rewrite <- (firstn_skipn 5 (sort compareDates l)) in Hs.
  apply StronglySorted_split in Hs. exact Hs.
Qed.

End RecentFacts.

Lemma validDates_seven : validDates (R := UTC.runtime) Scenes.seven.
Proof. repeat constructor; eexists; vm_compute; reflexivity. Qed.

Lemma RecentExpenses_newest_five_witness :
  validDates (R := UTC.runtime) Scenes.seven /\
  fst (RecentExpenses (R := UTC.runtime) Scenes.seven)
  = [Scenes.taxi; Scenes.cinema; Sample.electricity; Sample.groceries; Scenes.shoes] /\
  snd (RecentExpenses (R := UTC.runtime) Scenes.seven)
  = [Scenes.taxi; Scenes.cinema; Sample.electricity; Sample.groceries; Scenes.shoes;
     Sample.lunch; Scenes.snack] /\
  StronglySorted (newestFirst (R := UTC.runtime))
    (snd (RecentExpenses (R := UTC.runtime) Scenes.seven)) /\
  (forall a b,
      In a (fst (RecentExpenses (R := UTC.runtime) Scenes.seven)) ->
      In b [Sample.lunch; Scenes.snack] ->
      newestFirst (R := UTC.runtime) a b).
Proof.
  split; [ exact validDates_seven | ].
  split; [ vm_compute; reflexivity | ]. split; [ vm_compute; reflexivity | ].
  pose proof (RecentExpenses_newest_five (R := UTC.runtime) Scenes.seven validDates_seven)
    as [_ [_ [Hs [_ [_ [_ Hcross]]]]]].
  split; [ exact Hs | exact Hcross ].
Defined.

Lemma join_two (sep a : string) (rest : list string) :
  join sep (a :: rest)
  = match rest with
    | [] => a
    | _ :: _ => (a ++ sep ++ join sep rest)%string
    end.
Proof.
  destruct rest as [ | b rest ]; [ reflexivity | ].
  unfold join. cbn [fold_left]. revert a b.
  induction rest as [ | c rest IH ]; intros a b; cbn [fold_left]; [ reflexivity | ].
  rewrite (IH (a ++ sep ++ b)%string c), (IH b c).
  rewrite !append_assoc. reflexivity.
Qed.

Lemma join_app (sep : string) (parts1 parts2 : list string) :
  parts1 <> [] -> parts2 <> [] ->
  join sep (parts1 ++ parts2) = (join sep parts1 ++ sep ++ join sep parts2)%string.
Proof.
  intros H1 H2. destruct parts2 as [ | b parts2 ]; [ destruct (H2 eq_refl) | ]. clear H2.
  induction parts1 as [ | a parts1 IH ]; [ destruct (H1 eq_refl) | ]. clear H1.
  cbn [app]. rewrite (join_two sep a (parts1 ++ b :: parts2)).
  destruct parts1 as [ | a' parts1 ]; [ reflexivity | ].
  cbn [app]. cbn [app] in IH. rewrite IH; [ | discriminate ].
  rewrite (join_two sep a (a' :: parts1)), !append_assoc. reflexivity.
Qed.

(** X15. [cn] leaves out what is falsy ([undefined], [null], [false] and
    the empty string): such an entry adds neither text nor a space,
    wherever it stands, and the result for two lists of classes one
    after the other is the two results with one space between them. *)
Theorem cn_skips_falsy :
  (forall before c after,
      truthy c = None -> cn (before ++ c :: after) = cn (before ++ after)) /\
  (forall l, Forall (fun c => truthy c = None) l -> cn l = "") /\
  (forall l1 l2,
      cn l1 <> "" -> cn l2 <> "" ->
      cn (l1 ++ l2) = (cn l1 ++ " " ++ cn l2)%string).
Proof.
  split; [ | split ].
  - intros before c after Hc. unfold cn.
    rewrite !flat_map_app. cbn [flat_map]. rewrite Hc. reflexivity.
  - intros l Hl. unfold cn.
    induction Hl as [ | c l Hc _ IH ]; [ reflexivity | ].
    cbn [flat_map]. rewrite Hc. exact IH.
  - intros l1 l2. unfold cn. rewrite flat_map_app. intros H1 H2.
    apply join_app; intros E; [ apply H1 | apply H2 ]; rewrite E; reflexivity.
Qed.

Lemma replaceQuotes_injective (s t : string) :
  replaceQuotes s = replaceQuotes t -> s = t.
Proof.
  revert t. induction s as [ | c s IH ]; intros [ | d t ]; cbn [replaceQuotes].
  - reflexivity.
  - destruct (Ascii.eqb d doubleQuote); discriminate.
  - destruct (Ascii.eqb c doubleQuote); discriminate.
  - destruct (Ascii.eqb_spec c doubleQuote) as [Ec | Ec],
             (Ascii.eqb_spec d doubleQuote) as [Ed | Ed]; intros E.
    + injection E as E. rewrite (IH t E), Ec, Ed. reflexivity.
    + injection E as E1 _. destruct (Ed (eq_sym E1)).
    + injection E as E1 _. destruct (Ec E1).
    + injection E as E1 E. rewrite (IH t E), E1. reflexivity.
Qed.

(** X16. The quoting of the export loses nothing: two descriptions that
    differ give fields that differ, so the description can be read back
    from the field. *)
Theorem csv_description_field_injective (s t : string) :
  s <> t ->
  (String doubleQuote (replaceQuotes s) ++ String doubleQuote EmptyString)%string
  <> (String doubleQuote (replaceQuotes t) ++ String doubleQuote EmptyString)%string.
Proof.
  intros Hne E. apply Hne, replaceQuotes_injective.
  cbn [append] in E. injection E as E.
  revert E. generalize (replaceQuotes s) as a, (replaceQuotes t) as b.
  induction a as [ | c a IH ]; intros [ | d b ]; cbn [append]; intros E.
  - reflexivity.
  - injection E as _ E. destruct b; discriminate E.
  - injection E as _ E. destruct a; discriminate E.
  - injection E as -> E. rewrite (IH b E). reflexivity.
Qed.

Lemma csv_description_field_injective_witness :
  Sample.joes <> "Lunch at Joe's, downtown" /\
  (String doubleQuote (replaceQuotes Sample.joes) ++ String doubleQuote EmptyString)%string
  <> (String doubleQuote (replaceQuotes "Lunch at Joe's, downtown")
      ++ String doubleQuote EmptyString)%string.
Proof.
  assert (H : Sample.joes <> "Lunch at Joe's, downtown") by (vm_compute; discriminate).
  split; [ exact H | ].
  exact (csv_description_field_injective Sample.joes "Lunch at Joe's, downtown" H).
Defined.

(** ** The form *)

Lemma SF_positive_of_checks (a : spec_float) :
  SFeqb a a = true -> SFleb a (S754_zero false) = false ->
  SFltb (S754_zero false) a = true.
Proof.
  unfold SFeqb, SFleb, SFltb, SFcompare.
  destruct a as [ [ | ] | [ | ] | | [ | ] ma ea ]; cbn; try discriminate; reflexivity.
Qed.

(** What passes [isNaN(amount) || amount <= 0] is above zero. *)
Lemma positive_of_checks (a : float) :
  PrimFloat.is_nan a = false -> PrimFloat.leb a 0%float = false ->
  PrimFloat.ltb 0%float a = true.
Proof.
  unfold PrimFloat.is_nan. rewrite eqb_spec, leb_spec, ltb_spec, Prim2SF_zero.
  intros Hn. apply SF_positive_of_checks.
  destruct (SFeqb (Prim2SF a) (Prim2SF a)); [ reflexivity | discriminate Hn ].
Qed.

Section FormFacts.
Context {R : Runtime} {H : FormHost}.

Lemma orElse_kept (a b : string) : a <> "" -> orElse (Some a) b = a.
Proof. destruct a; [ intros E; destruct (E eq_refl) | reflexivity ]. Qed.

Lemma validateForm_noErrors (data : ExpenseFormData) :
  noErrors (validateForm data) = true ->
  form_date data <> "" /\
  PrimFloat.ltb 0%float (parseFloat (form_amount data)) = true /\
  (3 <= String.length (trim (form_description data)))%nat.
Proof.
  unfold noErrors, validateForm; cbn [error_date error_amount error_description].
  destruct (isEmpty (form_date data)) eqn:Ed; [ discriminate | ].
  destruct (isEmpty (form_amount data) || isEmpty (trim (form_amount data)));
    [ discriminate | ].
  destruct (PrimFloat.is_nan (parseFloat (form_amount data))) eqn:En; cbn [orb];
    [ discriminate | ].
  destruct (PrimFloat.leb (parseFloat (form_amount data)) 0%float) eqn:El;
    [ discriminate | ].
  destruct (isEmpty (form_description data) || isEmpty (trim (form_description data)));
    [ discriminate | ].
  destruct (Nat.ltb_spec (String.length (trim (form_description data))) 3) as [Hl | Hl];
    [ discriminate | ].
  intros _. split; [ | split ].
  - intros E. rewrite E in Ed. discriminate Ed.
  - apply positive_of_checks; assumption.
  - exact Hl.
Qed.

Lemma handleSubmit_Submitted (initialData : option (Expense Float64))
    (drawn : Drawn) (s s' : FormState) (e : Expense Float64) :
  handleSubmit initialData drawn s = (Submitted e, s') ->
  noErrors (validateForm (formData s)) = true /\
  isSubmitting s' = false /\
  exists t,
    Date_parse (form_date (formData s)) = Some t /\
    e = Build_Expense (N := Float64)
          (orElse (option_map id initialData) (drawnId drawn))
          (toISOString t)
          (parseFloat (form_amount (formData s)))
          (form_category (formData s))
          (trim (form_description (formData s)))
          (orElse (option_map createdAt initialData) (toISOString (at_createdAt drawn)))
          (toISOString (at_updatedAt drawn)).
Proof.
  unfold handleSubmit.
  destruct (noErrors (validateForm (formData s))); cbn [negb]; [ | discriminate ].
  destruct (Date_parse (form_date (formData s))) as [t | ]; [ | discriminate ].
  intros E. injection E as <- <-. split; [ reflexivity | ]. split; [ reflexivity | ].
  exists t. split; reflexivity.
Qed.

(** X17. What the form submits: [onSubmit] is only called with an amount
    above zero and a trimmed description of at least three characters;
    the date is the chosen day as [toISOString] writes it and
    [updatedAt] the time of the call; when a record is edited its id and
    [createdAt] are kept, and a new record takes the generated id. *)
Theorem handleSubmit_submits_valid (initialData : option (Expense Float64))
    (drawn : Drawn) (s s' : FormState) (e : Expense Float64) :
  handleSubmit initialData drawn s = (Submitted e, s') ->
  PrimFloat.ltb 0%float (amount e) = true /\
  (3 <= String.length (description e))%nat /\
  amount e = parseFloat (form_amount (formData s)) /\
  description e = trim (form_description (formData s)) /\
  category e = form_category (formData s) /\
  (exists t, Date_parse (form_date (formData s)) = Some t /\ date e = toISOString t) /\
  updatedAt e = toISOString (at_updatedAt drawn) /\
  (forall old, initialData = Some old ->
     (id old <> "" -> id e = id old) /\
     (createdAt old <> "" -> createdAt e = createdAt old)) /\
  (initialData = None ->
     id e = drawnId drawn /\ createdAt e = toISOString (at_createdAt drawn)) /\
  isSubmitting s' = false.
Proof.
  intros Hs. destruct (handleSubmit_Submitted _ _ _ _ _ Hs) as [Hv [Hsub [t [Ht ->]]]].
  destruct (validateForm_noErrors _ Hv) as [_ [Hpos Hlen]]. cbn.
  split; [ exact Hpos | ]. split; [ exact Hlen | ].
  split; [ reflexivity | ]. split; [ reflexivity | ]. split; [ reflexivity | ].
  split; [ exists t; split; [ exact Ht | reflexivity ] | ].
  split; [ reflexivity | ].
  split; [ intros old ->; cbn; split; apply orElse_kept | ].
  split; [ intros ->; split; reflexivity | exact Hsub ].
Qed.

Lemma positiveAmounts_replace (l : list (Expense Float64)) (id0 : string)
    (e : Expense Float64) :
  positiveAmounts l -> PrimFloat.ltb 0%float (amount e) = true ->
  positiveAmounts (map (fun x => if String.eqb (id x) id0 then e else x) l).
Proof.
  unfold positiveAmounts. intros Hl He.
  induction Hl as [ | x l Hx _ IH ]; cbn [map]; constructor; [ | exact IH ].
  destruct (String.eqb (id x) id0); assumption.
Qed.

(** X18. Amounts stay positive: when every stored amount is above zero,
    it is still so after the page has handled what the form submitted,
    be it a new record or an edited one. *)
Theorem form_keeps_amounts_positive (w : World Float64) (l : list (Expense Float64))
    (page : PageState Float64) (drawn : Drawn) (s s' : FormState)
    (e : Expense Float64) :
  stored w l -> positiveAmounts l ->
  handleSubmit (editingExpense page) drawn s = (Submitted e, s') ->
  exists page' w',
    onSubmit page e w = (Normal page', w') /\
    positiveAmounts (page_expenses page').
Proof.
  intros Hl Hp Hs.
  destruct (handleSubmit_Submitted _ _ _ _ _ Hs) as [Hv [_ [t [_ He]]]].
  destruct (validateForm_noErrors _ Hv) as [_ [Hpos _]].
  assert (Ha : PrimFloat.ltb 0%float (amount e) = true) by (rewrite He; exact Hpos).
  clear He Hs Hv Hpos. unfold onSubmit.
  destruct (editingExpense page) as [old | ].
  - unfold handleUpdateExpense, bind.
    rewrite (updateExpense_run w l (id e) (asPartial e) Hl). cbv zeta.
    eexists. eexists. split; [ reflexivity | ]. cbn [page_expenses].
    apply (positiveAmounts_replace l (id e)
             (spread e (asPartial e) (toISOString (clock w))) Hp Ha).
  - unfold handleAddExpense, bind. rewrite (addExpense_run w l e Hl).
    eexists. eexists. split; [ reflexivity | ]. cbn [page_expenses].
    apply Forall_app. split; [ exact Hp | ]. constructor; [ exact Ha | constructor ].
Qed.

End FormFacts.

Lemma handleSubmit_submits_valid_witness :
  fst (handleSubmit (R := UTC.runtime) (H := Keyboard.host) None
         Scenes.taxiDrawn Scenes.taxiForm)
  = Submitted (Build_Expense (N := Float64) "4" "2024-02-12T00:00:00.000Z" 18.5%float
                 Transportation "Taxi"
                 "2024-02-15T00:00:00.000Z" "2024-02-15T00:00:00.000Z") /\
  PrimFloat.ltb 0%float 18.5%float = true.
Proof.
  split; [ vm_compute; reflexivity | ].
  exact (proj1 (handleSubmit_submits_valid (R := UTC.runtime) (H := Keyboard.host)
                  None Scenes.taxiDrawn Scenes.taxiForm _ _ eq_refl)).
Defined.

Lemma positiveAmounts_three : positiveAmounts Sample.three.
Proof. repeat constructor. Qed.

Lemma form_keeps_amounts_positive_witness :
  stored (Sample.browser Sample.three Sample.feb15) Sample.three /\
  positiveAmounts Sample.three /\
  exists e s' page' w',
    handleSubmit (R := UTC.runtime) (H := Keyboard.host) None
      Scenes.taxiDrawn Scenes.taxiForm = (Submitted e, s') /\
    onSubmit (R := UTC.runtime) (Scenes.page Sample.three clearedFilters) e
      (Sample.browser Sample.three Sample.feb15) = (Normal page', w') /\
    positiveAmounts (page_expenses page').
Proof.
  split; [ exact stored_three | ]. split; [ exact positiveAmounts_three | ].
  eexists. eexists.
  destruct (form_keeps_amounts_positive (R := UTC.runtime) (H := Keyboard.host)
              (Sample.browser Sample.three Sample.feb15) Sample.three
              (Scenes.page Sample.three clearedFilters)
              Scenes.taxiDrawn Scenes.taxiForm _ _
              stored_three positiveAmounts_three eq_refl)
    as [page' [w' [Hrun Hpos]]].
  exists page', w'. split; [ reflexivity | ]. split; [ exact Hrun | exact Hpos ].
Defined.

(** ** The chart *)

Lemma SFleb_trans (a b c : spec_float) :
  specNonneg a -> specNonneg b -> specNonneg c ->
  SFleb a b = true -> SFleb b c = true -> SFleb a c = true.
Proof.
  unfold SFleb, SFcompare.
  destruct a as [ [ | ] | [ | ] | | [ | ] ma ea ]; cbn; try contradiction;
  destruct b as [ [ | ] | [ | ] | | [ | ] mb eb ]; cbn; try contradiction;
  destruct c as [ [ | ] | [ | ] | | [ | ] mc ec ]; cbn; try contradiction;
  intros _ _ _; try discriminate; try reflexivity; sf_cases.
Qed.

Lemma leb_trans (x y z : float) :
  nonneg x -> nonneg y -> nonneg z ->
  PrimFloat.leb x y = true -> PrimFloat.leb y z = true -> PrimFloat.leb x z = true.
Proof. rewrite !leb_spec. apply SFleb_trans. Qed.

Lemma nonneg_not_nan (x : float) : nonneg x -> PrimFloat.is_nan x = false.
Proof.
  unfold nonneg, PrimFloat.is_nan. rewrite eqb_spec. unfold SFeqb, SFcompare.
  destruct (Prim2SF x) as [ [ | ] | [ | ] | | [ | ] m e ]; cbn; try contradiction;
    intros _; try reflexivity.
  rewrite Z.compare_refl. change (Pos.compare_cont Eq m m) with (Pos.compare m m).
  rewrite Pos.compare_refl. reflexivity.
Qed.

Lemma nonneg_not_negative_zero (x : float) : nonneg x -> isZero true x = false.
Proof.
  unfold nonneg, isZero.
  destruct (Prim2SF x) as [ [ | ] | [ | ] | | [ | ] m e ]; cbn; try contradiction;
    reflexivity.
Qed.

Lemma nonneg_above_neg_infinity (x : float) :
  nonneg x -> PrimFloat.ltb PrimFloat.neg_infinity x = true.
Proof.
  unfold nonneg. rewrite ltb_spec.
  change (Prim2SF PrimFloat.neg_infinity) with (S754_infinity true).
  destruct (Prim2SF x) as [ [ | ] | [ | ] | | [ | ] m e ]; cbn; try contradiction;
    reflexivity.
Qed.

Lemma sumAmounts_nonneg (l : list (Expense Float64)) :
  positiveAmounts l -> nonneg (sumAmounts l).
Proof.
  unfold sumAmounts. generalize nonneg_zero.
  change (@zero Float64) with 0%float. generalize 0%float as acc.
  induction l as [ | e l IH ]; intros acc Hacc Hl; cbn [fold_left]; [ exact Hacc | ].
  apply Forall_cons_iff in Hl. destruct Hl as [He Hl].
  apply IH; [ | exact Hl ].
  apply nonneg_add; [ exact Hacc | apply positive_nonneg, He ].
Qed.

Lemma positiveAmounts_filter (p : Expense Float64 -> bool) (l : list (Expense Float64)) :
  positiveAmounts l -> positiveAmounts (filter p l).
Proof.
  unfold positiveAmounts. rewrite !Forall_forall. intros Hl e He.
  apply filter_In in He. apply Hl, He.
Qed.

(** The loop of [Math.max] from a value that is not negative, over
    values none of which is. *)
Lemma Math_max_loop (values : list float) (highest : float) :
  nonneg highest -> Forall nonneg values ->
  let result :=
    fold_left
      (fun highest number =>
         if isZero false number && isZero true highest then number
         else if PrimFloat.ltb highest number then number
         else highest)
      values highest in
  nonneg result /\
  PrimFloat.leb highest result = true /\
  Forall (fun v => PrimFloat.leb v result = true) values.
Proof.
  intros Hh Hv. revert highest Hh.
  induction Hv as [ | v values Hv _ IH ]; intros highest Hh; cbn [fold_left].
  - split; [ exact Hh | ]. split; [ apply leb_refl, Hh | constructor ].
  - rewrite (nonneg_not_negative_zero highest Hh), andb_false_r.
    destruct (PrimFloat.ltb highest v) eqn:E.
    + destruct (IH v Hv) as [Hr [Hle Hall]]. split; [ exact Hr | ].
      split; [ | constructor; assumption ].
      apply (leb_trans highest v); try assumption. apply leb_of_ltb; assumption.
    + destruct (IH highest Hh) as [Hr [Hle Hall]]. split; [ exact Hr | ].
      split; [ exact Hle | ]. constructor; [ | exact Hall ].
      apply (leb_trans v highest); try assumption. apply leb_of_not_ltb; assumption.
Qed.

Lemma Math_max_bounds (values : list float) :
  values <> [] -> Forall nonneg values ->
  nonneg (Math_max values) /\
  Forall (fun v => PrimFloat.leb v (Math_max values) = true) values.
Proof.
  intros Hne Hv. unfold Math_max.
  assert (Hnan : existsb PrimFloat.is_nan values = false).
  { clear Hne. induction Hv as [ | v values Hv _ IH ]; [ reflexivity | ].
    cbn [existsb]. rewrite (nonneg_not_nan v Hv), IH. reflexivity. }
  rewrite Hnan. destruct Hv as [ | v values Hv Hvs ]; [ destruct (Hne eq_refl) | ].
  cbn [fold_left].
  replace (isZero true PrimFloat.neg_infinity) with false by reflexivity.
  rewrite andb_false_r, (nonneg_above_neg_infinity v Hv).
  destruct (Math_max_loop values v Hv Hvs) as [Hr [Hle Hall]].
  split; [ exact Hr | ]. constructor; assumption.
Qed.

Section ChartFacts.
Context {R : Runtime} {C : ChartHost}.

(** X19. The scale of the chart: for amounts above zero the greatest
    value [maxTotal] is a number, at least 1 and at least the total of
    every month, so that no bar divides by zero. *)
Theorem maxTotal_bounds (w : World Float64) (expenses : list (Expense Float64)) :
  positiveAmounts expenses ->
  PrimFloat.is_nan (maxTotal w expenses) = false /\
  PrimFloat.leb 1%float (maxTotal w expenses) = true /\
  Forall (fun d => PrimFloat.leb (snd d) (maxTotal w expenses) = true)
    (monthlyData w expenses).
Proof.
  intros Hp. unfold maxTotal.
  assert (Hv : Forall nonneg (map snd (monthlyData w expenses) ++ [1%float])).
  { apply Forall_app. split; [ | repeat constructor ].
    unfold monthlyData. rewrite map_map. cbn [snd].
    apply Forall_forall. intros v Hin. apply in_map_iff in Hin.
    destruct Hin as [slot [<- _]].
    apply sumAmounts_nonneg, positiveAmounts_filter, Hp. }
  destruct (Math_max_bounds _ (fun E => app_cons_not_nil _ _ _ (eq_sym E)) Hv)
    as [Hr Hall].
  split; [ apply nonneg_not_nan, Hr | ].
  apply Forall_app in Hall. destruct Hall as [Htotals Hone].
  split; [ apply (Forall_inv Hone) | ].
  apply Forall_forall. intros d Hd.
  apply (proj1 (Forall_forall _ _) Htotals). apply in_map, Hd.
Qed.


End ChartFacts.

Lemma maxTotal_bounds_witness :
  positiveAmounts Sample.three /\
  PrimFloat.leb 1%float
    (maxTotal (R := UTC.runtime) (C := Almanac.host)
       (Sample.browser Sample.three Sample.feb15) Sample.three) = true.
Proof.
  split; [ exact positiveAmounts_three | ].
  exact (proj1 (proj2 (maxTotal_bounds (R := UTC.runtime) (C := Almanac.host)
                         (Sample.browser Sample.three Sample.feb15) Sample.three
                         positiveAmounts_three))).
Defined.


(** ** Sums of amounts above zero *)

Lemma digits2_pos_lower (p : positive) : 2 ^ (Zpos (digits2_pos p) - 1) <= Zpos p.
Proof.
  induction p as [p IH | p IH | ]; cbn [digits2_pos]; [ | | cbn; lia ].
  - rewrite Pos2Z.inj_succ.
    replace (Z.succ (Zpos (digits2_pos p)) - 1) with (Z.succ (Zpos (digits2_pos p) - 1)) by lia.
    rewrite Z.pow_succ_r by lia. lia.
  - rewrite Pos2Z.inj_succ.
    replace (Z.succ (Zpos (digits2_pos p)) - 1) with (Z.succ (Zpos (digits2_pos p) - 1)) by lia.
    rewrite Z.pow_succ_r by lia. lia.
Qed.

Lemma shr_1_half (mrs : shr_record) :
  0 <= shr_m mrs -> shr_m (shr_1 mrs) = shr_m mrs / 2.
Proof.
  destruct mrs as [m r s]. cbn [shr_m shr_1].
  destruct m as [ | [p | p | ] | p ]; cbn [shr_m]; intros Hm; try lia.
  - reflexivity.
  - apply (Z.div_unique _ 2 (Zpos p) 1); lia.
  - apply (Z.div_unique _ 2 (Zpos p) 0); lia.
  - reflexivity.
Qed.

Lemma pow2_xO (p : positive) : 2 ^ Zpos p~0 = 2 ^ Zpos p * 2 ^ Zpos p.
Proof.
  replace (Zpos p~0) with (Zpos p + Zpos p) by lia.
  apply Z.pow_add_r; lia.
Qed.

Lemma pow2_xI (p : positive) : 2 ^ Zpos p~1 = 2 * (2 ^ Zpos p * 2 ^ Zpos p).
Proof.
  replace (Zpos p~1) with (1 + Zpos p~0) by lia.
  rewrite Z.pow_add_r, pow2_xO by lia. reflexivity.
Qed.

Lemma iter_pos_shr_1_div (p : positive) (mrs : shr_record) :
  0 <= shr_m mrs -> shr_m (iter_pos shr_1 p mrs) = shr_m mrs / 2 ^ Zpos p.
Proof.
  revert mrs. induction p as [p IH | p IH | ]; intros mrs Hm; cbn [iter_pos].
  - rewrite IH by (apply iter_pos_shr_1_nonneg, shr_1_nonneg, Hm).
    rewrite IH by (apply shr_1_nonneg, Hm).
    rewrite shr_1_half by exact Hm.
    rewrite !Z.div_div by lia. rewrite pow2_xI. f_equal; lia.
  - rewrite IH by (apply iter_pos_shr_1_nonneg, Hm).
    rewrite IH by exact Hm.
    rewrite !Z.div_div by lia. rewrite pow2_xO. reflexivity.
  - rewrite shr_1_half by exact Hm. reflexivity.
Qed.

Section RoundingUp.
Variables prec emax : Z.
Hypothesis prec_positive : 0 < prec.

Lemma shr_fexp_positive (m e : Z) (l : location) :
  0 < m -> SpecFloat.emin prec emax <= e ->
  0 < shr_m (fst (shr_fexp prec emax m e l)) /\
  SpecFloat.emin prec emax <= snd (shr_fexp prec emax m e l).
Proof.
  intros Hm He. unfold shr_fexp, shr.
  assert (H0 : shr_m (shr_record_of_loc m l) = m)
    by (destruct l as [ | [ | | ] ]; reflexivity).
  destruct (SpecFloat.fexp prec emax (Zdigits2 m + e) - e) as [ | p | p ] eqn:En; cbn [fst snd];
    [ rewrite H0; split; assumption | | rewrite H0; split; assumption ].
  split; [ | lia ].
  rewrite iter_pos_shr_1_div by lia. rewrite H0.
  apply Z.div_str_pos. split; [ lia | ].
  destruct m as [ | q | q ]; try lia. cbn [Zdigits2] in En.
  unfold SpecFloat.fexp, SpecFloat.emin in *.
  apply (Z.le_trans _ (2 ^ (Zpos (digits2_pos q) - 1))); [ | apply digits2_pos_lower ].
  apply Z.pow_le_mono_r; lia.
Qed.

Lemma round_nearest_even_positive (m : Z) (l : location) :
  0 < m -> 0 < round_nearest_even m l.
Proof.
  intros H. unfold round_nearest_even.
  destruct l as [ | [ | | ] ]; try destruct (Z.even m); lia.
Qed.

Lemma binary_round_aux_positive (m e : Z) (l : location) :
  0 < m -> SpecFloat.emin prec emax <= e ->
  specPositive (binary_round_aux prec emax false m e l).
Proof.
  intros Hm He. unfold binary_round_aux.
  destruct (shr_fexp_positive m e l Hm He) as [H1 E1].
  destruct (shr_fexp prec emax m e l) as [mrs' e']. cbn [fst snd] in H1, E1.
  destruct (shr_fexp_positive _ e' loc_Exact
              (round_nearest_even_positive _ (loc_of_shr_record mrs') H1) E1) as [H2 _].
  destruct (shr_fexp prec emax (round_nearest_even (shr_m mrs') (loc_of_shr_record mrs'))
              e' loc_Exact) as [mrs'' e'']. cbn [fst] in H2.
  destruct (shr_m mrs'') as [ | p | p ]; try lia.
  destruct (e'' <=? emax - prec); exact I.
Qed.

Lemma bounded_emin (m : positive) (e : Z) :
  bounded prec emax m e = true -> SpecFloat.emin prec emax <= e.
Proof.
  unfold bounded, canonical_mantissa, SpecFloat.fexp, SpecFloat.emin. intros H.
  apply andb_prop in H. destruct H as [H _]. apply Z.eqb_eq in H. lia.
Qed.

Lemma binary_round_positive (m : positive) (e : Z) :
  SpecFloat.emin prec emax <= e ->
  specPositive (binary_round prec emax false m e).
Proof.
  intros He. unfold binary_round, shl_align.
  destruct (SpecFloat.fexp prec emax (Zpos (digits2_pos m) + e) - e) as [ | p | p ] eqn:En.
  - apply binary_round_aux_positive; [ lia | exact He ].
  - apply binary_round_aux_positive; [ lia | exact He ].
  - apply binary_round_aux_positive; [ lia | unfold SpecFloat.fexp, SpecFloat.emin; lia ].
Qed.

End RoundingUp.

Lemma SFadd_positive (prec emax : Z) (x y : spec_float) :
  0 < prec ->
  SpecFloat.valid_binary prec emax x = true ->
  SpecFloat.valid_binary prec emax y = true ->
  specNonneg x -> specNonneg y -> specPositive x \/ specPositive y ->
  specPositive (SFadd prec emax x y).
Proof.
  intros Hprec Vx Vy.
  destruct x as [ [ | ] | [ | ] | | [ | ] mx ex ]; cbn [specNonneg]; try contradiction;
  destruct y as [ [ | ] | [ | ] | | [ | ] my ey ]; cbn [specNonneg specPositive SFadd];
    try contradiction; try tauto.
  intros _ _ _. cbn [SpecFloat.valid_binary] in Vx, Vy.
  pose proof (bounded_emin prec emax mx ex Vx) as Ex.
  pose proof (bounded_emin prec emax my ey Vy) as Ey.
  cbn [cond_Zopp]. unfold binary_normalize.
  destruct (shl_align mx ex (Z.min ex ey)) as [mx' ex'].
  destruct (shl_align my ey (Z.min ex ey)) as [my' ey']. cbn [fst Z.add].
  apply binary_round_positive; [ exact Hprec | lia ].
Qed.

Lemma positive_specPositive (x : float) :
  PrimFloat.ltb 0%float x = true <-> specPositive (Prim2SF x).
Proof.
  rewrite ltb_spec, Prim2SF_zero. unfold SFltb, SFcompare.
  destruct (Prim2SF x) as [ [ | ] | [ | ] | | [ | ] m e ]; cbn; split;
    first [ discriminate | contradiction | reflexivity | exact (fun _ => I) ].
Qed.

(** A sum of two doubles that are not negative, one of them above zero,
    is above zero. *)
Lemma positive_add (x y : float) :
  nonneg x -> nonneg y ->
  PrimFloat.ltb 0%float x = true \/ PrimFloat.ltb 0%float y = true ->
  PrimFloat.ltb 0%float (PrimFloat.add x y) = true.
Proof.
  intros Hx Hy Hpos. apply positive_specPositive. rewrite add_spec.
  apply SFadd_positive; [ reflexivity | apply Prim2SF_valid | apply Prim2SF_valid
                        | exact Hx | exact Hy | ].
  destruct Hpos as [H | H]; [ left | right ]; apply positive_specPositive, H.
Qed.

Lemma sumAmounts_positive_from (l : list (Expense Float64)) (acc : float) :
  nonneg acc -> positiveAmounts l ->
  PrimFloat.ltb 0%float acc = true \/ l <> [] ->
  PrimFloat.ltb 0%float
    (fold_left (fun sum (e : Expense Float64) => PrimFloat.add sum (amount e)) l acc)
  = true.
Proof.
  revert acc. induction l as [ | e l IH ]; intros acc Hacc Hl Hpos; cbn [fold_left].
  - destruct Hpos as [H | H]; [ exact H | destruct (H eq_refl) ].
  - apply Forall_cons_iff in Hl. destruct Hl as [He Hl].
    apply IH; [ apply nonneg_add; [ exact Hacc | apply positive_nonneg, He ] | exact Hl | ].
    left. apply positive_add; [ exact Hacc | apply positive_nonneg, He | right; exact He ].
Qed.

Lemma sumAmounts_positive (l : list (Expense Float64)) :
  positiveAmounts l -> l <> [] -> PrimFloat.ltb 0%float (sumAmounts l) = true.
Proof.
  intros Hl Hne.
  apply (sumAmounts_positive_from l 0%float nonneg_zero Hl). right. exact Hne.
Qed.

Section PositiveSummary.
Context {R : Runtime}.

Lemma categoryTotal_positive (w : World Float64) (l : list (Expense Float64))
    (e : Expense Float64) :
  positiveAmounts l -> In e l ->
  PrimFloat.ltb 0%float
    (totalOf (categoryTotals (calculateSummary w l)) (category e)) = true.
Proof.
  intros Hl He. unfold calculateSummary. cbn [categoryTotals].
  rewrite totalOf_fold by reflexivity.
  assert (E0 : totalOf (N := Float64) emptyTotals (category e) = 0%float)
    by (destruct (category e); reflexivity).
  rewrite E0.
  apply sumAmounts_positive_from;
    [ apply nonneg_zero | apply positiveAmounts_filter, Hl | right ].
  intros E.
  assert (Hin : In e (filter (fun x => category_eqb (category x) (category e)) l)).
  { apply filter_In. split; [ exact He | ]. apply category_eqb_eq. reflexivity. }
  rewrite E in Hin. destruct Hin.
Qed.

Lemma topCategory_present (w : World Float64) (l : list (Expense Float64))
    (c : ExpenseCategory) :
  positiveAmounts l ->
  totalOf (categoryTotals (calculateSummary w l)) c <> 0%float ->
  exists c', topCategory (calculateSummary w l) = Some c'.
Proof.
  intros Hl Hc.
  set (t := categoryTotals (calculateSummary w l)) in *.
  assert (Hn : Forall (fun entry => nonneg (snd entry)) t).
  { apply categoryTotals_nonneg; [ exact Hl | ].
    repeat constructor; apply nonneg_zero. }
  assert (Hs : scanned ([] ++ t) (fold_left (pickTop (N := Float64)) t (None, 0%float))).
  { apply pickTop_scan; [ exact Hn | apply nonneg_zero | ].
    split; [ reflexivity | constructor ]. }
  change (topCategory (calculateSummary w l))
    with (fst (fold_left (pickTop (N := Float64)) t (None, 0%float))).
  destruct (fold_left (pickTop (N := Float64)) t (None, 0%float)) as [[c' | ] m];
    [ exists c'; reflexivity | ].
  exfalso. destruct Hs as [_ Hz]. cbn [app] in Hz. apply Hc.
  unfold totalOf.
  destruct (find (fun entry => category_eqb (fst entry) c) t) as [entry | ] eqn:F;
    [ | reflexivity ].
  apply find_some in F. apply (proj1 (Forall_forall _ _) Hz entry), F.
Qed.

(** X21. For amounts above zero the summary of a list that is not empty
    has a total above zero, a total above zero for the category of each
    of its records, and a top category: [topCategory] is absent only
    for the empty list. *)
Theorem topCategory_absent_only_when_empty (w : World Float64)
    (l : list (Expense Float64)) :
  positiveAmounts l ->
  (topCategory (calculateSummary w l) = None <-> l = []) /\
  (l <> [] -> PrimFloat.ltb 0%float (totalExpenses (calculateSummary w l)) = true) /\
  (forall e, In e l ->
     PrimFloat.ltb 0%float
       (totalOf (categoryTotals (calculateSummary w l)) (category e)) = true).
Proof.
  intros Hl. split; [ | split ].
  - split; [ | intros ->; reflexivity ].
    destruct l as [ | e l ]; [ reflexivity | ]. intros Hnone. exfalso.
    destruct (topCategory_present w (e :: l) (category e) Hl) as [c' Hc'];
      [ | rewrite Hnone in Hc'; discriminate Hc' ].
    intros E.
    pose proof (categoryTotal_positive w (e :: l) e Hl (or_introl eq_refl)) as Hpos.
    rewrite E, ltb_irrefl in Hpos. discriminate Hpos.
  - intros Hne. apply sumAmounts_positive; assumption.
  - intros e He. apply categoryTotal_positive; assumption.
Qed.

End PositiveSummary.

Lemma topCategory_absent_only_when_empty_witness :
  positiveAmounts Sample.three /\
  (topCategory (calculateSummary (R := UTC.runtime)
                  (Sample.browser Sample.three Sample.feb15) Sample.three) = None
   <-> Sample.three = []).
Proof.
  split; [ exact positiveAmounts_three | ].
  exact (proj1 (topCategory_absent_only_when_empty (R := UTC.runtime)
                  (Sample.browser Sample.three Sample.feb15) Sample.three
                  positiveAmounts_three)).
Defined.

(** ** What can raise *)

Section Unguarded.
Context {N : Number}.

(** X22. [clearAllExpenses] is the one function of the adapter without a
    guard: where the storage cannot be reached it raises the
    SecurityError, while [getExpenses] and [saveExpenses] in the same
    browser return as if nothing had happened. *)
Theorem clearAllExpenses_unguarded (w : World N) (l : list (Expense N)) :
  hasWindow w = true -> accessDenied w = true ->
  clearAllExpenses w = (Throw SecurityError, w) /\
  getExpenses w = (Normal (JArray []), w) /\
  saveExpenses l w = (Normal tt, w).
Proof.
  destruct w as [window denied quota stored_item time]. cbn.
  intros -> ->. repeat split.
Qed.

End Unguarded.

Lemma clearAllExpenses_unguarded_witness :
  clearAllExpenses (Scenes.lockedBrowser Sample.three)
  = (Throw SecurityError, Scenes.lockedBrowser Sample.three).
Proof.
  exact (proj1 (clearAllExpenses_unguarded (Scenes.lockedBrowser Sample.three) []
                  eq_refl eq_refl)).
Defined.

(** ** The breakdown by category *)

Lemma digits2_pos_upper (p : positive) : Zpos p < 2 ^ Zpos (digits2_pos p).
Proof.
  induction p as [p IH | p IH | ]; cbn [digits2_pos]; [ | | cbn; lia ].
  - rewrite Pos2Z.inj_succ, Z.pow_succ_r by lia. lia.
  - rewrite Pos2Z.inj_succ, Z.pow_succ_r by lia. lia.
Qed.

Lemma iter_xO_pow (m d : positive) : Zpos (Pos.iter xO m d) = Zpos m * 2 ^ Zpos d.
Proof.
  induction d as [ | d IH ] using Pos.peano_ind.
  - cbn. lia.
  - rewrite Pos.iter_succ, Pos2Z.inj_xO, IH, Pos2Z.inj_succ, Z.pow_succ_r by lia. lia.
Qed.

Lemma shl_align_fst (m : positive) (e ez : Z) :
  ez <= e -> Zpos (fst (shl_align m e ez)) = Zpos m * 2 ^ (e - ez).
Proof.
  intros H. unfold shl_align.
  destruct (ez - e) as [ | d | d ] eqn:E; cbn [fst].
  - replace (e - ez) with 0 by lia. lia.
  - lia.
  - rewrite iter_xO_pow. replace (e - ez) with (Zpos d) by lia. reflexivity.
Qed.

Lemma binary_round_aux_opp (prec emax m e : Z) (l : location) :
  binary_round_aux prec emax true m e l
  = SFopp (binary_round_aux prec emax false m e l).
Proof.
  unfold binary_round_aux.
  destruct (shr_fexp prec emax m e l) as [mrs' e'].
  destruct (shr_fexp prec emax _ e' loc_Exact) as [mrs'' e''].
  destruct (shr_m mrs'') as [ | p | p ]; try reflexivity.
  destruct (e'' <=? emax - prec); reflexivity.
Qed.

Lemma binary_round_negative (prec emax : Z) (m : positive) (e : Z) :
  0 < prec -> SpecFloat.emin prec emax <= e ->
  specNegative (binary_round prec emax true m e).
Proof.
  intros Hp He. pose proof (binary_round_positive prec emax Hp m e He) as H.
  unfold binary_round in *.
  destruct (shl_align m e _) as [mz ez]. rewrite binary_round_aux_opp.
  destruct (binary_round_aux prec emax false (Zpos mz) ez loc_Exact) as [ [ | ] | [ | ] | | [ | ] m' e' ];
    cbn in *; try contradiction; exact I.
Qed.

(** Of two doubles in canonical form with the signs of a positive
    number, the one with the smaller exponent, or with the same exponent
    and the smaller mantissa, is the smaller once both are written with
    the lower exponent. *)
Lemma aligned_lt (prec emax : Z) (mx my : positive) (ex ey : Z) :
  0 < prec ->
  bounded prec emax mx ex = true -> bounded prec emax my ey = true ->
  SFltb (S754_finite false mx ex) (S754_finite false my ey) = true ->
  Zpos mx * 2 ^ (ex - Z.min ex ey) < Zpos my * 2 ^ (ey - Z.min ex ey).
Proof.
  intros Hp Bx By. unfold SFltb, SFcompare.
  destruct (Z.compare_spec ex ey) as [E | E | E]; [ | | discriminate ].
  - subst ey. change (Pos.compare_cont Eq mx my) with (Pos.compare mx my).
    destruct (Pos.compare_spec mx my) as [ | Hlt | ]; try discriminate. intros _.
    rewrite Z.min_id, Z.sub_diag. cbn. lia.
  - intros _. rewrite Z.min_l by lia. rewrite Z.sub_diag. change (2 ^ 0) with 1.
    unfold bounded, canonical_mantissa, SpecFloat.fexp, SpecFloat.emin in Bx, By.
    apply andb_prop in Bx, By. destruct Bx as [Bx _]. destruct By as [By _].
    apply Z.eqb_eq in Bx, By.
    pose proof (digits2_pos_upper mx) as Ux.
    pose proof (digits2_pos_lower my) as Ly.
    assert (Dy : Zpos (digits2_pos my) = prec) by lia.
    assert (Dx : Zpos (digits2_pos mx) <= prec) by lia.
    rewrite Dy in Ly.
    assert (Hx : Zpos mx < 2 ^ prec).
    { apply (Z.lt_le_trans _ (2 ^ Zpos (digits2_pos mx))); [ exact Ux | ].
      apply Z.pow_le_mono_r; lia. }
    assert (Hpow : 2 ^ prec = 2 * 2 ^ (prec - 1)).
    { replace prec with (Z.succ (prec - 1)) at 1 by lia.
      apply Z.pow_succ_r. lia. }
    assert (Hk : 2 <= 2 ^ (ey - ex)).
    { change 2 with (2 ^ 1) at 1. apply Z.pow_le_mono_r; lia. }
    assert (Hq : 0 < 2 ^ (prec - 1)) by (apply Z.pow_pos_nonneg; lia).
    nia.
Qed.

Lemma SFsub_sign (prec emax : Z) (x y : spec_float) :
  0 < prec ->
  SpecFloat.valid_binary prec emax x = true ->
  SpecFloat.valid_binary prec emax y = true ->
  specNonneg x -> specNonneg y -> SFltb x y = true ->
  specPositive (SFsub prec emax y x) /\ specNegative (SFsub prec emax x y).
Proof.
  intros Hp Vx Vy.
  destruct x as [ [ | ] | [ | ] | | [ | ] mx ex ]; cbn [specNonneg]; try contradiction;
  destruct y as [ [ | ] | [ | ] | | [ | ] my ey ]; cbn [specNonneg]; try contradiction;
    intros _ _ Hlt; try discriminate Hlt; try (split; exact I).
  cbn [SpecFloat.valid_binary] in Vx, Vy.
  pose proof (bounded_emin prec emax mx ex Vx) as Ex.
  pose proof (bounded_emin prec emax my ey Vy) as Ey.
  pose proof (aligned_lt prec emax mx my ex ey Hp Vx Vy Hlt) as Hal.
  cbn [SFsub cond_Zopp].
  rewrite (Z.min_comm ey ex).
  rewrite !shl_align_fst by lia.
  unfold binary_normalize. split.
  - destruct (Zpos my * 2 ^ (ey - Z.min ex ey) - Zpos mx * 2 ^ (ex - Z.min ex ey))
      as [ | k | k ] eqn:Ek; try lia.
    apply binary_round_positive; [ exact Hp | lia ].
  - destruct (Zpos mx * 2 ^ (ex - Z.min ex ey) - Zpos my * 2 ^ (ey - Z.min ex ey))
      as [ | k | k ] eqn:Ek; try lia.
    apply binary_round_negative; [ exact Hp | lia ].
Qed.

Lemma SFsub_self (prec emax : Z) (x : spec_float) :
  specNonneg x ->
  SFsub prec emax x x = S754_zero false \/ SFsub prec emax x x = S754_nan.
Proof.
  destruct x as [ [ | ] | [ | ] | | [ | ] m e ]; cbn [specNonneg]; try contradiction;
    intros _; [ left; reflexivity | right; reflexivity | left ].
  unfold SFsub. cbv zeta. cbn [cond_Zopp]. rewrite Z.sub_diag. reflexivity.
Qed.

Lemma comparison_of_spec (v : float) :
  match Prim2SF v with
  | S754_nan => comparison_of v = None
  | S754_zero _ => comparison_of v = Some 0
  | S754_finite s _ _ | S754_infinity s => comparison_of v = Some (if s then -1 else 1)
  end.
Proof.
  unfold comparison_of, PrimFloat.is_nan.
  rewrite eqb_spec, !ltb_spec, Prim2SF_zero. unfold SFeqb, SFltb, SFcompare.
  destruct (Prim2SF v) as [ [ | ] | [ | ] | | [ | ] m e ]; cbn; try reflexivity.
  - rewrite Z.compare_refl. change (Pos.compare_cont Eq m m) with (Pos.compare m m).
    rewrite Pos.compare_refl. reflexivity.
  - rewrite Z.compare_refl. change (Pos.compare_cont Eq m m) with (Pos.compare m m).
    rewrite Pos.compare_refl. reflexivity.
Qed.

(** The comparator [b.amount - a.amount] on amounts that are not
    negative: [a] may stand before [b] exactly when [a.amount] is not
    below [b.amount]. *)
Lemma descending_notAfter (a b : float) :
  nonneg a -> nonneg b ->
  match comparison_of (PrimFloat.sub b a) with
  | Some v => v <=? 0
  | None => true
  end = negb (PrimFloat.ltb a b).
Proof.
  intros Ha Hb. pose proof (comparison_of_spec (PrimFloat.sub b a)) as Hc.
  rewrite sub_spec in Hc. unfold SF64sub in Hc.
  destruct (PrimFloat.ltb a b) eqn:Eab.
  - rewrite ltb_spec in Eab.
    destruct (SFsub_sign prec emax (Prim2SF a) (Prim2SF b) eq_refl
                (Prim2SF_valid a) (Prim2SF_valid b) Ha Hb Eab) as [Hpos _].
    destruct (SFsub prec emax (Prim2SF b) (Prim2SF a)) as [ [ | ] | [ | ] | | [ | ] m e ];
      cbn in Hpos, Hc; try contradiction; rewrite Hc; reflexivity.
  - destruct (PrimFloat.ltb b a) eqn:Eba.
    + rewrite ltb_spec in Eba.
      destruct (SFsub_sign prec emax (Prim2SF b) (Prim2SF a) eq_refl
                  (Prim2SF_valid b) (Prim2SF_valid a) Hb Ha Eba) as [_ Hneg].
      destruct (SFsub prec emax (Prim2SF b) (Prim2SF a)) as [ [ | ] | [ | ] | | [ | ] m e ];
        cbn in Hneg, Hc; try contradiction; rewrite Hc; reflexivity.
    + pose proof (ltb_total a b Ha Hb Eab Eba) as E. subst b.
      destruct (SFsub_self prec emax (Prim2SF a) Ha) as [E | E]; rewrite E in Hc;
        cbn in Hc; rewrite Hc; reflexivity.
Qed.

Section SortOn.
Context {A : Type} (compare : A -> A -> option Z) (P : A -> Prop).
Hypothesis total_on :
  forall a b, P a -> P b ->
              notAfter compare a b = false -> notAfter compare b a = true.

Lemma insert_Sorted_on (a : A) (l : list A) :
  P a -> Forall P l ->
  Sorted (fun x y => notAfter compare x y = true) l ->
  Sorted (fun x y => notAfter compare x y = true) (insert compare a l).
Proof.
  intros Pa Pl Hs. induction Hs as [ | b l Hl IH Hb ]; cbn [insert];
    [ repeat constructor | ].
  apply Forall_cons_iff in Pl. destruct Pl as [Pb Pl].
  destruct (notAfter compare a b) eqn:E.
  - constructor; [ constructor; assumption | constructor; exact E ].
  - constructor; [ apply IH, Pl | ].
    destruct Hb as [ | c l' Hc ]; cbn [insert].
    + constructor. apply total_on; assumption.
    + destruct (notAfter compare a c); constructor;
        [ apply total_on; assumption | exact Hc ].
Qed.

Lemma sort_Sorted_on (l : list A) :
  Forall P l -> Sorted (fun x y => notAfter compare x y = true) (sort compare l).
Proof.
  induction 1 as [ | a l Pa Pl IH ]; [ constructor | ].
  change (sort compare (a :: l)) with (insert compare a (sort compare l)).
  apply insert_Sorted_on; [ exact Pa | | exact IH ].
  apply (Permutation_Forall (Permutation_sym (sort_Permutation compare l)) Pl).
Qed.

End SortOn.

Lemma fold_add_nonneg (values : list float) (acc : float) :
  nonneg acc -> Forall nonneg values ->
  nonneg (fold_left (fun sum amount => PrimFloat.add sum amount) values acc).
Proof.
  intros Hacc Hv. revert acc Hacc.
  induction Hv as [ | v values Hv _ IH ]; intros acc Hacc; cbn [fold_left];
    [ exact Hacc | ].
  apply IH, nonneg_add; assumption.
Qed.

Lemma fold_add_positive (values : list float) (acc : float) :
  nonneg acc -> Forall nonneg values ->
  PrimFloat.ltb 0%float acc = true
  \/ Exists (fun v => PrimFloat.ltb 0%float v = true) values ->
  PrimFloat.ltb 0%float
    (fold_left (fun sum amount => PrimFloat.add sum amount) values acc) = true.
Proof.
  intros Hacc Hv. revert acc Hacc.
  induction Hv as [ | v values Hv _ IH ]; intros acc Hacc Hpos; cbn [fold_left].
  - destruct Hpos as [H | H]; [ exact H | inversion H ].
  - apply IH; [ apply nonneg_add; assumption | ].
    destruct Hpos as [H | H].
    + left. apply positive_add; [ assumption | assumption | left; exact H ].
    + apply Exists_cons in H. destruct H as [H | H].
      * left. apply positive_add; [ assumption | assumption | right; exact H ].
      * right. exact H.
Qed.

Lemma totalOf_nonneg (t : CategoryTotals (N := Float64)) (c : ExpenseCategory) :
  Forall (fun entry => nonneg (snd entry)) t -> nonneg (totalOf t c).
Proof.
  intros Ht. unfold totalOf.
  destruct (find (fun entry => category_eqb (fst entry) c) t) as [entry | ] eqn:F.
  - apply find_some in F. apply (proj1 (Forall_forall _ _) Ht entry), F.
  - apply nonneg_zero.
Qed.

Lemma descending_transitive : Relations_1.Transitive descending.
Proof.
  intros a b c [Ha [Hb Hab]] [_ [Hc Hbc]]. split; [ exact Ha | ]. split; [ exact Hc | ].
  apply (leb_trans _ (row_amount b)); assumption.
Qed.

Lemma Sorted_descending (rows : list BreakdownRow) :
  Forall (fun r => nonneg (row_amount r)) rows ->
  Sorted (fun x y =>
            notAfter (fun a b => comparison_of (PrimFloat.sub (row_amount b) (row_amount a)))
              x y = true) rows ->
  StronglySorted (fun r r' => PrimFloat.leb (row_amount r') (row_amount r) = true) rows.
Proof.
  intros Hn Hs.
  assert (Hd : StronglySorted descending rows).
  { apply Sorted_StronglySorted; [ exact descending_transitive | ].
    induction Hs as [ | a l Hl IH Ha ]; [ constructor | ].
    apply Forall_cons_iff in Hn. destruct Hn as [Na Nl].
    constructor; [ apply IH, Nl | ].
    destruct Ha as [ | b l' Hb ]; constructor.
    apply Forall_cons_iff in Nl. destruct Nl as [Nb _].
    split; [ exact Na | ]. split; [ exact Nb | ].
    unfold notAfter in Hb. rewrite (descending_notAfter _ _ Na Nb) in Hb.
    apply leb_of_not_ltb; [ exact Nb | exact Na | ].
    destruct (PrimFloat.ltb (row_amount a) (row_amount b)); [ discriminate Hb | reflexivity ]. }
  clear Hn Hs. induction Hd as [ | a l Hl IH Ha ]; constructor; [ exact IH | ].
  apply (Forall_impl _ (fun r H => proj2 (proj2 H)) Ha).
Qed.

Section BreakdownFacts.
Context {R : Runtime}.

(** X23. [CategoryBreakdown] on the totals of [calculateSummary], for
    amounts above zero: the rows are the six categories, each once and
    with its total, from the greatest amount to the smallest; the total
    that the percentages divide by is above zero as soon as there is an
    expense, and with no expense every percentage is 0. *)
Theorem sortedCategories_descending (w : World Float64) (l : list (Expense Float64)) :
  positiveAmounts l ->
  let t := categoryTotals (calculateSummary w l) in
  Permutation (map row_category (sortedCategories t))
    [Food; Transportation; Entertainment; Shopping; Bills; Other] /\
  Forall (fun r => row_amount r = totalOf t (row_category r)) (sortedCategories t) /\
  StronglySorted (fun r r' => PrimFloat.leb (row_amount r') (row_amount r) = true)
    (sortedCategories t) /\
  (l <> [] -> PrimFloat.ltb 0%float (breakdownTotal t) = true) /\
  (l = [] -> Forall (fun r => row_percentage r = 0%float) (sortedCategories t)).
Proof.
  intros Hl t.
  assert (Hk : map fst t = [Food; Transportation; Entertainment; Shopping; Bills; Other])
    by apply categoryTotals_keys.
  assert (Hn : Forall (fun entry => nonneg (snd entry)) t).
  { apply categoryTotals_nonneg; [ exact Hl | ].
    repeat constructor; apply nonneg_zero. }
  unfold sortedCategories.
  set (compare := fun a b : BreakdownRow =>
                    comparison_of (PrimFloat.sub (row_amount b) (row_amount a))).
  set (row := fun category : ExpenseCategory =>
                {| row_category := category;
                   row_amount := totalOf t category;
                   row_percentage :=
                     if PrimFloat.ltb 0%float (breakdownTotal t)
                     then PrimFloat.mul
                            (PrimFloat.div (totalOf t category) (breakdownTotal t))
                            100%float
                     else 0%float |}).
  pose proof (sort_Permutation compare (map row (map fst t))) as Hp.
  assert (Hrows : Forall (fun r => nonneg (row_amount r)) (map row (map fst t))).
  { apply Forall_forall. intros r Hr. apply in_map_iff in Hr.
    destruct Hr as [c [<- _]]. apply totalOf_nonneg, Hn. }
  split; [ | split; [ | split; [ | split ] ] ].
  - apply (perm_trans (Permutation_map row_category Hp)).
    rewrite map_map. cbn [row_category row]. rewrite map_id, Hk. apply Permutation_refl.
  - apply (Permutation_Forall (Permutation_sym Hp)).
    apply Forall_forall. intros r Hr. apply in_map_iff in Hr.
    destruct Hr as [c [<- _]]. reflexivity.
  - apply Sorted_descending.
    + apply (Permutation_Forall (Permutation_sym Hp) Hrows).
    + apply (sort_Sorted_on compare (fun r => nonneg (row_amount r))); [ | exact Hrows ].
      intros a b Na Nb. unfold notAfter, compare.
      rewrite (descending_notAfter _ _ Na Nb), (descending_notAfter _ _ Nb Na).
      destruct (PrimFloat.ltb (row_amount a) (row_amount b)) eqn:E; [ | discriminate ].
      intros _. rewrite (ltb_asym _ _ Na Nb E). reflexivity.
  - intros Hne. destruct l as [ | e l ]; [ destruct (Hne eq_refl) | ].
    unfold breakdownTotal. apply fold_add_positive; [ apply nonneg_zero | | right ].
    + apply Forall_forall. intros v Hv. apply in_map_iff in Hv.
      destruct Hv as [entry [<- Hin]].
      apply (proj1 (Forall_forall _ _) Hn entry Hin).
    + pose proof (categoryTotal_positive w (e :: l) e Hl (or_introl eq_refl)) as Hpos.
      fold t in Hpos. unfold totalOf in Hpos.
      destruct (find (fun entry => category_eqb (fst entry) (category e)) t)
        as [entry | ] eqn:F.
      * apply find_some in F. apply Exists_exists. exists (snd entry).
        split; [ apply in_map, F | exact Hpos ].
      * change (@zero Float64) with 0%float in Hpos.
        rewrite ltb_irrefl in Hpos. discriminate Hpos.
  - intros ->. vm_compute. repeat constructor.
Qed.

End BreakdownFacts.

Lemma sortedCategories_descending_witness :
  positiveAmounts Scenes.four /\
  map row_category
    (sortedCategories
       (categoryTotals (calculateSummary (R := UTC.runtime)
                          (Sample.browser Scenes.four Sample.feb15) Scenes.four)))
  = [Food; Bills; Transportation; Entertainment; Shopping; Other] /\
  StronglySorted (fun r r' => PrimFloat.leb (row_amount r') (row_amount r) = true)
    (sortedCategories
       (categoryTotals (calculateSummary (R := UTC.runtime)
                          (Sample.browser Scenes.four Sample.feb15) Scenes.four))).
Proof.
  assert (H : positiveAmounts Scenes.four) by (repeat constructor).
  split; [ exact H | ]. split; [ vm_compute; reflexivity | ].
  exact (proj1 (proj2 (proj2 (sortedCategories_descending (R := UTC.runtime)
                                (Sample.browser Scenes.four Sample.feb15)
                                Scenes.four H)))).
Defined.

(** ** How a submission ends *)

Lemma SF_checks_of_positive (a : spec_float) :
  SFltb (S754_zero false) a = true ->
  SFeqb a a = true /\ SFleb a (S754_zero false) = false.
Proof.
  unfold SFeqb, SFleb, SFltb, SFcompare.
  destruct a as [ [ | ] | [ | ] | | [ | ] ma ea ]; cbn; try discriminate;
    intros _; split; try reflexivity.
  rewrite Z.compare_refl. change (Pos.compare_cont Eq ma ma) with (Pos.compare ma ma).
  rewrite Pos.compare_refl. reflexivity.
Qed.

Lemma checks_of_positive (a : float) :
  PrimFloat.ltb 0%float a = true ->
  PrimFloat.is_nan a = false /\ PrimFloat.leb a 0%float = false.
Proof.
  unfold PrimFloat.is_nan. rewrite eqb_spec, leb_spec, ltb_spec, Prim2SF_zero.
  intros H. destruct (SF_checks_of_positive _ H) as [-> ->]. split; reflexivity.
Qed.

Section FormOutcomes.
Context {R : Runtime} {H : FormHost}.

Lemma isEmpty_false (s : string) : isEmpty s = false <-> s <> "".
Proof. destruct s; cbn; split; congruence. Qed.

Lemma validateForm_accepts (data : ExpenseFormData) :
  noErrors (validateForm data) = true <-> accepted data.
Proof.
  unfold accepted, noErrors, validateForm; cbn [error_date error_amount error_description].
  rewrite <- !isEmpty_false.
  destruct (isEmpty (form_date data)); [ split; [ discriminate | intros [E _]; discriminate E ] | ].
  destruct (isEmpty (form_amount data)); cbn [orb];
    [ split; [ discriminate | intros [_ [E _]]; discriminate E ] | ].
  destruct (isEmpty (trim (form_amount data)));
    [ split; [ discriminate | intros [_ [_ [E _]]]; discriminate E ] | ].
  destruct (PrimFloat.ltb 0%float (parseFloat (form_amount data))) eqn:Ea.
  - destruct (checks_of_positive _ Ea) as [-> ->]. cbn [orb].
    destruct (isEmpty (form_description data)); cbn [orb];
      [ split; [ discriminate | intros [_ [_ [_ [_ [E _]]]]]; discriminate E ] | ].
    destruct (trim (form_description data)) as [ | c1 [ | c2 [ | c3 rest ] ] ]; cbn;
      split; try discriminate; try (intros [_ [_ [_ [_ [_ E]]]]]; lia).
    + intros _. repeat split; lia.
  - split; [ | intros [_ [_ [_ [E _]]]]; discriminate E ].
    destruct (PrimFloat.is_nan (parseFloat (form_amount data))) eqn:En; cbn [orb];
      [ discriminate | ].
    destruct (PrimFloat.leb (parseFloat (form_amount data)) 0%float) eqn:El;
      [ discriminate | ].
    rewrite (positive_of_checks _ En El) in Ea. discriminate Ea.
Qed.

(** X24. How a submission ends.  The form is accepted exactly when the
    date is not empty, the amount is not blank and parses to a number
    above zero, and the description has at least three characters once
    trimmed.  A form that is not accepted is rejected: [onSubmit] is not
    called and the input stays.  An accepted form whose date the host
    cannot read ends in the RangeError of [toISOString], with
    [isSubmitting] left true; any other accepted form is submitted. *)
Theorem handleSubmit_outcomes (initialData : option (Expense Float64))
    (drawn : Drawn) (s : FormState) :
  (fst (handleSubmit initialData drawn s) = Rejected <-> ~ accepted (formData s)) /\
  (fst (handleSubmit initialData drawn s) = Rejected ->
   formData (snd (handleSubmit initialData drawn s)) = formData s /\
   noErrors (errors (snd (handleSubmit initialData drawn s))) = false) /\
  (fst (handleSubmit initialData drawn s) = RangeError <->
   accepted (formData s) /\ Date_parse (form_date (formData s)) = None) /\
  (fst (handleSubmit initialData drawn s) = RangeError ->
   isSubmitting (snd (handleSubmit initialData drawn s)) = true) /\
  ((exists e, fst (handleSubmit initialData drawn s) = Submitted e) <->
   accepted (formData s) /\ exists t, Date_parse (form_date (formData s)) = Some t).
Proof.
  rewrite <- !validateForm_accepts.
  unfold handleSubmit.
  destruct (noErrors (validateForm (formData s))) eqn:Hv; cbn [negb fst snd].
  - destruct (Date_parse (form_date (formData s))) as [t | ]; cbn [fst snd].
    + split; [ split; [ discriminate | intros E; destruct (E eq_refl) ] | ].
      split; [ discriminate | ].
      split; [ split; [ discriminate | intros [_ E]; discriminate E ] | ].
      split; [ discriminate | ].
      split; [ intros _; split; [ reflexivity | exists t; reflexivity ] | ].
      intros _. eexists. reflexivity.
    + split; [ split; [ discriminate | intros E; destruct (E eq_refl) ] | ].
      split; [ discriminate | ].
      split; [ split; [ intros _; split; reflexivity | reflexivity ] | ].
      split; [ reflexivity | ].
      split; [ intros [e E]; discriminate E | intros [_ [t E]]; discriminate E ].
  - split; [ split; [ intros _; discriminate | reflexivity ] | ].
    split; [ intros _; split; [ reflexivity | exact Hv ] | ].
    split; [ split; [ discriminate | intros [E _]; discriminate E ] | ].
    split; [ discriminate | ].
    split; [ intros [e E]; discriminate E | intros [E _]; discriminate E ].
Qed.

End FormOutcomes.

(** ** Whole amounts: additions that do not round *)

Lemma digits2_pos_iter_xO (m k : positive) :
  Zpos (digits2_pos (Pos.iter xO m k)) = Zpos (digits2_pos m) + Zpos k.
Proof.
  induction k as [ | k IH ] using Pos.peano_ind.
  - cbn [Pos.iter digits2_pos]. lia.
  - rewrite Pos.iter_succ. cbn [digits2_pos]. lia.
Qed.

Lemma iter_pos_iter {A : Type} (f : A -> A) (p : positive) (x : A) :
  iter_pos f p x = Pos.iter f x p.
Proof.
  revert x. induction p as [p IH | p IH | ]; intros x; cbn [iter_pos Pos.iter].
  - rewrite !IH, <- !Pos.iter_swap. reflexivity.
  - rewrite !IH. reflexivity.
  - reflexivity.
Qed.

(** Shifting out the zeros that [xO] has put in loses nothing. *)
Lemma shr_iter_xO (m k : positive) :
  iter_pos shr_1 k (Build_shr_record (Zpos (Pos.iter xO m k)) false false)
  = Build_shr_record (Zpos m) false false.
Proof.
  rewrite iter_pos_iter.
  induction k as [ | k IH ] using Pos.peano_ind.
  - reflexivity.
  - rewrite Pos.iter_succ_r, Pos.iter_succ. cbn [shr_1 orb]. exact IH.
Qed.

Section Canonical.
Variables prec emax : Z.

(** [binary_round] on a mantissa that fits: when the exponent has to go
    down, the mantissa is shifted left. *)
Lemma binary_round_up (M : positive) (e : Z) :
  SpecFloat.fexp prec emax (Zpos (digits2_pos M) + e) <= e ->
  SpecFloat.fexp prec emax (Zpos (digits2_pos M) + e) <= emax - prec ->
  binary_round prec emax false M e
  = S754_finite false
      (fst (shl_align M e (SpecFloat.fexp prec emax (Zpos (digits2_pos M) + e))))
      (SpecFloat.fexp prec emax (Zpos (digits2_pos M) + e)).
Proof.
  intros Hle Hmax. unfold binary_round.
  remember (SpecFloat.fexp prec emax (Zpos (digits2_pos M) + e)) as e3 eqn:E3.
  assert (Hrun : forall mz : positive,
             Zpos (digits2_pos mz) + e3 = Zpos (digits2_pos M) + e ->
             binary_round_aux prec emax false (Zpos mz) e3 loc_Exact
             = S754_finite false mz e3).
  { intros mz Hd. unfold binary_round_aux, shr_fexp. cbn [Zdigits2].
    rewrite Hd, <- E3, Z.sub_diag. cbn [shr shr_record_of_loc].
    cbn [loc_of_shr_record round_nearest_even shr_m Zdigits2].
    rewrite Hd, <- E3, Z.sub_diag. cbn [shr shr_record_of_loc shr_m].
    apply Z.leb_le in Hmax. rewrite Hmax. reflexivity. }
  unfold shl_align. destruct (e3 - e) as [ | k | k ] eqn:Ek; cbn [fst].
  - assert (e3 = e) as <- by lia. apply Hrun. lia.
  - lia.
  - apply Hrun. rewrite digits2_pos_iter_xO. lia.
Qed.

(** When the exponent has to go up, the zeros at the end of the
    mantissa are shifted out. *)
Lemma binary_round_down (m k : positive) (e : Z) :
  SpecFloat.fexp prec emax (Zpos (digits2_pos m) + Zpos k + e) = e + Zpos k ->
  e + Zpos k <= emax - prec ->
  binary_round prec emax false (Pos.iter xO m k) e
  = S754_finite false m (e + Zpos k).
Proof.
  intros He Hmax. unfold binary_round, shl_align.
  rewrite digits2_pos_iter_xO, He.
  replace (e + Zpos k - e) with (Zpos k) by lia.
  unfold binary_round_aux, shr_fexp. cbn [Zdigits2].
  rewrite digits2_pos_iter_xO, He.
  replace (e + Zpos k - e) with (Zpos k) by lia.
  cbn [shr shr_record_of_loc]. rewrite shr_iter_xO.
  cbn [loc_of_shr_record round_nearest_even shr_m Zdigits2].
  replace (Zpos (digits2_pos m) + (e + Zpos k)) with (Zpos (digits2_pos m) + Zpos k + e)
    by lia.
  rewrite He, Z.sub_diag. cbn [shr shr_record_of_loc shr_m].
  apply Z.leb_le in Hmax. rewrite Hmax. reflexivity.
Qed.


Lemma Zdigits2_shift (M : positive) (j : Z) :
  0 <= j -> Zdigits2 (Zpos M * 2 ^ j) = Zpos (digits2_pos M) + j.
Proof.
  intros Hj. destruct j as [ | k | k ]; [ | | lia ].
  - rewrite Z.mul_1_r, Z.add_0_r. reflexivity.
  - rewrite <- iter_xO_pow. cbn [Zdigits2]. apply digits2_pos_iter_xO.
Qed.

(** The double that [binary_round] returns is fixed by the value: [V] is
    the value in units of the smallest exponent, [m3] its mantissa at
    the exponent that [fexp] picks. *)
Lemma binary_round_value (M m3 : positive) (e V : Z) :
  SpecFloat.emin prec emax <= e ->
  Zpos M * 2 ^ (e - SpecFloat.emin prec emax) = V ->
  Zpos m3 * 2 ^ (SpecFloat.fexp prec emax (Zdigits2 V + SpecFloat.emin prec emax)
                 - SpecFloat.emin prec emax) = V ->
  SpecFloat.fexp prec emax (Zdigits2 V + SpecFloat.emin prec emax) <= emax - prec ->
  binary_round prec emax false M e
  = S754_finite false m3
      (SpecFloat.fexp prec emax (Zdigits2 V + SpecFloat.emin prec emax)).
Proof.
  intros He HV Hm3 Hmax.
  assert (Hd : Zdigits2 V + SpecFloat.emin prec emax = Zpos (digits2_pos M) + e).
  { rewrite <- HV, Zdigits2_shift by lia. lia. }
  rewrite Hd in *.
  remember (SpecFloat.fexp prec emax (Zpos (digits2_pos M) + e)) as e3 eqn:E3.
  assert (Hs : SpecFloat.emin prec emax <= e3)
    by (rewrite E3; unfold SpecFloat.fexp; lia).
  destruct (Z_le_gt_dec e3 e) as [Hle | Hgt].
  - rewrite binary_round_up by (rewrite <- E3; assumption). rewrite <- E3. f_equal.
    apply Pos2Z.inj. rewrite shl_align_fst by exact Hle.
    apply (Z.mul_cancel_r _ _ (2 ^ (e3 - SpecFloat.emin prec emax)));
      [ apply Z.pow_nonzero; lia | ].
    rewrite Hm3, <- HV, <- Z.mul_assoc, <- Z.pow_add_r by lia.
    f_equal. f_equal. lia.
  - assert (Hk : exists k, e3 - e = Zpos k)
      by (destruct (e3 - e) as [ | k | k ] eqn:Ek; try lia; exists k; reflexivity).
    destruct Hk as [k Hk].
    assert (HM : M = Pos.iter xO m3 k).
    { apply Pos2Z.inj. rewrite iter_xO_pow.
      apply (Z.mul_cancel_r _ _ (2 ^ (e - SpecFloat.emin prec emax)));
        [ apply Z.pow_nonzero; lia | ].
      rewrite HV, <- Hm3, <- Z.mul_assoc, <- Z.pow_add_r by lia.
      f_equal. f_equal. lia. }
    subst M. rewrite digits2_pos_iter_xO in E3.
    replace e3 with (e + Zpos k) in * by lia.
    apply binary_round_down; [ symmetry; exact E3 | exact Hmax ].
Qed.

End Canonical.

Section Encoding.
Variables prec emax : Z.

Lemma encodes_unique (x y : spec_float) (V : Z) :
  encodes prec emax x V -> encodes prec emax y V -> x = y.
Proof.
  intros [m [-> [_ Hm]]] [m' [-> [_ Hm']]]. f_equal.
  apply Pos2Z.inj.
  apply (Z.mul_cancel_r _ _
           (2 ^ (SpecFloat.fexp prec emax (Zdigits2 V + SpecFloat.emin prec emax)
                 - SpecFloat.emin prec emax)));
    [ apply Z.pow_nonzero; unfold SpecFloat.fexp; lia | congruence ].
Qed.

(** The sum of two doubles in canonical form is the double in canonical
    form of the sum of the values, when that sum has one. *)
Lemma encodes_add (x y : spec_float) (Va Vb : Z) (m3 : positive) :
  encodes prec emax x Va -> encodes prec emax y Vb ->
  SpecFloat.fexp prec emax (Zdigits2 (Va + Vb) + SpecFloat.emin prec emax)
  <= emax - prec ->
  Zpos m3 * 2 ^ (SpecFloat.fexp prec emax
                   (Zdigits2 (Va + Vb) + SpecFloat.emin prec emax)
                 - SpecFloat.emin prec emax) = Va + Vb ->
  encodes prec emax (SFadd prec emax x y) (Va + Vb).
Proof.
  intros [ma [-> [_ Ha]]] [mb [-> [_ Hb]]] Hmax Hm3.
  remember (SpecFloat.fexp prec emax (Zdigits2 Va + SpecFloat.emin prec emax)) as ea eqn:Ea.
  remember (SpecFloat.fexp prec emax (Zdigits2 Vb + SpecFloat.emin prec emax)) as eb eqn:Eb.
  assert (Sa : SpecFloat.emin prec emax <= ea) by (rewrite Ea; unfold SpecFloat.fexp; lia).
  assert (Sb : SpecFloat.emin prec emax <= eb) by (rewrite Eb; unfold SpecFloat.fexp; lia).
  exists m3. split; [ | split; assumption ].
  unfold SFadd. cbv zeta. cbn [cond_Zopp].
  rewrite <- Pos2Z.inj_add. cbn [binary_normalize].
  apply (binary_round_value prec emax _ m3 _ (Va + Vb));
    [ lia | | exact Hm3 | exact Hmax ].
  rewrite Pos2Z.inj_add, !shl_align_fst by lia.
  rewrite Z.mul_add_distr_r, <- !Z.mul_assoc, <- !Z.pow_add_r by lia.
  rewrite <- Ha, <- Hb. f_equal; f_equal; f_equal; lia.
Qed.

End Encoding.

Lemma pow2_split (a b : Z) : 0 <= a -> 0 <= b -> 2 ^ a * 2 ^ b = 2 ^ (a + b).
Proof. intros Ha Hb. symmetry. apply Z.pow_add_r; assumption. Qed.

(** A whole number up to 2^53 has a double of its own. *)
Lemma whole_canonical (a : positive) :
  Zpos a <= 2 ^ 53 ->
  SpecFloat.fexp prec emax (Zdigits2 (Zpos a * 2 ^ 1074) + SpecFloat.emin prec emax)
  <= emax - prec /\
  exists m3,
    Zpos m3 * 2 ^ (SpecFloat.fexp prec emax
                     (Zdigits2 (Zpos a * 2 ^ 1074) + SpecFloat.emin prec emax)
                   - SpecFloat.emin prec emax)
    = Zpos a * 2 ^ 1074.
Proof.
  intros Ha. rewrite Zdigits2_shift by lia.
  pose proof (digits2_pos_lower a) as Hl.
  unfold SpecFloat.fexp, SpecFloat.emin, prec, emax.
  set (d := Zpos (digits2_pos a)) in *.
  assert (Hd : 1 <= d) by (unfold d; lia).
  assert (Hd54 : d <= 54).
  { destruct (Z_le_gt_dec d 54) as [H | H]; [ exact H | exfalso ].
    assert (2 ^ 54 <= 2 ^ (d - 1)) by (apply Z.pow_le_mono_r; lia).
    assert (2 ^ 53 < 2 ^ 54) by (apply Z.pow_lt_mono_r; lia). lia. }
  replace (Z.max (d + 1074 + (3 - 1024 - 53) - 53) (3 - 1024 - 53)) with (d - 53) by lia.
  split; [ lia | ].
  replace (d - 53 - (3 - 1024 - 53)) with (d + 1021) by lia.
  destruct (Z_le_gt_dec d 53) as [H | H].
  - exists (Z.to_pos (Zpos a * 2 ^ (53 - d))).
    rewrite Z2Pos.id by (apply Z.mul_pos_pos; [ lia | apply Z.pow_pos_nonneg; lia ]).
    rewrite <- Z.mul_assoc, pow2_split by lia. f_equal. f_equal. lia.
  - assert (d = 54) as -> by lia.
    assert (Zpos a = 2 ^ 53) as -> by (change (54 - 1) with 53 in Hl; lia).
    exists (Z.to_pos (2 ^ 52)).
    rewrite Z2Pos.id by (apply Z.pow_pos_nonneg; lia).
    rewrite !pow2_split by lia. reflexivity.
Qed.

Lemma to_Z_of_Z (a : Z) : 0 <= a <= 2 ^ 53 -> Uint63.to_Z (Uint63.of_Z a) = a.
Proof.
  intros Ha. rewrite Uint63.of_Z_spec. apply Z.mod_small.
  assert (2 ^ 53 < Uint63.wB) by reflexivity. lia.
Qed.

Lemma whole_zero : Prim2SF (whole 0) = S754_zero false.
Proof. reflexivity. Qed.

Lemma whole_encodes (a : Z) :
  0 < a <= 2 ^ 53 -> encodes prec emax (Prim2SF (whole a)) (a * 2 ^ 1074).
Proof.
  intros Ha. unfold whole. rewrite of_uint63_spec, to_Z_of_Z by lia.
  destruct a as [ | a | a ]; try lia. cbn [binary_normalize].
  destruct (whole_canonical a (proj2 Ha)) as [Hmax [m3 Hm3]].
  exists m3. split; [ | split; assumption ].
  apply (binary_round_value prec emax _ m3 _ (Zpos a * 2 ^ 1074));
    [ unfold SpecFloat.emin, prec, emax; lia | | exact Hm3 | exact Hmax ].
  reflexivity.
Qed.

(** Adding whole numbers is exact as long as the sum is at most 2^53. *)
Lemma whole_add (a b : Z) :
  0 <= a -> 0 <= b -> a + b <= 2 ^ 53 ->
  PrimFloat.add (whole a) (whole b) = whole (a + b).
Proof.
  intros Ha Hb Hsum. apply Prim2SF_inj. rewrite add_spec. unfold SF64add.
  destruct (Z.eq_dec a 0) as [-> | Na].
  - rewrite whole_zero. cbn [Z.add].
    destruct (Z.eq_dec b 0) as [-> | Nb]; [ reflexivity | ].
    destruct (whole_encodes b) as [m [-> _]]; [ lia | reflexivity ].
  - destruct (Z.eq_dec b 0) as [-> | Nb].
    + rewrite whole_zero, Z.add_0_r.
      destruct (whole_encodes a) as [m [-> _]]; [ lia | reflexivity ].
    + apply (encodes_unique prec emax _ _ ((a + b) * 2 ^ 1074));
        [ | apply whole_encodes; lia ].
      rewrite Z.mul_add_distr_r.
      assert (Hab : 0 < a + b <= 2 ^ 53) by lia.
      destruct (a + b) as [ | c | c ] eqn:Ec; try lia.
      destruct (whole_canonical c (proj2 Hab)) as [Hmax [m3 Hm3]].
      rewrite <- Ec, Z.mul_add_distr_r in Hmax, Hm3.
      apply (encodes_add prec emax _ _ _ _ m3);
        [ apply whole_encodes; lia | apply whole_encodes; lia | exact Hmax | exact Hm3 ].
Qed.

Lemma wholePart_nonneg (x : float) : 0 <= wholePart x.
Proof.
  unfold wholePart. destruct (Prim2SF x) as [ | | | [ | ] m e ]; try lia.
  apply Z.shiftl_nonneg. lia.
Qed.

Lemma wholeTotal_cons (e : Expense Float64) (l : list (Expense Float64)) :
  wholeTotal (e :: l) = wholePart (amount e) + wholeTotal l.
Proof. reflexivity. Qed.

Lemma wholeTotal_nonneg (l : list (Expense Float64)) : 0 <= wholeTotal l.
Proof.
  induction l as [ | e l IH ]; [ cbn; lia | ].
  rewrite wholeTotal_cons. pose proof (wholePart_nonneg (amount e)). lia.
Qed.

Lemma wholeTotal_filter (p : Expense Float64 -> bool) (l : list (Expense Float64)) :
  wholeTotal (filter p l) <= wholeTotal l.
Proof.
  induction l as [ | e l IH ]; cbn [filter]; [ lia | ].
  pose proof (wholePart_nonneg (amount e)).
  destruct (p e); rewrite !wholeTotal_cons; lia.
Qed.

(** The six buckets hold every record once. *)
Lemma wholeTotal_buckets (l : list (Expense Float64)) :
  wholeTotal l
  = wholeTotal (filter (fun e : Expense Float64 => category_eqb (category e) Food) l)
    + wholeTotal (filter (fun e : Expense Float64 => category_eqb (category e) Transportation) l)
    + wholeTotal (filter (fun e : Expense Float64 => category_eqb (category e) Entertainment) l)
    + wholeTotal (filter (fun e : Expense Float64 => category_eqb (category e) Shopping) l)
    + wholeTotal (filter (fun e : Expense Float64 => category_eqb (category e) Bills) l)
    + wholeTotal (filter (fun e : Expense Float64 => category_eqb (category e) Other) l).
Proof.
  induction l as [ | e l IH ]; [ reflexivity | ].
  cbn [filter]. destruct (category e); cbn [category_eqb];
    rewrite !wholeTotal_cons; lia.
Qed.

Lemma sumAmounts_whole_from (l : list (Expense Float64)) (acc : Z) :
  0 <= acc ->
  Forall (fun e : Expense Float64 => amount e = whole (wholePart (amount e))) l ->
  acc + wholeTotal l <= 2 ^ 53 ->
  fold_left (fun sum (e : Expense Float64) => PrimFloat.add sum (amount e)) l (whole acc)
  = whole (acc + wholeTotal l).
Proof.
  intros Hacc Hl. revert acc Hacc.
  induction Hl as [ | e l He _ IH ]; intros acc Hacc Hb; cbn [fold_left].
  - cbn. rewrite Z.add_0_r. reflexivity.
  - rewrite wholeTotal_cons in *.
    pose proof (wholePart_nonneg (amount e)) as Hn.
    pose proof (wholeTotal_nonneg l) as Ht.
    rewrite He at 1. rewrite whole_add by lia.
    rewrite IH by lia. f_equal. lia.
Qed.

(** The sum of whole amounts is the double of their total. *)
Lemma sumAmounts_whole (l : list (Expense Float64)) :
  wholeAmounts l -> sumAmounts l = whole (wholeTotal l).
Proof.
  intros [Hl Hb]. unfold sumAmounts.
  change (@zero Float64) with (whole 0).
  apply (sumAmounts_whole_from l 0); [ lia | exact Hl | lia ].
Qed.

Lemma wholeAmounts_filter (p : Expense Float64 -> bool) (l : list (Expense Float64)) :
  wholeAmounts l -> wholeAmounts (filter p l).
Proof.
  intros [Hl Hb]. split.
  - apply Forall_forall. intros e He. apply filter_In in He.
    apply (proj1 (Forall_forall _ _) Hl e), He.
  - pose proof (wholeTotal_filter p l). lia.
Qed.

Section WholeSums.
Context {R : Runtime}.

Lemma categoryTotal_whole (w : World Float64) (l : list (Expense Float64))
    (c : ExpenseCategory) :
  wholeAmounts l ->
  totalOf (categoryTotals (calculateSummary w l)) c
  = whole (wholeTotal (filter (fun e : Expense Float64 => category_eqb (category e) c) l)).
Proof.
  intros Hw. unfold calculateSummary. cbn [categoryTotals].
  rewrite totalOf_fold by reflexivity.
  rewrite <- (sumAmounts_whole _ (wholeAmounts_filter _ l Hw)).
  unfold sumAmounts. f_equal. destruct c; reflexivity.
Qed.

(** C6. Each of the six category totals is the sum, in the order of
    the list, of the amounts of the records of that category, and
    [totalExpenses] is the sum of all amounts in that order.  When the
    amounts are whole numbers that add up to at most 2^53, every one of
    these additions of doubles is exact and the six totals add up to
    [totalExpenses]. *)
Theorem categoryTotals_sum (w : World Float64) (l : list (Expense Float64)) :
  (forall c,
      totalOf (categoryTotals (calculateSummary w l)) c
      = sumAmounts (filter (fun e : Expense Float64 => category_eqb (category e) c) l)) /\
  totalExpenses (calculateSummary w l) = sumAmounts l /\
  (wholeAmounts l ->
   sumOfTotals (categoryTotals (calculateSummary w l))
   = totalExpenses (calculateSummary w l)).
Proof.
  split; [ | split; [ reflexivity | ] ].
  - intros c. unfold calculateSummary. cbn [categoryTotals].
    rewrite totalOf_fold by reflexivity.
    unfold sumAmounts. f_equal. destruct c; reflexivity.
  - intros Hw.
    change (totalExpenses (calculateSummary w l)) with (sumAmounts l).
    rewrite (sumAmounts_whole l Hw).
    pose proof (categoryTotals_keys l (emptyTotals (N := Float64))) as Hk.
    change (fold_left addToCategory l emptyTotals)
      with (categoryTotals (calculateSummary w l)) in Hk.
    rewrite (totals_shape _ Hk).
    unfold sumOfTotals. cbn [fold_left snd].
    rewrite !(categoryTotal_whole w l _ Hw).
    change (@zero Float64) with (whole 0). change (@plus Float64) with PrimFloat.add.
    pose proof (wholeTotal_buckets l) as Hb. destruct Hw as [_ Hmax].
    pose proof (wholeTotal_nonneg
                  (filter (fun e : Expense Float64 => category_eqb (category e) Food) l)).
    pose proof (wholeTotal_nonneg
                  (filter (fun e : Expense Float64 => category_eqb (category e) Transportation) l)).
    pose proof (wholeTotal_nonneg
                  (filter (fun e : Expense Float64 => category_eqb (category e) Entertainment) l)).
    pose proof (wholeTotal_nonneg
                  (filter (fun e : Expense Float64 => category_eqb (category e) Shopping) l)).
    pose proof (wholeTotal_nonneg
                  (filter (fun e : Expense Float64 => category_eqb (category e) Bills) l)).
    pose proof (wholeTotal_nonneg
                  (filter (fun e : Expense Float64 => category_eqb (category e) Other) l)).
    rewrite !whole_add by lia. f_equal. lia.
Qed.

End WholeSums.

Lemma wholeAmounts_three : wholeAmounts Sample.three.
Proof.
  split; [ repeat constructor | vm_compute; discriminate ].
Qed.

Lemma categoryTotals_sum_witness :
  wholeAmounts Sample.three /\
  sumOfTotals (categoryTotals (calculateSummary (R := UTC.runtime)
                                 (Sample.browser Sample.three Sample.feb15) Sample.three))
  = totalExpenses (calculateSummary (R := UTC.runtime)
                     (Sample.browser Sample.three Sample.feb15) Sample.three).
Proof.
  split; [ exact wholeAmounts_three | ].
  exact (proj2 (proj2 (categoryTotals_sum (R := UTC.runtime)
                         (Sample.browser Sample.three Sample.feb15) Sample.three))
           wholeAmounts_three).
Defined.
